(** * nsys-profiling-poc: benchmark payloads and report scripts

    A shallow embedding of the Python functions of the repository that the
    specification makes claims about, and of the functions next to them in
    the same files, with the proofs of those claims and of further
    properties of the code.

    Conventions of the embedding.
    - A Python [int] is a [Z], list indices and loop counters included; a
      list is a [list], indexed as Python does (negative indices count from
      the end, anything out of range raises [IndexError]).
    - A dictionary with a fixed set of keys is a record; one keyed by strings
      chosen at run time is a [gmap string].
    - A Python [float] is read exactly, as a rational [Q]; rounding (and with
      it underflow to 0.0 and overflow to infinity), infinities and NaN are
      outside the model.
    - A Python [str] is a [string] whose characters are code points below 256.
    - Code that may raise returns a [result]: [Ok v] for a normal return,
      [Raise e] for an exception that leaves the function.
    - The bytes of a binary file are a [list byte].
    - The recursion limit of the interpreter is a parameter of the recursive
      functions ([fibonacci_recursive], [quick_sort]): the number of nested
      calls still allowed, beyond which the call is a [RecursionError].  The
      digit limit of [int] on strings is [max_str_digits].  Memory is not
      modelled. *)

From Stdlib Require Import Ascii String ZArith QArith Zdivisibility Sorted Lia.
From Stdlib Require Import DecimalString.
From Stdlib Require Import Strings.Byte.
From stdpp Require Import gmap strings list fin_maps.
From Equations Require Import Equations.

#[local] Open Scope Z_scope.

(** ** Exceptions and the error monad *)

Inductive exn : Type :=
  | ValueError
  | IndexError
  | TypeError
  | ZeroDivisionError
  | CalledProcessError
  | FileNotFoundError
  | UserError (tag : string).

Inductive result (A : Type) : Type :=
  | Ok (a : A)
  | Raise (e : exn).

Arguments Ok {A} a.
Arguments Raise {A} e.

#[global] Instance result_ret : MRet result := fun A a => Ok a.

#[global] Instance result_bind : MBind result := fun A B k c =>
  match c with
  | Ok a => k a
  | Raise e => Raise e
  end.

(** [for x in xs: body] over a state [s] that the body may replace or abort. *)
Fixpoint for_each {A S : Type} (xs : list A) (body : A -> S -> result S) (s : S)
  : result S :=
  match xs with
  | [] => Ok s
  | x :: xs' => s' ← body x s; for_each xs' body s'
  end.

(** [[x for x in xs if cond(x)]] where the condition may raise. *)
Fixpoint comprehension {A : Type} (xs : list A) (cond : A -> result bool)
  : result (list A) :=
  match xs with
  | [] => Ok []
  | x :: xs' =>
      c ← cond x;
      rest ← comprehension xs' cond;
      Ok (if (c : bool) then x :: rest else rest)
  end.

(** [[f(x) for x in xs]] (or the generator of the same shape, consumed to the
    end) where [f] may raise. *)
Fixpoint map_result {A B : Type} (f : A -> result B) (xs : list A)
  : result (list B) :=
  match xs with
  | [] => Ok []
  | x :: xs' =>
      y ← f x;
      ys ← map_result f xs';
      Ok (y :: ys)
  end.

(** ** Python lists and ranges *)

(** The position an index denotes in a list of [len] items: negative indices
    count from the end, anything else out of range is an [IndexError]. *)
Definition norm_index (len : nat) (i : Z) : option nat :=
  if (0 <=? i) && (i <? Z.of_nat len) then Some (Z.to_nat i)
  else if (i <? 0) && (- Z.of_nat len <=? i) then Some (Z.to_nat (Z.of_nat len + i))
  else None.

(** [l[i]] *)
Definition getitem {A : Type} (l : list A) (i : Z) : result A :=
  match norm_index (length l) i with
  | Some n => match l !! n with
              | Some x => Ok x
              | None => Raise IndexError
              end
  | None => Raise IndexError
  end.

(** [l[i] = v] *)
Definition setitem {A : Type} (l : list A) (i : Z) (v : A) : result (list A) :=
  match norm_index (length l) i with
  | Some n => Ok (<[n := v]> l)
  | None => Raise IndexError
  end.

Fixpoint range_from (start step : Z) (count : nat) : list Z :=
  match count with
  | O => []
  | S c => start :: range_from (start + step) step c
  end.

(** [range(start, stop, step)] for a positive [step] (the only kind the
    sources use): [max 0 (ceil ((stop - start) / step))] items. *)
Definition py_range (start stop step : Z) : list Z :=
  range_from start step (Z.to_nat ((stop - start + step - 1) / step)).

(** ** Python strings *)

Module PyStr.

#[local] Open Scope string_scope.

Definition code (ch : ascii) : N := N_of_ascii ch.

(** [str.isspace] on one character, which is also the class [\s] of [re] on
    [str] patterns: TAB..CR, FS..US, space, NEL and NBSP. *)
Definition is_space (ch : ascii) : bool :=
  let n := code ch in
  ((9 <=? n) && (n <=? 13) || (28 <=? n) && (n <=? 32) ||
   (n =? 133) || (n =? 160))%N.

(** The class [\d]: below code point 256 only the ASCII digits are decimal. *)
Definition is_digit (ch : ascii) : bool :=
  let n := code ch in ((48 <=? n) && (n <=? 57))%N.

Definition is_digit_or_dot (ch : ascii) : bool :=
  is_digit ch || Ascii.eqb ch ".".

Definition is_empty (s : string) : bool :=
  match s with
  | EmptyString => true
  | String _ _ => false
  end.

(** [s.startswith(p)] together with what follows the prefix. *)
Fixpoint strip_prefix (p s : string) : option string :=
  match p with
  | EmptyString => Some s
  | String c p' =>
      match s with
      | EmptyString => None
      | String d s' => if Ascii.eqb c d then strip_prefix p' s' else None
      end
  end.

(** [sub in s] *)
Fixpoint contains (sub s : string) : bool :=
  match strip_prefix sub s with
  | Some _ => true
  | None =>
      match s with
      | EmptyString => false
      | String _ s' => contains sub s'
      end
  end.

(** The longest prefix of characters in class [p], and the rest. *)
Fixpoint span (p : ascii -> bool) (s : string) : string * string :=
  match s with
  | EmptyString => (EmptyString, EmptyString)
  | String c s' =>
      if p c then let '(run, rest) := span p s' in (String c run, rest)
      else (EmptyString, s)
  end.

Fixpoint drop_while (p : ascii -> bool) (s : string) : string :=
  match s with
  | EmptyString => EmptyString
  | String c s' => if p c then drop_while p s' else s
  end.

Fixpoint rev_append (s acc : string) : string :=
  match s with
  | EmptyString => acc
  | String c s' => rev_append s' (String c acc)
  end.

Definition rev (s : string) : string := rev_append s EmptyString.

(** [s.strip(chars)] for the characters of class [p]. *)
Definition strip_class (p : ascii -> bool) (s : string) : string :=
  rev (drop_while p (rev (drop_while p s))).

(** [s.strip()] *)
Definition strip (s : string) : string := strip_class is_space s.

(** [s.split(sep)] for a non-empty separator: [cur] is the piece being read,
    reversed; [skip] counts the characters of a separator still to pass. *)
Fixpoint split_go (sep : string) (skip : nat) (cur : string) (s : string)
  : list string :=
  match s with
  | EmptyString => [rev cur]
  | String c s' =>
      match skip with
      | S k => split_go sep k cur s'
      | O =>
          match strip_prefix sep s with
          | Some _ => rev cur :: split_go sep (String.length sep - 1) EmptyString s'
          | None => split_go sep 0 (String c cur) s'
          end
      end
  end.

Definition split (sep s : string) : list string :=
  split_go sep 0 EmptyString s.

(** [s.split()]: the maximal runs of non-space characters. *)
Fixpoint split_ws_go (cur : string) (s : string) : list string :=
  match s with
  | EmptyString => if is_empty cur then [] else [rev cur]
  | String c s' =>
      if is_space c
      then (if is_empty cur then split_ws_go EmptyString s'
            else rev cur :: split_ws_go EmptyString s')
      else split_ws_go (String c cur) s'
  end.

Definition split_ws (s : string) : list string := split_ws_go EmptyString s.

(** [sep.join(parts)] *)
Fixpoint join (sep : string) (parts : list string) : string :=
  match parts with
  | [] => EmptyString
  | [x] => x
  | x :: rest => x ++ sep ++ join sep rest
  end.

(** *** Numbers from text *)

Definition digit_value (ch : ascii) : Z := Z.of_N (code ch) - 48.

Fixpoint digits_value (acc : Z) (s : string) : Z :=
  match s with
  | EmptyString => acc
  | String c s' => digits_value (10 * acc + digit_value c) s'
  end.

(** An optional sign, and the rest. *)
Definition read_sign (s : string) : bool * string :=
  match s with
  | String "-" s' => (true, s')
  | String "+" s' => (false, s')
  | _ => (false, s)
  end.

(** [sys.int_info.default_max_str_digits]: the longest run of digits that
    [int] converts (CPython 3.11 and later, and the security releases of
    3.7 to 3.10); the scripts leave the limit as it is. *)
Definition max_str_digits : Z := 4300.

(** [int(s)] on a string: surrounding space, a sign, decimal digits, no more
    of them than the limit; anything else is a [ValueError].
    (Underscores between digits, which [int] also accepts, are left out.) *)
Definition py_int (s : string) : result Z :=
  let '(neg, body) := read_sign (strip s) in
  let '(ds, rest) := span is_digit body in
  if is_empty ds || negb (is_empty rest) then Raise ValueError
  else if (max_str_digits <? Z.of_nat (String.length ds))%Z then Raise ValueError
  else Ok (if neg then - digits_value 0 ds else digits_value 0 ds).

(** The exponent part of a float literal: nothing, or [e], a sign, digits. *)
Definition read_exponent (s : string) : option Z :=
  match s with
  | EmptyString => Some 0
  | String c s' =>
      if Ascii.eqb c "e" || Ascii.eqb c "E" then
        let '(neg, body) := read_sign s' in
        let '(ds, rest) := span is_digit body in
        if is_empty ds || negb (is_empty rest) then None
        else Some (if neg then - digits_value 0 ds else digits_value 0 ds)
      else None
  end.

(** [float(s)] on a string, read exactly: surrounding space, a sign, digits
    with at most one point and at least one digit, an exponent.  The value is
    the rational the text denotes, not the double nearest to it: a text too
    small for a double is not 0.0 here, and one too large is not infinity.
    The spellings of infinity and NaN, and underscores between digits, which
    [float] accepts, are a [ValueError] here. *)
Definition py_float (s : string) : result Q :=
  let '(neg, body) := read_sign (strip s) in
  let '(int_part, rest) := span is_digit body in
  let '(frac_part, rest) :=
    match rest with
    | String "." rest' => span is_digit rest'
    | _ => (EmptyString, rest)
    end in
  if is_empty int_part && is_empty frac_part then Raise ValueError
  else
    match read_exponent rest with
    | None => Raise ValueError
    | Some e =>
        let mantissa := digits_value 0 (int_part ++ frac_part) in
        let scale := (e - Z.of_nat (String.length frac_part))%Z in
        let q := (inject_Z mantissa * Qpower (10 # 1) scale)%Q in
        Ok (if neg then Qopp q else q)
    end.

End PyStr.

(** ** 1_basic_cpu_profiling.py *)

Module BasicCpu.

(** [fibonacci_recursive]: [if n <= 1: return n], else the two recursive calls.
    Every call takes a frame of the interpreter's stack: [depth] is the
    number of nested calls the recursion limit still allows, and a call
    beyond it is a [RecursionError] ([sys.getrecursionlimit()] is 1000 unless
    it is raised, which this program does not do). *)
Fixpoint fibonacci_recursive (depth : nat) (n : Z) : result Z :=
  match depth with
  | O => Raise (UserError "RecursionError")
  | S d =>
      if n <=? 1 then Ok n
      else
        a ← fibonacci_recursive d (n - 1);
        b ← fibonacci_recursive d (n - 2);
        Ok (a + b)
  end.

(** One turn of the loop body [a, b = b, a + b]. *)
Definition fib_step (ab : Z * Z) : Z * Z := (snd ab, fst ab + snd ab).

(** [for _ in range(2, n + 1)] runs [n - 1] times when [n >= 2]. *)
Definition fibonacci_iterative (n : Z) : Z :=
  if n <=? 1 then n
  else snd (Nat.iter (Z.to_nat (n + 1 - 2)) fib_step (0, 1)).

(** The Fibonacci numbers of the specification: F(0)=0, F(1)=1,
    F(n)=F(n-1)+F(n-2). *)
Fixpoint F (n : nat) : Z :=
  match n with
  | O => 0
  | S m => match m with
           | O => 1
           | S k => F m + F k
           end
  end.

(** [int(math.sqrt(limit))]: the integer part of the square root; a negative
    argument is a math domain error. *)
Definition int_math_sqrt (x : Z) : result Z :=
  if x <? 0 then Raise ValueError else Ok (Z.sqrt x).

(** [prime_sieve]: the sieve is a list of booleans updated in place. *)
Definition prime_sieve (limit : Z) : result (list Z) :=
  let sieve := replicate (Z.to_nat (limit + 1)) true in
  sieve ← setitem sieve 0 false;
  sieve ← setitem sieve 1 false;
  r ← int_math_sqrt limit;
  sieve ← for_each (py_range 2 (r + 1) 1)
            (fun i sieve =>
               marked ← getitem sieve i;
               if (marked : bool)
               then for_each (py_range (i * i) (limit + 1) i)
                      (fun j sieve => setitem sieve j false) sieve
               else Ok sieve)
            sieve;
  comprehension (py_range 2 (limit + 1) 1) (fun i => getitem sieve i).

End BasicCpu.

(** ** 2_matrix_operations.py *)

Module MatrixOps.

#[local] Open Scope Q_scope.

(** A matrix is a list of rows, [List[List[float]]]. *)
Abbreviation matrix := (list (list Q)).

(** [len(m), len(m[0])]; [m[0]] raises [IndexError] on an empty list. *)
Definition dims (m : matrix) : result (Z * Z) :=
  row0 ← getitem m 0%Z;
  Ok (Z.of_nat (length m), Z.of_nat (length row0)).

(** The builtin [sum]: the items are added from the left, starting at 0. *)
Definition py_sum (xs : list Q) : Q := fold_left Qplus xs 0.

(** [result[i][j] = v]: the row object [result[i]] is updated in place. *)
Definition setcell (res : matrix) (i j : Z) (v : Q) : result matrix :=
  row ← getitem res i;
  row' ← setitem row j v;
  setitem res i row'.

Definition naive_matrix_multiply (a b : matrix) : result matrix :=
  '(rows_a, cols_a) ← dims a;
  '(rows_b, cols_b) ← dims b;
  if negb (cols_a =? rows_b)%Z then Raise ValueError
  else
    let res := replicate (Z.to_nat rows_a) (replicate (Z.to_nat cols_b) 0) in
    for_each (py_range 0 rows_a 1)
      (fun i res =>
         for_each (py_range 0 cols_b 1)
           (fun j res =>
              for_each (py_range 0 cols_a 1)
                (fun k res =>
                   (* result[i][j] += a[i][k] * b[k][j] *)
                   row ← getitem res i;
                   old ← getitem row j;
                   ai ← getitem a i;
                   aik ← getitem ai k;
                   bk ← getitem b k;
                   bkj ← getitem bk j;
                   row' ← setitem row j (old + aik * bkj);
                   setitem res i row')
                res)
           res)
      res.

Definition optimized_matrix_multiply (a b : matrix) : result matrix :=
  '(rows_a, cols_a) ← dims a;
  '(rows_b, cols_b) ← dims b;
  if negb (cols_a =? rows_b)%Z then Raise ValueError
  else
    b_transposed ←
      map_result
        (fun i => map_result (fun j => bj ← getitem b j; getitem bj i)
                    (py_range 0 rows_b 1))
        (py_range 0 cols_b 1);
    let res := replicate (Z.to_nat rows_a) (replicate (Z.to_nat cols_b) 0) in
    for_each (py_range 0 rows_a 1)
      (fun i res =>
         for_each (py_range 0 cols_b 1)
           (fun j res =>
              terms ←
                map_result
                  (fun k =>
                     ai ← getitem a i;
                     aik ← getitem ai k;
                     btj ← getitem (b_transposed : matrix) j;
                     btjk ← getitem btj k;
                     Ok (aik * btjk))
                  (py_range 0 cols_a 1);
              setcell res i j (py_sum terms))
           res)
      res.

(** A matrix of [r] rows that all have [c] items. *)
Definition rectangular (m : matrix) (r c : nat) : Prop :=
  length m = r /\ Forall (fun row => length row = c) m.

End MatrixOps.

(** ** Python numbers *)

(** The truth value of a duration: [None] and [0.0] are false. *)
Definition truthy (d : option Q) : bool :=
  match d with
  | None => false
  | Some q => negb (Qeq_bool q 0)
  end.

(** [x / y] on two durations: [None] is not a number, and dividing by zero
    raises. *)
Definition truediv (x y : option Q) : result Q :=
  match x, y with
  | Some a, Some b =>
      if Qeq_bool b 0 then Raise ZeroDivisionError else Ok (a / b)%Q
  | _, _ => Raise TypeError
  end.

(** ** Files *)

(** A path is the list of its components; [dir / name] appends one.  The file
    system maps the paths of the existing files to their text. *)
Abbreviation path := (list string).
Abbreviation filesystem := (gmap (list string) string).

(** [try: c  except ValueError: handler] *)
Definition try_except_ValueError {A : Type} (c handler : result A) : result A :=
  match c with
  | Raise ValueError => handler
  | _ => c
  end.

(** ** scripts/compare_results.py *)

Module CompareResults.
Import PyStr.

#[local] Open Scope string_scope.

(** The dictionary built by [parse_stats_file]; its six keys are fixed. *)
Record stats : Type := mk_stats {
  duration : option Q;
  cpu_samples : Z;
  context_switches : Z;
  top_functions : list (string * Q);
  os_runtime_events : Z;
  nvtx_events : Z
}.

Definition initial_stats : stats :=
  {| duration := None; cpu_samples := 0; context_switches := 0;
     top_functions := []; os_runtime_events := 0; nvtx_events := 0 |}.

Definition set_duration (st : stats) (d : Q) : stats :=
  {| duration := Some d; cpu_samples := cpu_samples st;
     context_switches := context_switches st;
     top_functions := top_functions st;
     os_runtime_events := os_runtime_events st; nvtx_events := nvtx_events st |}.

Definition set_cpu_samples (st : stats) (n : Z) : stats :=
  {| duration := duration st; cpu_samples := n;
     context_switches := context_switches st;
     top_functions := top_functions st;
     os_runtime_events := os_runtime_events st; nvtx_events := nvtx_events st |}.

Definition set_context_switches (st : stats) (n : Z) : stats :=
  {| duration := duration st; cpu_samples := cpu_samples st;
     context_switches := n;
     top_functions := top_functions st;
     os_runtime_events := os_runtime_events st; nvtx_events := nvtx_events st |}.

Definition set_top_functions (st : stats) (fns : list (string * Q)) : stats :=
  {| duration := duration st; cpu_samples := cpu_samples st;
     context_switches := context_switches st;
     top_functions := fns;
     os_runtime_events := os_runtime_events st; nvtx_events := nvtx_events st |}.

Definition newline : string := String "010" EmptyString.

(** [re.search]: the group of the leftmost position where the pattern matches. *)
Fixpoint re_search (match_at : string -> option string) (s : string)
  : option string :=
  match match_at s with
  | Some g => Some g
  | None =>
      match s with
      | EmptyString => None
      | String _ s' => re_search match_at s'
      end
  end.

(** [Duration:\s*([\d.]+)\s*seconds] at the start of [s], returning group 1.
    No repetition of the pattern can give characters back: what follows each
    one lies outside its class, so only its longest run can succeed. *)
Definition match_duration (s : string) : option string :=
  rest ← strip_prefix "Duration:" s;
  let '(g, rest) := span is_digit_or_dot (drop_while is_space rest) in
  if is_empty g then None
  else _ ← strip_prefix "seconds" (drop_while is_space rest); Some g.

(** [label\s*(\d+)] at the start of [s], returning group 1. *)
Definition match_count (label s : string) : option string :=
  rest ← strip_prefix label s;
  let '(g, _) := span is_digit (drop_while is_space rest) in
  if is_empty g then None else Some g.

(** The body of the loop over the lines of the "Top Functions" table. *)
Definition parse_function_line (line : string) (fns : list (string * Q))
  : result (list (string * Q)) :=
  if negb (is_empty (strip line)) && contains "%" line then
    let parts := split_ws line in
    if (2 <=? length parts)%nat then
      try_except_ValueError
        (p0 ← getitem parts 0;
         percentage ← py_float (strip_class (Ascii.eqb "%") p0);
         let function := join " " (drop 1 parts) in
         Ok (fns ++ [(function, percentage)])%list)
        (Ok fns)
    else Ok fns
  else Ok fns.

Definition parse_stats_file (fs : filesystem) (filepath : path) : result stats :=
  let st := initial_stats in
  match fs !! filepath with
  | None => Ok st
  | Some content =>
      st ← match re_search match_duration content with
           | Some g => d ← py_float g; Ok (set_duration st d)
           | None => Ok st
           end;
      st ← match re_search (match_count "Total samples:") content with
           | Some g => n ← py_int g; Ok (set_cpu_samples st n)
           | None => Ok st
           end;
      st ← match re_search (match_count "Context switches:") content with
           | Some g => n ← py_int g; Ok (set_context_switches st n)
           | None => Ok st
           end;
      if contains "Top Functions" content then
        after ← getitem (split "Top Functions" content) 1;
        func_section ← getitem (split (newline ++ newline) after) 0;
        fns ← for_each (drop 2 (split newline func_section))
                parse_function_line (top_functions st);
        Ok (set_top_functions st fns)
      else Ok st
  end.

(** One entry of the dictionary built by [compare_implementations]. *)
Record comparison : Type := mk_comparison {
  python : stats;
  cpp : stats;
  speedup : Q
}.

Definition example_pairs : list (string * string * string) :=
  [("py_1_basic_cpu", "cpp_1_basic_cpu", "Basic CPU Profiling");
   ("py_2_matrix_ops", "cpp_2_matrix_ops", "Matrix Operations");
   ("py_3_multiprocessing", "cpp_3_multithreading", "Parallel Processing");
   ("py_4_nvtx", "cpp_4_nvtx", "NVTX Annotations");
   ("py_5_io_bound", "cpp_5_memory", "Memory/IO Intensive")].

Definition stats_file (results_dir : path) (name : string) : path :=
  (results_dir ++ [(name ++ "_stats.txt")%string])%list.

Definition compare_pair (fs : filesystem) (results_dir : path)
    (pair : string * string * string) (comparisons : gmap string comparison)
  : result (gmap string comparison) :=
  let '(py_name, cpp_name, display_name) := pair in
  py_stats ← parse_stats_file fs (stats_file results_dir py_name);
  cpp_stats ← parse_stats_file fs (stats_file results_dir cpp_name);
  if truthy (duration py_stats) && truthy (duration cpp_stats) then
    ratio ← truediv (duration py_stats) (duration cpp_stats);
    Ok (<[display_name :=
            {| python := py_stats; cpp := cpp_stats; speedup := ratio |}]>
          comparisons)
  else Ok comparisons.

Definition compare_implementations (fs : filesystem) (results_dir : path)
  : result (gmap string comparison) :=
  for_each example_pairs (compare_pair fs results_dir) ∅.

End CompareResults.

(** ** scripts/generate_visual_report.py *)

Module VisualReport.
Import PyStr.

#[local] Open Scope string_scope.

(** The two attributes of a [Path] that [extract_stats] reads:
    [str(profile_path)] and [profile_path.stem]. *)
Record profile_path : Type := mk_profile_path {
  path_str : string;
  stem : string
}.

(** The dictionary built by [extract_stats]. *)
Record profile_stats : Type := mk_profile_stats {
  name : string;
  duration : option Q;
  cpu_utilization : option Q;
  top_functions : list (string * Q);
  context_switches : Z;
  samples : Z
}.

Definition initial_stats (p : profile_path) : profile_stats :=
  {| name := stem p; duration := None; cpu_utilization := None;
     top_functions := []; context_switches := 0; samples := 0 |}.

Definition set_duration (st : profile_stats) (d : Q) : profile_stats :=
  {| name := name st; duration := Some d;
     cpu_utilization := cpu_utilization st; top_functions := top_functions st;
     context_switches := context_switches st; samples := samples st |}.

Definition add_function (st : profile_stats) (fn : string * Q) : profile_stats :=
  {| name := name st; duration := duration st;
     cpu_utilization := cpu_utilization st;
     top_functions := (top_functions st ++ [fn])%list;
     context_switches := context_switches st; samples := samples st |}.

Definition set_samples (st : profile_stats) (n : Z) : profile_stats :=
  {| name := name st; duration := duration st;
     cpu_utilization := cpu_utilization st; top_functions := top_functions st;
     context_switches := context_switches st; samples := n |}.

(** What running a command comes to: the child ran and exited with a status
    and a captured standard output, or it could not be started at all. *)
Inductive run_outcome : Type :=
  | Exited (returncode : Z) (stdout : string)
  | NotStarted (e : exn).

(** [subprocess.run(cmd, capture_output=True, text=True, check=True)]:
    with [check=True] a non-zero status raises [CalledProcessError]. *)
Definition subprocess_run_check (o : run_outcome) : result string :=
  match o with
  | Exited returncode stdout =>
      if (returncode =? 0)%Z then Ok stdout else Raise CalledProcessError
  | NotStarted e => Raise e
  end.

(** What the function prints. *)
Inductive printed : Type :=
  | ErrorExtractingStats (p : profile_path) (e : exn).

(** [try: c  except: pass] around an update of the dictionary. *)
Definition try_pass (c : result profile_stats) (st : profile_stats)
  : profile_stats :=
  match c with
  | Ok st' => st'
  | Raise _ => st
  end.

Fixpoint take_while {A : Type} (p : A -> bool) (l : list A) : list A :=
  match l with
  | [] => []
  | x :: l' => if p x then x :: take_while p l' else []
  end.

(** One row of the table below a "Top Functions" heading. *)
Definition parse_row (st : profile_stats) (row : string) : profile_stats :=
  let parts := split_ws row in
  match parts with
  | p0 :: _ :: _ =>
      if contains "%" p0 then
        try_pass
          (percentage ← py_float (strip_class (Ascii.eqb "%") p0);
           let function := join " " (drop 1 parts) in
           Ok (add_function st (function, percentage)))
          st
      else st
  | _ => st
  end.

(** The body of [for i, line in enumerate(lines)]. *)
Definition parse_line (lines : list string) (st : profile_stats)
    (indexed : nat * string) : profile_stats :=
  let '(i, line) := indexed in
  let st :=
    if contains "Duration:" line then
      try_pass
        (after ← getitem (split "Duration:" line) 1;
         let duration_str := strip after in
         token ← getitem (split_ws duration_str) 0;
         d ← py_float token;
         Ok (set_duration st d))
        st
    else st in
  let st :=
    if contains "Top Functions" line || contains "CPU Functions" line then
      (* j = i + 2; while j < len(lines) and lines[j].strip(): ...; j += 1 *)
      fold_left parse_row
        (take_while (fun row => negb (is_empty (strip row))) (drop (i + 2) lines))
        st
    else st in
  if contains "Total samples:" line then
    try_pass
      (field ← getitem (split ":" line) 1;
       n ← py_int (strip field);
       Ok (set_samples st n))
      st
  else st.

Definition parse_output (stdout : string) (st : profile_stats) : profile_stats :=
  let lines := split (String "010" EmptyString) stdout in
  fold_left (parse_line lines) (imap (fun i line => (i, line)) lines) st.

(** [extract_stats]: [run] gives the outcome of a command line; the result is
    what was printed together with the returned dictionary or the exception
    that escapes.  Only [CalledProcessError] is handled. *)
Definition extract_stats (run : list string -> run_outcome) (p : profile_path)
  : list printed * result profile_stats :=
  let st := initial_stats p in
  match subprocess_run_check (run ["nsys"; "stats"; path_str p]) with
  | Ok stdout => ([], Ok (parse_output stdout st))
  | Raise CalledProcessError =>
      ([ErrorExtractingStats p CalledProcessError], Ok st)
  | Raise e => ([], Raise e)
  end.

(** The two profiles grouped under one base name in
    [create_performance_matrix]. *)
Record langs : Type := mk_langs {
  lang_python : option profile_stats;
  lang_cpp : option profile_stats
}.

(** One row of the comparison table. *)
Record matrix_row : Type := mk_matrix_row {
  row_test : string;
  row_python_s : Q;
  row_cpp_s : Q;
  row_speedup : Q
}.

(** The body of the loop "Create comparison data" of
    [create_performance_matrix]. *)
Definition add_comparison_row (item : string * langs)
    (comparisons : list matrix_row) : result (list matrix_row) :=
  let '(test_name, l) := item in
  match lang_python l, lang_cpp l with
  | Some py, Some cp =>
      let py_duration := duration py in
      let cpp_duration := duration cp in
      if truthy py_duration && truthy cpp_duration then
        speedup ← truediv py_duration cpp_duration;
        Ok (comparisons ++
              [{| row_test := test_name;
                  row_python_s := default 0%Q py_duration;
                  row_cpp_s := default 0%Q cpp_duration;
                  row_speedup := speedup |}])%list
      else Ok comparisons
  | _, _ => Ok comparisons
  end.

Definition comparison_rows (profile_types : list (string * langs))
  : result (list matrix_row) :=
  for_each profile_types add_comparison_row [].

End VisualReport.

(** ** 4_nvtx_annotations.py *)

Module Nvtx.

#[local] Open Scope string_scope.

Section Objects.

(** The user functions that get decorated are values of [Fn]. *)
Variable Fn : Type.

(** The objects that reach [nvtx.annotate] and come out of it in the examples:
    [None], strings, user functions, and the inner function [decorator] that
    [DummyNVTX.annotate] defines. *)
Inductive obj : Type :=
  | ONone
  | OStr (s : string)
  | OFunction (f : Fn)
  | ODecorator.

(** [callable(o)] *)
Definition callable (o : obj) : bool :=
  match o with
  | OFunction _ | ODecorator => true
  | ONone | OStr _ => false
  end.

(** [DummyNVTX.annotate(message=None, color=None, domain=None)] *)
Definition annotate (message color domain : obj) : obj :=
  let decorator := ODecorator in
  if callable message then message else decorator.

(** Calling the inner function: [def decorator(func): return func].
    (User functions are never called with a function as argument here.) *)
Definition call_decorator (d func : obj) : result obj :=
  match d with
  | ODecorator => Ok func
  | OFunction _ => Raise (UserError "not a decorator")
  | ONone | OStr _ => Raise TypeError
  end.

(** [@nvtx.annotate] directly above a [def]: the name is bound to
    [annotate(func)]. *)
Definition decorate_bare (f : Fn) : result obj :=
  Ok (annotate (OFunction f) ONone ONone).

(** [@nvtx.annotate(message, color=color)] above a [def]: the name is bound to
    [annotate(message, color)(func)]. *)
Definition decorate_with (message color : string) (f : Fn) : result obj :=
  call_decorator (annotate (OStr message) (OStr color) ONone) (OFunction f).

(** Whether the type of an object defines [__enter__] and [__exit__]: neither
    [NoneType], [str] nor [function] does. *)
Definition context_manager (o : obj) : bool :=
  match o with
  | ONone | OStr _ | OFunction _ | ODecorator => false
  end.

(** [with mgr: body]: an object outside the context manager protocol makes
    the statement raise [TypeError] before the body runs. *)
Definition with_statement {A : Type} (mgr : obj) (body : result A) : result A :=
  if context_manager mgr then body else Raise TypeError.

(** [DummyNVTX.push_range] and [DummyNVTX.pop_range]: [pass], on any state. *)
Definition push_range {W : Type} (message color domain : obj) (w : W) : obj * W :=
  (ONone, w).

Definition pop_range {W : Type} (w : W) : obj * W := (ONone, w).

(** The array computations of [DataPipeline.transform_batch] are numpy's. *)
Variable ndarray : Type.
Variables (fft : ndarray -> ndarray) (half_real : ndarray -> ndarray)
          (ifft_real : ndarray -> ndarray).

(** The body of [DataPipeline.transform_batch] with the dummy [nvtx]. *)
Definition transform_batch (data : ndarray) : result ndarray :=
  fft_data ← with_statement (annotate (OStr "FFT") (OStr "yellow") ONone)
               (Ok (fft data));
  filtered ← with_statement (annotate (OStr "Filter") (OStr "blue") ONone)
               (Ok (half_real fft_data));
  res ← with_statement (annotate (OStr "Inverse_FFT") (OStr "cyan") ONone)
          (Ok (ifft_real filtered));
  Ok res.

(** The same body with the annotations taken out. *)
Definition transform_batch_plain (data : ndarray) : result ndarray :=
  Ok (ifft_real (half_real (fft data))).

End Objects.

Arguments ONone {Fn}.
Arguments OStr {Fn} s.
Arguments OFunction {Fn} f.
Arguments ODecorator {Fn}.

End Nvtx.

(** ** 5_io_bound_example.py *)

Module IOBound.

Section Profiler.

(** Everything a measured function can touch besides the profiler itself. *)
Variable Env : Type.

(** The state the method runs in: the clock read by [time.time()], the
    profiler's [results] dictionary, the lines printed so far, and the rest. *)
Record world : Type := mk_world {
  env : Env;
  now : Q;
  results : gmap string Q;
  output : list (string * Q)
}.

Definition set_result (w : world) (name : string) (elapsed : Q) : world :=
  {| env := env w; now := now w;
     results := <[name := elapsed]> (results w); output := output w |}.

(** [print(f"   {name}: {elapsed:.3f}s")] *)
Definition print_timing (w : world) (name : string) (elapsed : Q) : world :=
  {| env := env w; now := now w; results := results w;
     output := (output w ++ [(name, elapsed)])%list |}.

Variables Args V : Type.

(** [IOProfiler.measure]: [func] acts on the whole state and returns a value
    or raises. *)
Definition measure (name : string) (func : Args -> world -> result V * world)
    (args : Args) (w : world) : result V * world :=
  let start := now w in
  let '(r, w1) := func args w in
  match r with
  | Raise e => (Raise e, w1)
  | Ok res =>
      let elapsed := (now w1 - start)%Q in
      let w2 := set_result w1 name elapsed in
      let w3 := print_timing w2 name elapsed in
      (Ok res, w3)
  end.

End Profiler.

Arguments env {Env} w.
Arguments now {Env} w.
Arguments results {Env} w.
Arguments output {Env} w.
Arguments mk_world {Env} env now results output.

End IOBound.

(** ** 2_matrix_operations.py, continued *)

Module MatrixConv.
Import MatrixOps.

#[local] Open Scope Q_scope.

(** [matrix_convolution]: the four nested loops over the output cell and the
    kernel cell; a non-positive output dimension gives empty ranges. *)
Definition matrix_convolution (mat kernel : matrix) : result matrix :=
  '(m_rows, m_cols) ← dims mat;
  '(k_rows, k_cols) ← dims kernel;
  let out_rows := (m_rows - k_rows + 1)%Z in
  let out_cols := (m_cols - k_cols + 1)%Z in
  let res := replicate (Z.to_nat out_rows) (replicate (Z.to_nat out_cols) 0) in
  for_each (py_range 0 out_rows 1)
    (fun i res =>
       for_each (py_range 0 out_cols 1)
         (fun j res =>
            for_each (py_range 0 k_rows 1)
              (fun ki res =>
                 for_each (py_range 0 k_cols 1)
                   (fun kj res =>
                      (* result[i][j] += matrix[i + ki][j + kj] * kernel[ki][kj] *)
                      row ← getitem res i;
                      old ← getitem row j;
                      mrow ← getitem mat (i + ki)%Z;
                      mv ← getitem mrow (j + kj)%Z;
                      krow ← getitem kernel ki;
                      kv ← getitem krow kj;
                      row' ← setitem row j (old + mv * kv);
                      setitem res i row')
                   res)
              res)
         res)
    res.

End MatrixConv.

(** ** 1_basic_cpu_profiling.py, continued *)

Module BasicCpuStrings.
Import PyStr.

#[local] Open Scope string_scope.

(** [str(n)] for an int: the decimal digits, with a minus sign if negative. *)
Definition py_str_int (n : Z) : string := NilZero.string_of_int (Z.to_int n).

(** [s * n] for a string: [n] copies, none if [n] is not positive. *)
Definition py_repeat (s : string) (n : Z) : string :=
  Nat.iter (Z.to_nat n) (fun acc => s ++ acc) EmptyString.

Definition map_chars (f : ascii -> ascii) : string -> string :=
  fix go (s : string) : string :=
    match s with
    | EmptyString => EmptyString
    | String c s' => String (f c) (go s')
    end.

(** [str.upper] and [str.lower] on ASCII text: the letters change case, every
    other character stays.  (Outside ASCII the methods do more; the strings
    built here are ASCII.) *)
Definition upper_char (c : ascii) : ascii :=
  let n := code c in
  if ((97 <=? n) && (n <=? 122))%N then ascii_of_N (n - 32) else c.

Definition lower_char (c : ascii) : ascii :=
  let n := code c in
  if ((65 <=? n) && (n <=? 90))%N then ascii_of_N (n + 32) else c.

Definition upper : string -> string := map_chars upper_char.
Definition lower : string -> string := map_chars lower_char.

(** [s.replace(old, new)] for a non-empty [old]: the pieces between the
    occurrences of [old], joined by [new]. *)
Definition replace (old new s : string) : string := join new (split old s).

(** [len(s)] *)
Definition py_len (s : string) : Z := Z.of_nat (String.length s).

(** [string_operations]: the loop that builds [strings], the concatenation of
    its first hundred items, and the length of the result. *)
Definition string_operations (size : Z) : Z :=
  let strings :=
    fold_left
      (fun strings i =>
         let s := py_repeat ("String number " ++ py_str_int i) 10 in
         (strings ++ [replace " " "_" (lower (upper s))])%list)
      (py_range 0 size 1) [] in
  let result :=
    fold_left (fun result s => result ++ s) (take 100 strings) EmptyString in
  py_len result.

End BasicCpuStrings.

(** ** scripts/generate_visual_report.py, continued *)

Module VisualReportMore.
Import PyStr VisualReport.

#[local] Open Scope string_scope.

(** What [generate_report] prints while it collects the statistics. *)
Inductive report_line : Type :=
  | Analyzing (p : profile_path)
  | FromExtract (line : printed).

(** The loop "Extract stats from all profiles" of [generate_report]: a profile
    is kept when its duration is not [None]; an exception of [extract_stats]
    ends the loop. *)
Fixpoint analyze_profiles (run : list string -> run_outcome)
    (profiles : list profile_path) (log : list report_line)
    (profiles_data : list profile_stats)
  : list report_line * result (list profile_stats) :=
  match profiles with
  | [] => (log, Ok profiles_data)
  | profile :: rest =>
      let log := (log ++ [Analyzing profile])%list in
      let '(out, r) := extract_stats run profile in
      let log := (log ++ (FromExtract <$> out))%list in
      match r with
      | Raise e => (log, Raise e)
      | Ok stats =>
          analyze_profiles run rest log
            (if duration stats is Some _
             then (profiles_data ++ [stats])%list else profiles_data)
      end
  end.

(** [l[:n]] on a list: the first [n] items, or all but the last [-n]. *)
Definition slice_to {A : Type} (n : Z) (l : list A) : list A :=
  if (0 <=? n)%Z then take (Z.to_nat n) l
  else take (length l - Z.to_nat (- n)) l.

(** [s[:n]] on a string, for a non-negative [n]. *)
Definition str_take (n : nat) (s : string) : string := substring 0 n s.

(** The label of a function in the hot functions chart:
    [f[0][:50] + '...' if len(f[0]) > 50 else f[0]]. *)
Definition chart_label (fname : string) : string :=
  if (50 <? String.length fname)%nat then str_take 50 fname ++ "..." else fname.

(** The data [create_hot_functions_chart] hands to the plotting library:
    nothing when plotting is unavailable or there are no functions, else the
    labels and percentages of the first [top_n] functions. *)
Definition hot_functions_data (available : bool) (profile_data : profile_stats)
    (top_n : Z) : option (list string * list Q) :=
  if negb available || bool_decide (top_functions profile_data = []) then None
  else
    let functions := slice_to top_n (top_functions profile_data) in
    if bool_decide (functions = []) then None
    else Some (chart_label <$> (fst <$> functions), snd <$> functions).

End VisualReportMore.

(** ** 4_nvtx_annotations.py, continued *)

Module NvtxRanges.

Section Ranges.

(** The rest of the state: random generator, wall clock for [sleep], ... *)
Variable Env : Type.

(** The calls made to [nvtx] and the timing lines printed, in order. *)
Inductive event : Type :=
  | PushRange (message color : string)
  | PopRange
  | PrintTiming (name : string) (elapsed : Q).

Record world : Type := mk_world {
  env : Env;
  now : Q;
  events : list event
}.

Definition emit (w : world) (e : event) : world :=
  {| env := env w; now := now w; events := (events w ++ [e])%list |}.

Variables Args V : Type.

(** [name or func.__name__]: [None] and the empty string are false. *)
Definition name_or (name : option string) (func_name : string) : string :=
  match name with
  | Some s => if PyStr.is_empty s then func_name else s
  | None => func_name
  end.

(** The [wrapper] that [profile_function(name, color)(func)] returns; the
    [finally] block runs whether [func] returns or raises. *)
Definition profile_function (name : option string) (color : string)
    (func_name : string) (func : Args -> world -> result V * world)
    (args : Args) (w : world) : result V * world :=
  let fname := name_or name func_name in
  let w := emit w (PushRange fname color) in
  let start := now w in
  let '(r, w1) := func args w in
  let elapsed := (now w1 - start)%Q in
  let w2 := emit w1 PopRange in
  let w3 := emit w2 (PrintTiming fname elapsed) in
  (r, w3).

(** The number of ranges open after a sequence of events, starting from
    [depth]; [None] if a range is popped that was never pushed. *)
Fixpoint open_ranges (depth : nat) (evs : list event) : option nat :=
  match evs with
  | [] => Some depth
  | PushRange _ _ :: evs' => open_ranges (S depth) evs'
  | PopRange :: evs' =>
      match depth with
      | O => None
      | S d => open_ranges d evs'
      end
  | PrintTiming _ _ :: evs' => open_ranges depth evs'
  end.

End Ranges.

Arguments env {Env} w.
Arguments now {Env} w.
Arguments events {Env} w.
Arguments mk_world {Env} env now events.
Arguments emit {Env} w e.

Section Training.

(** The arrays and the numpy computations of [train_model], for a
    two-dimensional [data] on which they succeed. *)
Variables (ndarray : Type) (Env : Type).
Variable init_weights : ndarray -> Env -> ndarray * Env.
Variable predict : ndarray -> ndarray -> ndarray.
Variable descend : ndarray -> ndarray -> ndarray -> ndarray.

(** [f"Epoch_{epoch}"] *)
Definition epoch_name (epoch : Z) : string :=
  ("Epoch_" ++ BasicCpuStrings.py_str_int epoch)%string.

(** One turn of the loop over the epochs. *)
Definition train_epoch (data : ndarray) (st : ndarray * world Env) (epoch : Z)
  : ndarray * world Env :=
  let '(weights, w) := st in
  let w := emit w (PushRange (epoch_name epoch) "orange") in
  let w := emit w (PushRange "Forward" "cyan") in
  let predictions := predict data weights in
  let w := emit w PopRange in
  let w := emit w (PushRange "Backward" "magenta") in
  let weights := descend data predictions weights in
  let w := emit w PopRange in
  let w := emit w PopRange in
  (weights, w).

(** The undecorated body of [train_model]. *)
Definition train_model_body (args : ndarray * Z) (w : world Env)
  : result ndarray * world Env :=
  let '(data, epochs) := args in
  let '(weights, e) := init_weights data (env w) in
  let w := {| env := e; now := now w; events := events w |} in
  let '(weights, w) :=
    fold_left (train_epoch data) (py_range 0 epochs 1) (weights, w) in
  (Ok weights, w).

(** [train_model] as decorated:
    [@profile_function("ModelTraining", color="purple")]. *)
Definition train_model (data : ndarray) (epochs : Z) (w : world Env)
  : result ndarray * world Env :=
  profile_function Env (ndarray * Z) ndarray (Some "ModelTraining"%string)
    "purple" "train_model" train_model_body (data, epochs) w.

End Training.

Section Pipeline.

Variables (ndarray : Type) (Env : Type).

(** [time.sleep(0.05)] and [np.random.randn(batch_size, 50)] act on the
    environment. *)
Variable sleep : Env -> Env.
Variable randn : Z -> Z -> Env -> ndarray * Env.

(** A [DataPipeline] object. *)
Record pipeline : Type := mk_pipeline {
  batch_size : Z;
  data_cache : gmap Z ndarray
}.

(** [DataPipeline.load_batch]; the decorator is the identity on results. *)
Definition load_batch (self : pipeline) (batch_id : Z) (e : Env)
  : ndarray * pipeline * Env :=
  match data_cache self !! batch_id with
  | Some data => (data, self, e)
  | None =>
      let e := sleep e in
      let '(data, e) := randn (batch_size self) 50 e in
      (data,
       {| batch_size := batch_size self;
          data_cache := <[batch_id := data]> (data_cache self) |},
       e)
  end.

End Pipeline.

Arguments batch_size {ndarray} p.
Arguments data_cache {ndarray} p.
Arguments mk_pipeline {ndarray} batch_size data_cache.

End NvtxRanges.

(** ** 4_nvtx_annotations.py: the sorting benchmarks *)

Module NvtxSorting.
Import NvtxRanges.

#[local] Open Scope string_scope.

(** [x > y] and [x < y] on floats. *)
Definition gt (x y : Q) : bool := negb (Qle_bool x y).
Definition lt (x y : Q) : bool := negb (Qle_bool y x).

(** [arr[i], arr[j] = arr[j], arr[i]]: the right-hand side is read first,
    then the two items are stored from left to right. *)
Definition swap (arr : list Q) (i j : Z) : result (list Q) :=
  a ← getitem arr j;
  b ← getitem arr i;
  arr ← setitem arr i a;
  setitem arr j b.

(** The body of the inner loop of [bubble_sort]. *)
Definition bubble_step (j : Z) (arr : list Q) : result (list Q) :=
  x ← getitem arr j;
  y ← getitem arr (j + 1);
  if gt x y then swap arr j (j + 1) else Ok arr.

(** The body of [bubble_sort]: the array (a copy of the argument) and the
    events sent to [nvtx], one progress range around every thousandth pass. *)
Definition bubble_sort (arr : list Q) (evs : list event)
  : result (list Q * list event) :=
  let n := Z.of_nat (length arr) in
  for_each (py_range 0 n 1)
    (fun i '(arr, evs) =>
       let evs :=
         if (i mod 1000 =? 0)%Z
         then (evs ++ [PushRange ("BubbleSort_Progress_" ++
                                  BasicCpuStrings.py_str_int (i / 1000))
                         "yellow"])%list
         else evs in
       arr ← for_each (py_range 0 (n - i - 1) 1) bubble_step arr;
       let evs := if (i mod 1000 =? 0)%Z then (evs ++ [PopRange])%list else evs in
       Ok (arr, evs))
    (arr, evs).

(** The body of the loop of [partition]; [i] is the position of the last
    item found to be smaller than the pivot. *)
Definition partition_step (pivot : Q) (j : Z) (st : list Q * Z)
  : result (list Q * Z) :=
  let '(arr, i) := st in
  x ← getitem arr j;
  if lt x pivot then
    let i := (i + 1)%Z in
    arr ← swap arr i j;
    Ok (arr, i)
  else Ok (arr, i).

(** [partition(arr, low, high)]: the array after the exchanges, and the
    position of the pivot. *)
Definition partition (arr : list Q) (low high : Z) : result (list Q * Z) :=
  pivot ← getitem arr high;
  let i := (low - 1)%Z in
  '(arr, i) ← for_each (py_range low high 1) (partition_step pivot) (arr, i);
  arr ← swap arr (i + 1) high;
  Ok (arr, (i + 1)%Z).

(** [_quick_sort(arr, low, high)]; [depth] is the number of nested calls
    the interpreter's recursion limit still allows, and a call beyond it is
    a [RecursionError]. *)
Fixpoint quick_sort_rec (depth : nat) (arr : list Q) (low high : Z)
  : result (list Q) :=
  match depth with
  | O => Raise (UserError "RecursionError")
  | S d =>
      if (low <? high)%Z then
        '(arr, pi) ← partition arr low high;
        arr ← quick_sort_rec d arr low (pi - 1);
        quick_sort_rec d arr (pi + 1) high
      else Ok arr
  end.

(** The body of [quick_sort(arr)], on a copy of the argument, with room for
    [depth] nested calls of [_quick_sort]. *)
Definition quick_sort (depth : nat) (arr : list Q) : result (list Q) :=
  quick_sort_rec depth arr 0 (Z.of_nat (length arr) - 1).

End NvtxSorting.

(** ** 5_io_bound_example.py, continued *)

Module IOCopy.
Import IOBound.

#[local] Open Scope string_scope.

(** The binary files of the file system, by path. *)
Abbreviation binary_files := (gmap (list string) (list byte)).

(** A value with the equation that names it. *)
Definition inspect {A : Type} (a : A) : {b : A | a = b} := exist _ a eq_refl.

(** The loop [while True: chunk = src.read(n); if not chunk: break;
    dst.write(chunk)], on what is left to read and what has been written. *)
Equations? copy_chunks (n : nat) (src dst : list byte) : list byte
  by wf (length src) lt :=
  copy_chunks n src dst with inspect (take n src) := {
    | exist _ [] _ => dst
    | exist _ (b :: chunk) Hchunk =>
        copy_chunks n (drop n src) (dst ++ b :: chunk)%list
  }.
Proof.
  rewrite length_drop.
  destruct n; [discriminate|]. destruct src; [discriminate|]. cbn. lia.
Qed.

Definition test_size : nat := Z.to_nat (10 * 1024 * 1024).
Definition buffer_size : nat := Z.to_nat (1024 * 1024).

(** [unoptimized_copy]: writes the source file, then copies it a byte at a
    time.  (The temporary directory exists as long as the profiler does.) *)
Definition unoptimized_copy (temp_dir : list string) (fs : binary_files)
  : result binary_files :=
  let src_path := (temp_dir ++ ["source.dat"])%list in
  let dst_path := (temp_dir ++ ["dest_unopt.dat"])%list in
  let fs := <[src_path := replicate test_size "x"%byte]> fs in
  match fs !! src_path with
  | None => Raise FileNotFoundError
  | Some content =>
      let fs := <[dst_path := []]> fs in
      Ok (<[dst_path := copy_chunks 1 content []]> fs)
  end.

(** [optimized_copy]: copies the source file in chunks of one megabyte;
    opening a missing source raises [FileNotFoundError]. *)
Definition optimized_copy (temp_dir : list string) (fs : binary_files)
  : result binary_files :=
  let src_path := (temp_dir ++ ["source.dat"])%list in
  let dst_path := (temp_dir ++ ["dest_opt.dat"])%list in
  match fs !! src_path with
  | None => Raise FileNotFoundError
  | Some content =>
      let fs := <[dst_path := []]> fs in
      Ok (<[dst_path := copy_chunks buffer_size content []]> fs)
  end.

(** [system_copy]: [shutil.copy2] of the source file. *)
Definition system_copy (temp_dir : list string) (fs : binary_files)
  : result binary_files :=
  let src_path := (temp_dir ++ ["source.dat"])%list in
  let dst_path := (temp_dir ++ ["dest_system.dat"])%list in
  match fs !! src_path with
  | None => Raise FileNotFoundError
  | Some content => Ok (<[dst_path := content]> fs)
  end.

Section Comparison.

(** The time an operation takes on a given file system. *)
Variable cost : binary_files -> Q.

(** An operation on the files as a measured function: it acts on the files
    and lets the clock advance. *)
Definition timed (op : binary_files -> result binary_files) (_ : unit)
    (w : world binary_files) : result unit * world binary_files :=
  match op (env w) with
  | Ok fs =>
      (Ok tt,
       mk_world fs (now w + cost (env w))%Q (results w) (output w))
  | Raise e =>
      (Raise e,
       mk_world (env w) (now w + cost (env w))%Q (results w) (output w))
  end.

(** [io_optimization_comparison(profiler)]: the byte-by-byte copy is not
    run; the two others are measured.  (Of what is printed only the timing
    lines of [measure] are kept.) *)
Definition io_optimization_comparison (temp_dir : list string)
    (w : world binary_files) : result unit * world binary_files :=
  let '(r, w) :=
    measure binary_files unit unit "Optimized copy (1MB buffer)"
      (timed (optimized_copy temp_dir)) tt w in
  match r with
  | Raise e => (Raise e, w)
  | Ok _ =>
      measure binary_files unit unit "System copy (shutil)"
        (timed (system_copy temp_dir)) tt w
  end.

End Comparison.

End IOCopy.

(** ** 1_basic_cpu_profiling.py: the matrix benchmark *)

Module BasicCpuMatrix.

(** [[[f(i, j) for j in range(size)] for i in range(size)]] *)
Definition index_matrix (f : Z -> Z -> Z) (size : Z) : list (list Z) :=
  (fun i => (fun j => f i j) <$> py_range 0 size 1) <$> py_range 0 size 1.

(** [matrix_multiply_naive(size)]: the product of the matrices [i * j] and
    [i + j], accumulated in place in a matrix of zeros. *)
Definition matrix_multiply_naive (size : Z) : result (list (list Z)) :=
  let a := index_matrix (fun i j => i * j) size in
  let b := index_matrix (fun i j => i + j) size in
  let c := index_matrix (fun _ _ => 0) size in
  for_each (py_range 0 size 1)
    (fun i c =>
       for_each (py_range 0 size 1)
         (fun j c =>
            for_each (py_range 0 size 1)
              (fun k c =>
                 (* c[i][j] += a[i][k] * b[k][j] *)
                 row ← getitem c i;
                 old ← getitem row j;
                 arow ← getitem a i;
                 av ← getitem arow k;
                 brow ← getitem b k;
                 bv ← getitem brow j;
                 row' ← setitem row j (old + av * bv);
                 setitem c i row')
              c)
         c)
    c.

End BasicCpuMatrix.

(** ** 4_nvtx_annotations.py: the pipeline with the stand-in for nvtx *)

Module NvtxPipeline.
Import Nvtx NvtxRanges.

#[local] Open Scope string_scope.

Section Process.

Variables (Fn ndarray Env : Type).
Variable sleep : Env -> Env.
Variable randn : Z -> Z -> Env -> ndarray * Env.
Variables (fft half_real ifft_real : ndarray -> ndarray).

(** The loop of [DataPipeline.process_batches] when [nvtx] is [DummyNVTX]:
    what is left of the pipeline and of the environment is returned beside
    the result, also when an exception ends the loop. *)
Fixpoint process_loop (ids : list Z) (results : list ndarray)
    (self : pipeline ndarray) (e : Env)
  : result (list ndarray) * pipeline ndarray * Env :=
  match ids with
  | [] => (Ok results, self, e)
  | i :: rest =>
      let '(_, e) :=
        push_range Fn
          (OStr ("Batch_" ++ BasicCpuStrings.py_str_int i)) (OStr "orange")
          ONone e in
      let '(data, self, e) := load_batch ndarray Env sleep randn self i e in
      match transform_batch Fn ndarray fft half_real ifft_real data with
      | Raise ex => (Raise ex, self, e)
      | Ok transformed =>
          let results := (results ++ [transformed])%list in
          let '(_, e) := pop_range Fn e in
          process_loop rest results self e
      end
  end.

(** [DataPipeline.process_batches]; its decorator returns it unchanged. *)
Definition process_batches (self : pipeline ndarray) (num_batches : Z) (e : Env)
  : result (list ndarray) * pipeline ndarray * Env :=
  process_loop (py_range 0 num_batches 1) [] self e.

End Process.

End NvtxPipeline.

(** * Specification-level definitions used by the proofs *)

Module MatrixSpec.
Import MatrixOps.
#[local] Open Scope Q_scope.

(** The item at row [i], column [j], when there is one. *)
Definition cell (m : matrix) (i j : nat) : option Q :=
  row ← m !! i; row !! j.

Definition entry (m : matrix) (i j : nat) : Q := default 0 (cell m i j).

(** The partial sums [0 + a[i][0]*b[0][j] + ... + a[i][k-1]*b[k-1][j]], added
    from the left as both loops do. *)
Fixpoint dot_upto (a b : matrix) (i j k : nat) : Q :=
  match k with
  | O => 0
  | S k' => dot_upto a b i j k' + entry a i k' * entry b k' j
  end.

(** The [r] by [c] matrix with [f i j] at row [i], column [j]. *)
Definition tabulate (f : nat -> nat -> Q) (r c : nat) : matrix :=
  (fun i => f i <$> seq 0 c) <$> seq 0 r.

Definition product (a b : matrix) (r n c : nat) : matrix :=
  tabulate (fun i j => dot_upto a b i j n) r c.

(** The state of the two outer loops on reaching row [i], column [j]: the
    cells before that position hold [f], the others are still [0.0]. *)
Definition filled (r c : nat) (f : nat -> nat -> Q) (i j : nat) (res : matrix)
  : Prop :=
  rectangular res r c /\
  forall i' j', (i' < r)%nat -> (j' < c)%nat ->
    cell res i' j' =
    Some (if decide (i' < i \/ (i' = i /\ j' < j))%nat then f i' j' else 0).

(** The state of the innermost loop of the naive product before turn [k]:
    only cell [(i, j)] of [res0] has changed, to the partial sum. *)
Definition accumulating (a b res0 : matrix) (r c i j k : nat) (res : matrix)
  : Prop :=
  rectangular res r c /\
  forall i' j',
    cell res i' j' =
    if decide (i' = i /\ j' = j) then Some (dot_upto a b i j k)
    else cell res0 i' j'.

End MatrixSpec.

Module CompareSpec.
Import CompareResults.

(** The entry a pair of parsed statistics contributes, if any: both durations
    present and nonzero, and then the quotient as the speedup. *)
Definition entry_of (py_stats cpp_stats : stats) : option comparison :=
  match duration py_stats, duration cpp_stats with
  | Some dp, Some dc =>
      if negb (Qeq_bool dp 0) && negb (Qeq_bool dc 0)
      then Some {| python := py_stats; cpp := cpp_stats; speedup := (dp / dc)%Q |}
      else None
  | _, _ => None
  end.

(** Both statistics files of a pair are parsed without an exception. *)
Definition parses (fs : filesystem) (results_dir : path)
    (pair : string * string * string) : Prop :=
  (exists ps, parse_stats_file fs (stats_file results_dir pair.1.1) = Ok ps) /\
  (exists cs, parse_stats_file fs (stats_file results_dir pair.1.2) = Ok cs).

(** The exceptions of the parser are those of indexing and of conversions. *)
Definition parser_exn (e : exn) : Prop := e = ValueError \/ e = IndexError.

End CompareSpec.

Module SieveSpec.

(** [j] has survived the passes of all [d] below [k]: it is at least 2 and no
    such [d] divides it from [d * d] upwards. *)
Definition unmarked (k j : Z) : Prop :=
  2 <= j /\ forall d, 2 <= d < k -> Z.divide d j -> j < d * d.

(** The state of the sieve when the outer loop reaches [k]. *)
Definition sieve_inv (limit k : Z) (sv : list bool) : Prop :=
  length sv = Z.to_nat (limit + 1) /\
  forall j, 0 <= j <= limit ->
    exists b : bool, sv !! Z.to_nat j = Some b /\ (b = true <-> unmarked k j).

End SieveSpec.

Module Samples.
Import CompareResults VisualReport.

#[local] Open Scope string_scope.

(** A statistics file whose duration has two decimal points. *)
Definition malformed_fs : filesystem :=
  {[ ["results"; "py_1_basic_cpu_stats.txt"] := "Duration: 1.2.3 seconds" ]}.

(** The first pair has well-formed statistics; the Python file of the second
    pair has a duration with two decimal points. *)
Definition discarding_fs : filesystem :=
  {[ ["results"; "py_1_basic_cpu_stats.txt"] := "Duration: 12.5 seconds";
     ["results"; "cpp_1_basic_cpu_stats.txt"] := "Duration: 2.5 seconds";
     ["results"; "py_2_matrix_ops_stats.txt"] := "Duration: 1.2.3 seconds" ]}.

(** Statistics files for the first pair only; the other files are missing. *)
Definition sample_fs : filesystem :=
  {[ ["results"; "py_1_basic_cpu_stats.txt"] :=
       "Duration: 12.5 seconds Total samples: 1234";
     ["results"; "cpp_1_basic_cpu_stats.txt"] := "Duration: 2.5 seconds" ]}.

Definition sample_profile : profile_path :=
  {| path_str := "results/py_1_basic_cpu.nsys-rep"; stem := "py_1_basic_cpu" |}.

(** [nsys stats] exits with status 1 whatever the profile. *)
Definition failing_run (cmd : list string) : run_outcome := Exited 1 "".

(** [nsys] is not installed. *)
Definition missing_run (cmd : list string) : run_outcome :=
  NotStarted FileNotFoundError.

(** A measured function that takes two seconds and returns its argument
    doubled. *)
Definition slow_double (n : Z) (w : IOBound.world unit)
  : result Z * IOBound.world unit :=
  (Ok (2 * n),
   IOBound.mk_world (IOBound.env w) (IOBound.now w + 2)%Q
     (IOBound.results w) (IOBound.output w)).

Definition sample_world : IOBound.world unit :=
  IOBound.mk_world tt 100%Q {[ "Earlier" := 1%Q ]} [].

End Samples.

Module MatrixConvSpec.
Import MatrixOps MatrixSpec.

#[local] Open Scope Q_scope.

(** The sum over the first [kj] cells of kernel row [ki], added to [acc] from
    the left. *)
Fixpoint conv_row (mat kernel : matrix) (i j ki : nat) (acc : Q) (kj : nat) : Q :=
  match kj with
  | O => acc
  | S kj' =>
      conv_row mat kernel i j ki acc kj' +
      entry mat (i + ki) (j + kj') * entry kernel ki kj'
  end.

(** The sum over the first [ki] rows of a kernel of [kc] columns placed at
    [(i, j)], in the order of the loops. *)
Fixpoint conv_window (mat kernel : matrix) (kc i j ki : nat) : Q :=
  match ki with
  | O => 0
  | S ki' => conv_row mat kernel i j ki' (conv_window mat kernel kc i j ki') kc
  end.

(** The state of the two kernel loops: only cell [(i, j)] of [res0] has
    changed, to [v]. *)
Definition only_cell (res0 : matrix) (r c i j : nat) (v : Q) (res : matrix)
  : Prop :=
  rectangular res r c /\
  forall i' j',
    cell res i' j' = if decide (i' = i /\ j' = j) then Some v else cell res0 i' j'.

(** The [n] by [n] identity matrix. *)
Definition identity (n : nat) : matrix :=
  tabulate (fun i j => if decide (i = j) then 1 else 0) n n.

End MatrixConvSpec.

Module VisualReportSpec.
Import VisualReport.

(** A row of the comparison table is well formed: its divisor is not zero and
    its speedup is the quotient of its two times. *)
Definition row_ok (row : matrix_row) : Prop :=
  ~ Qeq (row_cpp_s row) 0 /\
  row_speedup row = (row_python_s row / row_cpp_s row)%Q.

(** A kept profile: it has a duration, and it is the profile of one of the
    paths whose [nsys stats] exited with status 0. *)
Definition kept_profile (run : list string -> run_outcome)
    (profiles : list profile_path) (st : profile_stats) : Prop :=
  duration st <> None /\
  exists p stdout,
    p ∈ profiles /\ name st = stem p /\
    run ["nsys"; "stats"; path_str p]%string = Exited 0 stdout.

End VisualReportSpec.

Module NvtxRangesSpec.
Import NvtxRanges.

(** A sequence of events that opens no range it does not close and closes
    none it did not open: from any depth it comes back to that depth. *)
Definition neutral (evs : list event) : Prop :=
  forall depth, open_ranges depth evs = Some depth.

End NvtxRangesSpec.

Module SortingSpec.

(** The item at position [k], for positions inside the list. *)
Definition at_index (arr : list Q) (k : nat) : Q := default 0%Q (arr !! k).

(** The state of one pass of [bubble_sort] over the first [m + 1] items of
    [arr0], before it looks at position [j]: the item at [j] is a largest one
    of the items up to [j], the items after [j] have not moved, and every
    bound on the first [m + 1] items still holds. *)
Definition pass_inv (arr0 : list Q) (m j : nat) (arr : list Q) : Prop :=
  arr ≡ₚ arr0 /\
  (forall k, (k <= j)%nat -> (at_index arr k <= at_index arr j)%Q) /\
  (forall k, (j < k)%nat -> arr !! k = arr0 !! k) /\
  (forall b : Q, (forall k, (k <= m)%nat -> (at_index arr0 k <= b)%Q) ->
                 forall k, (k <= m)%nat -> (at_index arr k <= b)%Q).

(** The state of [bubble_sort] after [i] passes over a list of [n] items: the
    last [i] items are in place. *)
Definition passes_inv (arr0 : list Q) (n i : nat) (arr : list Q) : Prop :=
  arr ≡ₚ arr0 /\
  forall k l, (k <= l)%nat -> (n - i <= l < n)%nat ->
    (at_index arr k <= at_index arr l)%Q.

(** Every item of [arr] at the positions [low .. high] satisfies [P]. *)
Definition segment (P : Q -> Prop) (arr : list Q) (low high : Z) : Prop :=
  forall k : nat, (low <= Z.of_nat k <= high)%Z -> P (at_index arr k).

(** [arr'] differs from [arr] only by a rearrangement inside [low .. high]:
    a permutation, equal outside, and keeping whatever holds of all the items
    of the segment. *)
Definition rearranged (arr : list Q) (low high : Z) (arr' : list Q) : Prop :=
  arr' ≡ₚ arr /\
  (forall k : nat, (Z.of_nat k < low \/ high < Z.of_nat k)%Z ->
     arr' !! k = arr !! k) /\
  (forall P : Q -> Prop, segment P arr low high -> segment P arr' low high).

(** The state of the loop of [partition] before it looks at position [j];
    [p] is the position after the last smaller item. *)
Definition partition_inv (arr0 : list Q) (pivot : Q) (low high : nat)
    (j : nat) (st : list Q * Z) : Prop :=
  exists p : nat,
    st.2 = (Z.of_nat p - 1)%Z /\ (low <= p <= j)%nat /\
    st.1 ≡ₚ arr0 /\
    (forall k, (low <= k < p)%nat -> (at_index st.1 k < pivot)%Q) /\
    (forall k, (p <= k < j)%nat -> (pivot <= at_index st.1 k)%Q) /\
    (forall k, (k < low \/ j <= k)%nat -> st.1 !! k = arr0 !! k) /\
    (forall P : Q -> Prop,
       segment P arr0 (Z.of_nat low) (Z.of_nat high) ->
       segment P st.1 (Z.of_nat low) (Z.of_nat high)).

(** What [partition] establishes: the pivot sits at [p], smaller items before
    it and the others after it, inside the segment. *)
Definition partitioned (arr : list Q) (low high p : nat) (arr' : list Q) : Prop :=
  (low <= p <= high)%nat /\
  rearranged arr (Z.of_nat low) (Z.of_nat high) arr' /\
  at_index arr' p = at_index arr high /\
  (forall k, (low <= k < p)%nat -> (at_index arr' k < at_index arr' p)%Q) /\
  (forall k, (p < k <= high)%nat -> (at_index arr' p <= at_index arr' k)%Q).

(** The segment [low .. high] of [arr] is in ascending order. *)
Definition ascending (arr : list Q) (low high : Z) : Prop :=
  forall k l : nat, (low <= Z.of_nat k)%Z -> (k <= l)%nat -> (Z.of_nat l <= high)%Z ->
    (at_index arr k <= at_index arr l)%Q.

End SortingSpec.

Module PyStrSpec.
Import PyStr.

(** Every character of the string is in class [p]. *)
Fixpoint all_chars (p : ascii -> bool) (s : string) : Prop :=
  match s with
  | EmptyString => True
  | String c s' => p c = true /\ all_chars p s'
  end.

End PyStrSpec.

Module IntMatrixSpec.

(** The item at row [i], column [j] of a matrix of integers. *)
Definition cell (m : list (list Z)) (i j : nat) : option Z :=
  row ← m !! i; row !! j.

(** A square matrix of side [n]. *)
Definition square (m : list (list Z)) (n : nat) : Prop :=
  length m = n /\ Forall (fun row => length row = n) m.

(** [f 0 + ... + f (n - 1)], added in that order. *)
Fixpoint sum_upto (f : nat -> Z) (n : nat) : Z :=
  match n with
  | O => 0
  | S k => sum_upto f k + f k
  end.

(** The entry of the product of [i * j] and [i + j]. *)
Definition product_entry (n i j : nat) : Z :=
  sum_upto (fun k => (Z.of_nat i * Z.of_nat k) * (Z.of_nat k + Z.of_nat j)) n.

(** The cells before [(i, j)] in row-major order hold their final value, the
    others are still zero. *)
Definition filled (n : nat) (f : nat -> nat -> Z) (i j : nat)
    (m : list (list Z)) : Prop :=
  square m n /\
  forall i' j', (i' < n)%nat -> (j' < n)%nat ->
    cell m i' j' =
    Some (if decide (i' < i \/ i' = i /\ j' < j)%nat then f i' j' else 0).

End IntMatrixSpec.

(** * Proofs *)

(** ** 1_basic_cpu_profiling.py *)

Section BasicCpuProofs.
Import BasicCpu SieveSpec.

Lemma F_SS (n : nat) : F (S (S n)) = F (S n) + F n.
Proof. reflexivity. Qed.

Lemma fib_iter_pair (k : nat) :
  Nat.iter k fib_step (0, 1) = (F k, F (S k)).
Proof.
  induction k as [|k IH]; [reflexivity|].
  rewrite Nat.iter_succ, IH. unfold fib_step. cbn [fst snd].
  f_equal. rewrite F_SS. lia.
Qed.

Lemma fibonacci_iterative_F (n : nat) : fibonacci_iterative (Z.of_nat n) = F n.
Proof.
  unfold fibonacci_iterative.
  destruct (Z.leb_spec (Z.of_nat n) 1) as [Hle|Hgt].
  - destruct n as [|[|n]]; [reflexivity|reflexivity|lia].
  - destruct n as [|n]; [lia|].
    replace (Z.to_nat (Z.of_nat (S n) + 1 - 2)) with n by lia.
    rewrite fib_iter_pair. reflexivity.
Qed.

(** C3. For every natural number n, fibonacci_iterative(n) is the n-th
    Fibonacci number F(n); in particular fibonacci_iterative(10) = 55. *)
Theorem fibonacci_iterative_correct :
  (forall n : nat, fibonacci_iterative (Z.of_nat n) = F n) /\
  fibonacci_iterative 10 = 55.
Proof. split; [apply fibonacci_iterative_F | reflexivity]. Qed.

Lemma fibonacci_recursive_F (depth n : nat) :
  (0 < depth)%nat -> (n <= depth)%nat ->
  fibonacci_recursive depth (Z.of_nat n) = Ok (F n).
Proof.
  revert n. induction depth as [|d IH]; intros n Hpos Hn; [lia|].
  cbn [fibonacci_recursive].
  destruct (Z.leb_spec (Z.of_nat n) 1) as [Hle|Hgt].
  - destruct n as [|[|n]]; [reflexivity|reflexivity|lia].
  - destruct n as [|[|n]]; [lia|lia|].
    replace (Z.of_nat (S (S n)) - 1) with (Z.of_nat (S n)) by lia.
    replace (Z.of_nat (S (S n)) - 2) with (Z.of_nat n) by lia.
    rewrite !IH by lia. reflexivity.
Qed.

(** A call that needs more nested calls than the limit allows raises. *)
Lemma fibonacci_recursive_too_deep (depth : nat) (n : Z) :
  Z.of_nat depth < n ->
  fibonacci_recursive depth n = Raise (UserError "RecursionError").
Proof.
  revert n. induction depth as [|d IH]; intros n Hn; [reflexivity|].
  cbn [fibonacci_recursive].
  destruct (Z.leb_spec n 1) as [Hle|Hgt]; [lia|].
  rewrite (IH (n - 1)) by lia. reflexivity.
Qed.

(** C9. The claim holds up to the recursion limit: for every natural number
    n that needs no more nested calls than the interpreter still allows,
    fibonacci_recursive(n) returns, and what it returns is
    fibonacci_iterative(n). *)
Theorem fibonacci_recursive_iterative (depth n : nat) :
  (0 < depth)%nat -> (n <= depth)%nat ->
  fibonacci_recursive depth (Z.of_nat n) = Ok (fibonacci_iterative (Z.of_nat n)).
Proof.
  intros Hpos Hn.
  rewrite fibonacci_recursive_F by assumption.
  rewrite fibonacci_iterative_F.
  reflexivity.
Qed.

Lemma fibonacci_recursive_iterative_witness :
  (0 < 1000)%nat /\ (10 <= 1000)%nat /\
  fibonacci_recursive 1000 (Z.of_nat 10) = Ok (fibonacci_iterative (Z.of_nat 10)).
Proof.
  split; [lia|]. split; [lia|].
  apply (fibonacci_recursive_iterative 1000 10); lia.
Defined.

(** With the default recursion limit of 1000, fibonacci_recursive(1200)
    raises RecursionError, while fibonacci_iterative(1200) is a number: the
    two do not compute the same function on every natural number. *)
Lemma fibonacci_recursive_1200 :
  fibonacci_recursive 1000 1200 = Raise (UserError "RecursionError") /\
  fibonacci_recursive 1000 1200 <> Ok (fibonacci_iterative 1200).
Proof.
  assert (H : fibonacci_recursive 1000 1200 = Raise (UserError "RecursionError"))
    by (apply fibonacci_recursive_too_deep; lia).
  split; [exact H|]. rewrite H. discriminate.
Qed.

(** *** Ranges *)

Lemma elem_of_range_from (j start step : Z) (count : nat) :
  j ∈ range_from start step count <->
  exists k : nat, (k < count)%nat /\ j = start + Z.of_nat k * step.
Proof.
  revert start. induction count as [|c IH]; intros start; cbn.
  - split; [intros H; inversion H | intros (k & Hk & _); lia].
  - rewrite elem_of_cons, IH. split.
    + intros [-> | (k & Hk & ->)].
      * exists 0%nat. split; lia.
      * exists (S k). split; lia.
    + intros ([|k] & Hk & ->).
      * left. lia.
      * right. exists k. split; lia.
Qed.

Lemma range_from_sorted (start step : Z) (count : nat) :
  0 < step -> StronglySorted Z.lt (range_from start step count).
Proof.
  intros Hstep. revert start.
  induction count as [|c IH]; intros start; cbn; constructor.
  - apply IH.
  - apply Forall_forall. intros j Hj.
    apply elem_of_range_from in Hj as (k & _ & ->). nia.
Qed.

Lemma elem_of_py_range (j start stop step : Z) :
  0 < step ->
  j ∈ py_range start stop step <->
  start <= j < stop /\ Z.divide step (j - start).
Proof.
  intros Hstep. unfold py_range. rewrite elem_of_range_from.
  set (q := (stop - start + step - 1) / step).
  split.
  - intros (k & Hk & ->). split.
    + assert (Hq : Z.of_nat k + 1 <= q) by lia.
      assert (Hm : step * q <= stop - start + step - 1)
        by (apply Z.mul_div_le; lia).
      nia.
    + exists (Z.of_nat k). lia.
  - intros ([Hlo Hhi] & m & Hm).
    assert (Hm0 : 0 <= m) by nia.
    exists (Z.to_nat m). split; [|lia].
    assert (Hq : m + 1 <= q).
    { apply Z.div_le_lower_bound; [lia|nia]. }
    lia.
Qed.

Lemma elem_of_py_range_1 (j start stop : Z) :
  j ∈ py_range start stop 1 <-> start <= j < stop.
Proof.
  rewrite elem_of_py_range by lia. split; [tauto|].
  intros H. split; [exact H|]. exists (j - start). lia.
Qed.

(** *** In-range indexing *)

Lemma norm_index_nonneg (len : nat) (i : Z) :
  0 <= i < Z.of_nat len -> norm_index len i = Some (Z.to_nat i).
Proof.
  intros H. unfold norm_index.
  destruct (Z.leb_spec 0 i); [|lia].
  destruct (Z.ltb_spec i (Z.of_nat len)); [|lia]. reflexivity.
Qed.

Lemma getitem_nonneg {A : Type} (l : list A) (i : Z) (x : A) :
  0 <= i -> l !! Z.to_nat i = Some x -> getitem l i = Ok x.
Proof.
  intros Hi Hx. unfold getitem.
  rewrite norm_index_nonneg.
  - now rewrite Hx.
  - apply lookup_lt_Some in Hx. lia.
Qed.

Lemma setitem_nonneg {A : Type} (l : list A) (i : Z) (v : A) :
  0 <= i < Z.of_nat (length l) -> setitem l i v = Ok (<[Z.to_nat i := v]> l).
Proof.
  intros Hi. unfold setitem. now rewrite norm_index_nonneg.
Qed.

(** The inner loop: every listed position is cleared, nothing else changes. *)
Lemma clear_positions (js : list Z) (sv : list bool) :
  (forall j, j ∈ js -> 0 <= j < Z.of_nat (length sv)) ->
  exists sv',
    for_each js (fun j sieve => setitem sieve j false) sv = Ok sv' /\
    length sv' = length sv /\
    forall n : nat,
      sv' !! n = if decide (Z.of_nat n ∈ js) then (fun _ => false) <$> sv !! n else sv !! n.
Proof.
  revert sv. induction js as [|j js IH]; intros sv Hin; cbn.
  - exists sv. split; [reflexivity|]. split; [reflexivity|]. intros n.
    destruct (decide _) as [H|_]; [inversion H | reflexivity].
  - assert (Hj : 0 <= j < Z.of_nat (length sv)) by (apply Hin; left).
    rewrite setitem_nonneg by exact Hj. cbn.
    destruct (IH (<[Z.to_nat j := false]> sv)) as (sv' & Hrun & Hlen & Hget).
    { intros j' Hj'. rewrite length_insert. apply Hin. now right. }
    exists sv'. split; [exact Hrun|]. split.
    { now rewrite Hlen, length_insert. }
    intros n. rewrite Hget.
    destruct (decide (Z.of_nat n = j)) as [<-|Hne].
    + rewrite Nat2Z.id.
      assert (Hn : (n < length sv)%nat) by lia.
      destruct (lookup_lt_is_Some_2 sv n Hn) as [b Hb].
      rewrite list_lookup_insert_eq by exact Hn. rewrite Hb.
      destruct (decide _); destruct (decide _) as [|Hno]; try reflexivity.
      all: exfalso; apply Hno; left.
    + rewrite list_lookup_insert_ne by lia.
      destruct (decide (Z.of_nat n ∈ js)) as [Hi|Hni];
        destruct (decide (Z.of_nat n ∈ j :: js)) as [Hi'|Hni']; try reflexivity.
      * exfalso. apply Hni'. now right.
      * exfalso. apply elem_of_cons in Hi' as [?|?]; [lia|contradiction].
Qed.

(** *** The invariant of the outer loop *)

Lemma sieve_inv_init (limit : Z) :
  1 <= limit ->
  sieve_inv limit 2
    (<[1%nat := false]> (<[0%nat := false]> (replicate (Z.to_nat (limit + 1)) true))).
Proof.
  intros Hl. split.
  - now rewrite !length_insert, length_replicate.
  - intros j Hj.
    destruct (decide (j = 0)) as [->|H0]; [|destruct (decide (j = 1)) as [->|H1]].
    + exists false. split.
      * change (Z.to_nat 0) with 0%nat.
        rewrite list_lookup_insert_ne by lia.
        apply list_lookup_insert_eq. rewrite length_replicate. lia.
      * split; [discriminate|]. intros [? _]. lia.
    + exists false. split.
      * change (Z.to_nat 1) with 1%nat.
        apply list_lookup_insert_eq. rewrite length_insert, length_replicate. lia.
      * split; [discriminate|]. intros [? _]. lia.
    + exists true. split.
      * rewrite !list_lookup_insert_ne by lia.
        apply lookup_replicate_2. lia.
      * split; [|reflexivity]. intros _. split; [lia|]. intros d Hd. lia.
Qed.

Lemma sieve_inv_step (limit k : Z) (sv : list bool) :
  2 <= k <= limit ->
  sieve_inv limit k sv ->
  exists sv',
    (marked ← getitem sv k;
     if (marked : bool)
     then for_each (py_range (k * k) (limit + 1) k)
            (fun j sieve => setitem sieve j false) sv
     else Ok sv) = Ok sv' /\
    sieve_inv limit (k + 1) sv'.
Proof.
  intros Hk [Hlen Hinv].
  destruct (Hinv k ltac:(lia)) as (bk & Hbk & Hbk_spec).
  rewrite (getitem_nonneg sv k bk) by (lia || exact Hbk). cbn.
  destruct bk.
  - (* k is still unmarked: its multiples from k*k on are cleared *)
    destruct (clear_positions (py_range (k * k) (limit + 1) k) sv)
      as (sv' & Hrun & Hlen' & Hget).
    { intros j Hj. apply elem_of_py_range in Hj; [|lia]. nia. }
    exists sv'. split; [exact Hrun|]. split; [congruence|].
    intros j Hj. destruct (Hinv j Hj) as (b & Hb & Hb_spec).
    specialize (Hget (Z.to_nat j)). rewrite Z2Nat.id in Hget by lia.
    rewrite Hb in Hget. cbn in Hget.
    destruct (decide (j ∈ py_range (k * k) (limit + 1) k)) as [Hin|Hnin].
    + exists false. split; [exact Hget|]. split; [discriminate|].
      intros [_ Hun]. exfalso.
      apply elem_of_py_range in Hin as [Hr Hdiv]; [|lia].
      assert (Hkj : Z.divide k j).
      { replace j with ((j - k * k) + k * k) by lia.
        apply Z.divide_add_r; [exact Hdiv | now exists k]. }
      specialize (Hun k ltac:(lia) Hkj). lia.
    + exists b. split; [exact Hget|]. rewrite Hb_spec.
      split; intros [H2 Hun]; (split; [exact H2|]); intros d Hd Hdiv.
      * destruct (decide (d = k)) as [->|Hne]; [|apply Hun; [lia|exact Hdiv]].
        destruct (Z_lt_ge_dec j (k * k)) as [Hlt|Hge]; [exact Hlt|].
        exfalso. apply Hnin. apply elem_of_py_range; [lia|].
        split; [lia|]. apply Z.divide_sub_r; [exact Hdiv | now exists k].
      * apply Hun; [lia|exact Hdiv].
  - (* k is marked: it has a small divisor that already cleared its multiples *)
    exists sv. split; [reflexivity|]. split; [exact Hlen|].
    intros j Hj. destruct (Hinv j Hj) as (b & Hb & Hb_spec).
    exists b. split; [exact Hb|]. rewrite Hb_spec.
    split; intros [H2 Hun]; (split; [exact H2|]); intros d Hd Hdiv.
    + destruct (decide (d = k)) as [->|Hne]; [|apply Hun; [lia|exact Hdiv]].
      destruct (Z_lt_ge_dec j (k * k)) as [Hlt|Hge]; [exact Hlt|].
      exfalso.
      assert (Hu : unmarked k k).
      { split; [lia|]. intros d0 Hd0 Hdiv0.
        destruct (Z_lt_ge_dec k (d0 * d0)) as [Hlt|Hge0]; [exact Hlt|].
        assert (Hd0j : Z.divide d0 j) by (eapply Z.divide_trans; eassumption).
        specialize (Hun d0 Hd0 Hd0j). nia. }
      apply Hbk_spec in Hu. discriminate.
    + apply Hun; [lia|exact Hdiv].
Qed.

Lemma sieve_outer_loop (limit : Z) (count : nat) (k : Z) (sv : list bool) :
  2 <= k -> k + Z.of_nat count <= limit + 1 ->
  sieve_inv limit k sv ->
  exists sv',
    for_each (range_from k 1 count)
      (fun i sieve =>
         marked ← getitem sieve i;
         if (marked : bool)
         then for_each (py_range (i * i) (limit + 1) i)
                (fun j sieve => setitem sieve j false) sieve
         else Ok sieve) sv = Ok sv' /\
    sieve_inv limit (k + Z.of_nat count) sv'.
Proof.
  revert k sv. induction count as [|c IH]; intros k sv Hk Hc Hinv.
  - exists sv. split; [reflexivity|]. now rewrite Z.add_0_r.
  - cbn [range_from for_each].
    destruct (sieve_inv_step limit k sv ltac:(lia) Hinv) as (sv1 & Hstep & Hinv1).
    rewrite Hstep. cbn.
    destruct (IH (k + 1) sv1 ltac:(lia) ltac:(lia) Hinv1) as (sv' & Hrun & Hinv').
    exists sv'. split; [exact Hrun|].
    now replace (k + Z.of_nat (S c)) with (k + 1 + Z.of_nat c) by lia.
Qed.

(** Once [k * k] exceeds the limit, the unmarked numbers are the primes. *)
Lemma unmarked_prime (limit k j : Z) :
  limit < k * k -> 0 < k -> 0 <= j <= limit ->
  unmarked k j <-> Z.prime j.
Proof.
  intros Hk Hk0 Hj. unfold Z.prime. split.
  - intros [H2 Hun]. split; [lia|]. intros n Hn [m Hm].
    assert (Hm1 : 1 < m) by nia.
    destruct (Z_le_gt_dec n m) as [Hle|Hgt].
    + assert (Hnk : n < k) by nia.
      specialize (Hun n ltac:(lia) ltac:(now exists m)). nia.
    + assert (Hmk : m < k) by nia.
      specialize (Hun m ltac:(lia) ltac:(exists n; lia)). nia.
  - intros [H1 Hp]. split; [lia|]. intros d Hd Hdiv.
    assert (Hdj : d <= j) by (apply Z.divide_pos_le; [lia|exact Hdiv]).
    destruct (decide (d = j)) as [->|Hne]; [nia|].
    exfalso. apply (Hp d); [lia|exact Hdiv].
Qed.

(** *** The final list comprehension *)

Lemma comprehension_lookup (js : list Z) (sv : list bool) :
  (forall j, j ∈ js -> 0 <= j < Z.of_nat (length sv)) ->
  comprehension js (fun i => getitem sv i) =
  Ok (filter (fun j => sv !! Z.to_nat j = Some true) js).
Proof.
  induction js as [|j js IH]; intros Hin; [reflexivity|].
  cbn [comprehension]. rewrite filter_cons.
  assert (Hj : 0 <= j < Z.of_nat (length sv)) by (apply Hin; left).
  destruct (lookup_lt_is_Some_2 sv (Z.to_nat j) ltac:(lia)) as [b Hb].
  rewrite (getitem_nonneg sv j b) by (lia || exact Hb). cbn.
  rewrite IH by (intros j' Hj'; apply Hin; now right).
  unfold mbind, result_bind. destruct b.
  - now rewrite decide_True by exact Hb.
  - rewrite decide_False; [reflexivity|]. rewrite Hb. discriminate.
Qed.

Lemma filter_StronglySorted {A : Type} (R : A -> A -> Prop) (P : A -> Prop)
    `{!forall x, Decision (P x)} (l : list A) :
  StronglySorted R l -> StronglySorted R (filter P l).
Proof.
  induction 1 as [|x l Hs IH Hall]; [constructor|].
  rewrite filter_cons. destruct (decide (P x)); [|exact IH].
  constructor; [exact IH|].
  apply Forall_forall. intros y Hy.
  apply list_elem_of_filter in Hy as [_ Hy].
  rewrite Forall_forall in Hall. now apply Hall.
Qed.

Lemma prime_sieve_spec (limit : Z) :
  2 <= limit ->
  exists ps,
    prime_sieve limit = Ok ps /\
    StronglySorted Z.lt ps /\
    forall p, p ∈ ps <-> Z.prime p /\ p <= limit.
Proof.
  intros Hl. unfold prime_sieve.
  rewrite setitem_nonneg by (rewrite length_replicate; lia). cbn.
  rewrite setitem_nonneg by (rewrite length_insert, length_replicate; lia). cbn.
  unfold int_math_sqrt. destruct (Z.ltb_spec limit 0) as [?|_]; [lia|]. cbn.
  pose proof (Z.sqrt_spec limit ltac:(lia)) as Hsqrt. cbn zeta in Hsqrt.
  set (r := Z.sqrt limit) in *.
  assert (Hr1 : 1 <= r) by nia.
  assert (Hrl : r <= limit) by nia.
  change (Z.to_nat 0) with 0%nat. change (Z.to_nat 1) with 1%nat.
  destruct (sieve_outer_loop limit (Z.to_nat (r - 1)) 2 _ ltac:(lia) ltac:(lia)
              (sieve_inv_init limit ltac:(lia))) as (sv & Hrun & [Hlen Hinv]).
  assert (Hrg : py_range 2 (r + 1) 1 = range_from 2 1 (Z.to_nat (r - 1))).
  { unfold py_range. f_equal. rewrite Z.div_1_r. lia. }
  rewrite Hrg, Hrun. cbn.
  replace (2 + Z.of_nat (Z.to_nat (r - 1))) with (r + 1) in Hinv by lia.
  rewrite comprehension_lookup
    by (intros j Hj; apply elem_of_py_range_1 in Hj; lia).
  eexists. split; [reflexivity|]. split.
  - apply filter_StronglySorted. apply range_from_sorted. lia.
  - intros p. rewrite list_elem_of_filter, elem_of_py_range_1. split.
    + intros [Hp Hrange]. split; [|lia].
      destruct (Hinv p ltac:(lia)) as (b & Hb & Hb_spec).
      apply (unmarked_prime limit (r + 1) p); [lia|lia|lia|].
      apply Hb_spec. congruence.
    + intros [Hp Hple].
      assert (H2 : 2 <= p) by (apply Z.prime_ge_2; exact Hp).
      split; [|lia].
      destruct (Hinv p ltac:(lia)) as (b & Hb & Hb_spec).
      rewrite Hb. f_equal. apply Hb_spec.
      apply (unmarked_prime limit (r + 1) p); [lia|lia|lia|exact Hp].
Qed.

(** C4. For every integer limit >= 2, prime_sieve(limit) returns the strictly
    ascending list of exactly the primes up to limit; for limit = 10 the list
    is [2, 3, 5, 7]. *)
Theorem prime_sieve_correct (limit : Z) :
  2 <= limit ->
  exists ps,
    prime_sieve limit = Ok ps /\
    StronglySorted Z.lt ps /\
    (forall p, p ∈ ps <-> Z.prime p /\ p <= limit) /\
    (limit = 10 -> ps = [2; 3; 5; 7]).
Proof.
  intros Hl. destruct (prime_sieve_spec limit Hl) as (ps & Hrun & Hsorted & Hmem).
  exists ps. split; [exact Hrun|]. split; [exact Hsorted|]. split; [exact Hmem|].
  intros ->. vm_compute in Hrun. congruence.
Qed.

Lemma prime_sieve_correct_witness :
  2 <= 10 /\
  exists ps,
    prime_sieve 10 = Ok ps /\
    StronglySorted Z.lt ps /\
    (forall p, p ∈ ps <-> Z.prime p /\ p <= 10) /\
    (10 = 10 -> ps = [2; 3; 5; 7]).
Proof. split; [lia | apply (prime_sieve_correct 10); lia]. Defined.

Example prime_sieve_10 : prime_sieve 10 = Ok [2; 3; 5; 7].
Proof. reflexivity. Qed.

End BasicCpuProofs.

(** ** Loops over [range(n)] *)

Lemma py_range_0 (n : nat) : py_range 0 (Z.of_nat n) 1 = range_from 0 1 n.
Proof. unfold py_range. f_equal. rewrite Z.div_1_r. lia. Qed.

Lemma for_each_range_from_inv {S : Type} (body : Z -> S -> result S)
    (Inv : nat -> S -> Prop) (count k0 : nat) (s : S) :
  Inv k0 s ->
  (forall k s, (k0 <= k < k0 + count)%nat -> Inv k s ->
     exists s', body (Z.of_nat k) s = Ok s' /\ Inv (Datatypes.S k) s') ->
  exists s',
    for_each (range_from (Z.of_nat k0) 1 count) body s = Ok s' /\
    Inv (k0 + count)%nat s'.
Proof.
  revert k0 s. induction count as [|c IH]; intros k0 s H0 Hstep.
  - exists s. split; [reflexivity|]. now rewrite Nat.add_0_r.
  - cbn [range_from for_each].
    destruct (Hstep k0 s ltac:(lia) H0) as (s1 & Hs1 & H1).
    rewrite Hs1. cbn.
    replace (Z.of_nat k0 + 1)%Z with (Z.of_nat (Datatypes.S k0)) by lia.
    destruct (IH (Datatypes.S k0) s1 H1) as (s' & Hs' & H').
    { intros k s2 Hk. apply Hstep. lia. }
    exists s'. split; [exact Hs'|].
    now replace (k0 + Datatypes.S c)%nat with (Datatypes.S k0 + c)%nat by lia.
Qed.

(** The invariant rule for [for k in range(n)]. *)
Lemma for_range_inv {S : Type} (body : Z -> S -> result S)
    (Inv : nat -> S -> Prop) (n : nat) (s : S) :
  Inv 0%nat s ->
  (forall k s, (k < n)%nat -> Inv k s ->
     exists s', body (Z.of_nat k) s = Ok s' /\ Inv (Datatypes.S k) s') ->
  exists s', for_each (py_range 0 (Z.of_nat n) 1) body s = Ok s' /\ Inv n s'.
Proof.
  intros H0 Hstep. rewrite py_range_0.
  apply (for_each_range_from_inv body Inv n 0%nat s H0).
  intros k s1 Hk. apply Hstep. lia.
Qed.

Lemma map_result_range_from {B : Type} (f : Z -> result B) (g : nat -> B)
    (count k0 : nat) :
  (forall k, (k0 <= k < k0 + count)%nat -> f (Z.of_nat k) = Ok (g k)) ->
  map_result f (range_from (Z.of_nat k0) 1 count) = Ok (g <$> seq k0 count).
Proof.
  revert k0. induction count as [|c IH]; intros k0 Hf; [reflexivity|].
  cbn [range_from map_result seq].
  rewrite Hf by lia. cbn.
  replace (Z.of_nat k0 + 1)%Z with (Z.of_nat (Datatypes.S k0)) by lia.
  rewrite IH by (intros k Hk; apply Hf; lia). reflexivity.
Qed.

Lemma map_result_range {B : Type} (f : Z -> result B) (g : nat -> B) (n : nat) :
  (forall k, (k < n)%nat -> f (Z.of_nat k) = Ok (g k)) ->
  map_result f (py_range 0 (Z.of_nat n) 1) = Ok (g <$> seq 0 n).
Proof.
  intros Hf. rewrite py_range_0.
  apply (map_result_range_from f g n 0%nat). intros k Hk. apply Hf. lia.
Qed.

(** ** 2_matrix_operations.py *)

Section MatrixProofs.
Import MatrixOps MatrixSpec.
#[local] Open Scope Q_scope.

Lemma rectangular_row (m : matrix) (r c i : nat) :
  rectangular m r c -> (i < r)%nat ->
  exists row, m !! i = Some row /\ length row = c.
Proof.
  intros [Hlen Hrows] Hi.
  destruct (lookup_lt_is_Some_2 m i ltac:(lia)) as [row Hrow].
  exists row. split; [exact Hrow|].
  rewrite Forall_lookup in Hrows. exact (Hrows i row Hrow).
Qed.

Lemma setcell_spec (res : matrix) (r c i j : nat) (v : Q) :
  rectangular res r c -> (i < r)%nat -> (j < c)%nat ->
  exists res',
    setcell res (Z.of_nat i) (Z.of_nat j) v = Ok res' /\
    rectangular res' r c /\
    forall i' j',
      cell res' i' j' = if decide (i' = i /\ j' = j) then Some v else cell res i' j'.
Proof.
  intros Hres Hi Hj.
  destruct (rectangular_row res r c i Hres Hi) as (row & Hrow & Hlen).
  destruct Hres as [Hr Hrows].
  unfold setcell.
  rewrite (getitem_nonneg res (Z.of_nat i) row) by (lia || now rewrite Nat2Z.id).
  cbn. rewrite setitem_nonneg by lia. cbn.
  rewrite setitem_nonneg by lia. rewrite !Nat2Z.id.
  eexists. split; [reflexivity|]. split.
  - split; [now rewrite length_insert|].
    apply Forall_insert; [exact Hrows | now rewrite length_insert].
  - intros i' j'. unfold cell.
    destruct (decide (i' = i)) as [->|Hne].
    + rewrite list_lookup_insert_eq by lia. rewrite Hrow. cbn.
      destruct (decide (j' = j)) as [->|Hnej].
      * rewrite decide_True by tauto. apply list_lookup_insert_eq. lia.
      * rewrite decide_False by tauto. apply list_lookup_insert_ne. lia.
    + rewrite list_lookup_insert_ne by lia. now rewrite decide_False by tauto.
Qed.

Lemma rectangular_tabulate (f : nat -> nat -> Q) (r c : nat) :
  rectangular (tabulate f r c) r c.
Proof.
  unfold tabulate. split.
  - now rewrite length_fmap, length_seq.
  - apply Forall_fmap, Forall_forall. intros i _. cbn.
    now rewrite length_fmap, length_seq.
Qed.

(** A rectangular matrix is determined by its cells. *)
Lemma tabulate_ext (m : matrix) (f : nat -> nat -> Q) (r c : nat) :
  rectangular m r c ->
  (forall i j, (i < r)%nat -> (j < c)%nat -> cell m i j = Some (f i j)) ->
  m = tabulate f r c.
Proof.
  intros Hm Hcells. apply list_eq. intros i. unfold tabulate.
  rewrite list_lookup_fmap.
  destruct (decide (i < r)%nat) as [Hi|Hi].
  - rewrite lookup_seq_lt by exact Hi. cbn.
    destruct (rectangular_row m r c i Hm Hi) as (row & Hrow & Hlen).
    rewrite Hrow. f_equal. apply list_eq. intros j.
    rewrite list_lookup_fmap.
    destruct (decide (j < c)%nat) as [Hj|Hj].
    + rewrite lookup_seq_lt by exact Hj. cbn.
      specialize (Hcells i j Hi Hj). unfold cell in Hcells.
      now rewrite Hrow in Hcells.
    + rewrite lookup_seq_ge by lia. cbn. apply lookup_ge_None. lia.
  - rewrite lookup_seq_ge by lia. cbn. apply lookup_ge_None.
    destruct Hm as [-> _]. lia.
Qed.

Lemma cell_tabulate (f : nat -> nat -> Q) (r c i j : nat) :
  (i < r)%nat -> (j < c)%nat -> cell (tabulate f r c) i j = Some (f i j).
Proof.
  intros Hi Hj. unfold cell, tabulate.
  rewrite list_lookup_fmap, lookup_seq_lt by exact Hi. cbn.
  now rewrite list_lookup_fmap, lookup_seq_lt by exact Hj.
Qed.

Lemma getitem_row (m : matrix) (r c i : nat) :
  rectangular m r c -> (i < r)%nat ->
  exists row,
    getitem m (Z.of_nat i) = Ok row /\ m !! i = Some row /\ length row = c.
Proof.
  intros Hm Hi. destruct (rectangular_row m r c i Hm Hi) as (row & Hrow & Hlen).
  exists row. split; [|split; assumption].
  apply getitem_nonneg; [lia | now rewrite Nat2Z.id].
Qed.

Lemma getitem_entry (m : matrix) (row : list Q) (i j : nat) :
  m !! i = Some row -> (j < length row)%nat ->
  getitem row (Z.of_nat j) = Ok (entry m i j).
Proof.
  intros Hrow Hj.
  destruct (lookup_lt_is_Some_2 row j Hj) as [x Hx].
  unfold entry, cell. rewrite Hrow. cbn. rewrite Hx. cbn.
  apply getitem_nonneg; [lia | now rewrite Nat2Z.id].
Qed.

Lemma dims_rectangular (m : matrix) (r c : nat) :
  rectangular m r c -> (0 < r)%nat -> dims m = Ok (Z.of_nat r, Z.of_nat c).
Proof.
  intros Hm Hr. destruct (getitem_row m r c 0 Hm Hr) as (row & Hget & _ & Hlen).
  unfold dims. change (Z.of_nat 0) with 0%Z in Hget. rewrite Hget. cbn.
  destruct Hm as [-> _]. now rewrite Hlen.
Qed.

(** *** Filling the result cell by cell *)

Section Fill.
Variables (r c : nat) (f : nat -> nat -> Q).
Variable cell_body : Z -> Z -> matrix -> result matrix.

Hypothesis cell_body_spec : forall res i j,
  rectangular res r c -> (i < r)%nat -> (j < c)%nat -> cell res i j = Some 0 ->
  exists res',
    cell_body (Z.of_nat i) (Z.of_nat j) res = Ok res' /\
    rectangular res' r c /\
    forall i' j',
      cell res' i' j' =
      if decide (i' = i /\ j' = j) then Some (f i j) else cell res i' j'.

Lemma filled_zeros : filled r c f 0 0 (replicate r (replicate c 0)).
Proof.
  split.
  - split; [apply length_replicate|].
    apply Forall_replicate. apply length_replicate.
  - intros i' j' Hi Hj. unfold cell.
    rewrite lookup_replicate_2 by exact Hi. cbn.
    rewrite lookup_replicate_2 by exact Hj.
    now rewrite decide_False by lia.
Qed.

Lemma fill_row (i : nat) (res : matrix) :
  (i < r)%nat -> filled r c f i 0 res ->
  exists res',
    for_each (py_range 0 (Z.of_nat c) 1)
      (fun j res => cell_body (Z.of_nat i) j res) res = Ok res' /\
    filled r c f (S i) 0 res'.
Proof.
  intros Hi H0.
  destruct (for_range_inv (fun j res => cell_body (Z.of_nat i) j res)
              (fun j res => filled r c f i j res) c res H0)
    as (res' & Hrun & [Hrect Hcells]).
  - intros j res1 Hj [Hrect Hcells].
    destruct (cell_body_spec res1 i j Hrect Hi Hj) as (res2 & Hb & Hrect2 & Hc2).
    { rewrite Hcells by assumption. now rewrite decide_False by lia. }
    exists res2. split; [exact Hb|]. split; [exact Hrect2|].
    intros i' j' Hi' Hj'. rewrite Hc2.
    destruct (decide (i' = i /\ j' = j)) as [[-> ->]|Hne].
    + now rewrite decide_True by lia.
    + rewrite Hcells by assumption. f_equal.
      destruct (decide (i' < i \/ i' = i /\ j' < j)%nat);
        destruct (decide (i' < i \/ i' = i /\ j' < S j)%nat);
        try reflexivity; exfalso; lia.
  - exists res'. split; [exact Hrun|]. split; [exact Hrect|].
    intros i' j' Hi' Hj'. rewrite Hcells by assumption. f_equal.
    destruct (decide (i' < i \/ i' = i /\ j' < c)%nat);
      destruct (decide (i' < S i \/ i' = S i /\ j' < 0)%nat);
      try reflexivity; exfalso; lia.
Qed.

Lemma fill_all :
  for_each (py_range 0 (Z.of_nat r) 1)
    (fun i res =>
       for_each (py_range 0 (Z.of_nat c) 1) (fun j res => cell_body i j res) res)
    (replicate r (replicate c 0)) = Ok (tabulate f r c).
Proof.
  destruct (for_range_inv
              (fun i res =>
                 for_each (py_range 0 (Z.of_nat c) 1)
                   (fun j res => cell_body i j res) res)
              (fun i res => filled r c f i 0 res) r _ filled_zeros)
    as (res' & Hrun & [Hrect Hcells]).
  - intros i res Hi Hfilled. exact (fill_row i res Hi Hfilled).
  - rewrite Hrun. f_equal. apply tabulate_ext; [exact Hrect|].
    intros i j Hi Hj. rewrite Hcells by assumption.
    now rewrite decide_True by lia.
Qed.

End Fill.

(** *** The naive product *)

Lemma naive_cell (a b res : matrix) (ra n cb i j : nat) :
  rectangular a ra n -> rectangular b n cb ->
  rectangular res ra cb -> (i < ra)%nat -> (j < cb)%nat ->
  cell res i j = Some 0 ->
  exists res',
    for_each (py_range 0 (Z.of_nat n) 1)
      (fun k res =>
         row ← getitem res (Z.of_nat i);
         old ← getitem row (Z.of_nat j);
         ai ← getitem a (Z.of_nat i);
         aik ← getitem ai k;
         bk ← getitem b k;
         bkj ← getitem bk (Z.of_nat j);
         row' ← setitem row (Z.of_nat j) (old + aik * bkj);
         setitem res (Z.of_nat i) row') res = Ok res' /\
    rectangular res' ra cb /\
    forall i' j',
      cell res' i' j' =
      if decide (i' = i /\ j' = j) then Some (dot_upto a b i j n)
      else cell res i' j'.
Proof.
  intros Ha Hb Hres Hi Hj H0.
  apply (for_range_inv _ (fun k res' => accumulating a b res ra cb i j k res')).
  - split; [exact Hres|]. intros i' j'.
    destruct (decide (i' = i /\ j' = j)) as [[-> ->]|_]; [exact H0|reflexivity].
  - intros k res1 Hk [Hrect Hcells].
    destruct (getitem_row res1 ra cb i Hrect Hi) as (row & Hget & Hrow & Hlen).
    destruct (getitem_row a ra n i Ha Hi) as (ai & Hgeta & Hai & Hlena).
    destruct (getitem_row b n cb k Hb Hk) as (bk & Hgetb & Hbk & Hlenb).
    assert (Hold : entry res1 i j = dot_upto a b i j k).
    { unfold entry. rewrite Hcells. now rewrite decide_True by tauto. }
    destruct (setcell_spec res1 ra cb i j
                (dot_upto a b i j k + entry a i k * entry b k j) Hrect Hi Hj)
      as (res2 & Hset & Hrect2 & Hc2).
    unfold setcell in Hset. rewrite Hget in Hset. cbn in Hset.
    rewrite Hget. cbn.
    rewrite (getitem_entry res1 row i j Hrow) by lia. cbn.
    rewrite Hgeta. cbn.
    rewrite (getitem_entry a ai i k Hai) by lia. cbn.
    rewrite Hgetb. cbn.
    rewrite (getitem_entry b bk k j Hbk) by lia. cbn.
    rewrite Hold.
    exists res2. split; [exact Hset|]. split; [exact Hrect2|].
    intros i' j'. rewrite Hc2.
    destruct (decide (i' = i /\ j' = j)); [reflexivity|].
    rewrite Hcells. now rewrite decide_False by assumption.
Qed.

Lemma naive_matrix_multiply_product (a b : matrix) (ra n cb : nat) :
  rectangular a ra n -> rectangular b n cb -> (0 < ra)%nat -> (0 < n)%nat ->
  naive_matrix_multiply a b = Ok (product a b ra n cb).
Proof.
  intros Ha Hb Hra Hn. unfold naive_matrix_multiply.
  rewrite (dims_rectangular a ra n Ha Hra). cbn.
  rewrite (dims_rectangular b n cb Hb Hn). cbn.
  rewrite Z.eqb_refl. cbn. rewrite !Nat2Z.id.
  apply (fill_all ra cb (fun i j => dot_upto a b i j n)
           (fun i j res =>
              for_each (py_range 0 (Z.of_nat n) 1)
                (fun k res =>
                   row ← getitem res i;
                   old ← getitem row j;
                   ai ← getitem a i;
                   aik ← getitem ai k;
                   bk ← getitem b k;
                   bkj ← getitem bk j;
                   row' ← setitem row j (old + aik * bkj);
                   setitem res i row') res)).
  intros res i j Hres Hi Hj H0.
  exact (naive_cell a b res ra n cb i j Ha Hb Hres Hi Hj H0).
Qed.

(** *** The product through the transposed right operand *)

Lemma transpose_tabulate (b : matrix) (n cb : nat) :
  rectangular b n cb ->
  map_result
    (fun i => map_result (fun j => bj ← getitem b j; getitem bj i)
                (py_range 0 (Z.of_nat n) 1))
    (py_range 0 (Z.of_nat cb) 1) = Ok (tabulate (fun i j => entry b j i) cb n).
Proof.
  intros Hb. apply map_result_range. intros i Hi.
  apply map_result_range. intros j Hj.
  destruct (getitem_row b n cb j Hb Hj) as (bj & Hget & Hbj & Hlen).
  rewrite Hget. cbn. apply (getitem_entry b bj j i Hbj). lia.
Qed.

Lemma py_sum_dot_upto (a b : matrix) (i j n : nat) :
  py_sum ((fun k => entry a i k * entry b k j) <$> seq 0 n) = dot_upto a b i j n.
Proof.
  unfold py_sum. induction n as [|n IH]; [reflexivity|].
  rewrite seq_S, fmap_app, fold_left_app, IH. reflexivity.
Qed.

Lemma optimized_cell (a b res : matrix) (ra n cb i j : nat) :
  rectangular a ra n -> rectangular b n cb ->
  rectangular res ra cb -> (i < ra)%nat -> (j < cb)%nat ->
  exists res',
    (terms ←
       map_result
         (fun k =>
            ai ← getitem a (Z.of_nat i);
            aik ← getitem ai k;
            btj ← getitem (tabulate (fun i j => entry b j i) cb n) (Z.of_nat j);
            btjk ← getitem btj k;
            Ok (aik * btjk))
         (py_range 0 (Z.of_nat n) 1);
     setcell res (Z.of_nat i) (Z.of_nat j) (py_sum terms)) = Ok res' /\
    rectangular res' ra cb /\
    forall i' j',
      cell res' i' j' =
      if decide (i' = i /\ j' = j) then Some (dot_upto a b i j n)
      else cell res i' j'.
Proof.
  intros Ha Hb Hres Hi Hj.
  rewrite (map_result_range _ (fun k => entry a i k * entry b k j)).
  - cbn. rewrite py_sum_dot_upto. now apply setcell_spec.
  - intros k Hk.
    destruct (getitem_row a ra n i Ha Hi) as (ai & Hgeta & Hai & Hlena).
    pose proof (rectangular_tabulate (fun i j => entry b j i) cb n) as Hbt.
    destruct (getitem_row _ cb n j Hbt Hj) as (btj & Hgetbt & Hbtj & Hlenbt).
    rewrite Hgeta. cbn.
    rewrite (getitem_entry a ai i k Hai) by lia. cbn.
    rewrite Hgetbt. cbn.
    rewrite (getitem_entry _ btj j k Hbtj) by lia. cbn.
    unfold entry at 2. now rewrite cell_tabulate by assumption.
Qed.

Lemma optimized_matrix_multiply_product (a b : matrix) (ra n cb : nat) :
  rectangular a ra n -> rectangular b n cb -> (0 < ra)%nat -> (0 < n)%nat ->
  optimized_matrix_multiply a b = Ok (product a b ra n cb).
Proof.
  intros Ha Hb Hra Hn. unfold optimized_matrix_multiply.
  rewrite (dims_rectangular a ra n Ha Hra). cbn.
  rewrite (dims_rectangular b n cb Hb Hn). cbn.
  rewrite Z.eqb_refl. cbn.
  rewrite (transpose_tabulate b n cb Hb). cbn. rewrite !Nat2Z.id.
  apply (fill_all ra cb (fun i j => dot_upto a b i j n)
           (fun i j res =>
              terms ←
                map_result
                  (fun k =>
                     ai ← getitem a i;
                     aik ← getitem ai k;
                     btj ← getitem (tabulate (fun i j => entry b j i) cb n) j;
                     btjk ← getitem btj k;
                     Ok (aik * btjk))
                  (py_range 0 (Z.of_nat n) 1);
              setcell res i j (py_sum terms))).
  intros res i j Hres Hi Hj _.
  exact (optimized_cell a b res ra n cb i j Ha Hb Hres Hi Hj).
Qed.

(** C8. For non-empty rectangular matrices a (ra by n) and b (n by cb),
    optimized_matrix_multiply(a, b) returns the same matrix as
    naive_matrix_multiply(a, b), with the arithmetic read exactly; both
    return normally. *)
Theorem optimized_matrix_multiply_naive (a b : matrix) (ra n cb : nat) :
  rectangular a ra n -> rectangular b n cb -> (0 < ra)%nat -> (0 < n)%nat ->
  optimized_matrix_multiply a b = naive_matrix_multiply a b /\
  exists m, naive_matrix_multiply a b = Ok m.
Proof.
  intros Ha Hb Hra Hn.
  rewrite (optimized_matrix_multiply_product a b ra n cb) by assumption.
  rewrite (naive_matrix_multiply_product a b ra n cb) by assumption.
  split; [reflexivity|]. now eexists.
Qed.

Lemma optimized_matrix_multiply_naive_witness :
  rectangular [[1; 2]; [3; 4]; [5; 6]] 3 2 /\
  rectangular [[1; 0; 2; 1]; [0; 1 # 2; 1; 1]] 2 4 /\
  (0 < 3)%nat /\ (0 < 2)%nat /\
  (optimized_matrix_multiply [[1; 2]; [3; 4]; [5; 6]]
     [[1; 0; 2; 1]; [0; 1 # 2; 1; 1]] =
   naive_matrix_multiply [[1; 2]; [3; 4]; [5; 6]]
     [[1; 0; 2; 1]; [0; 1 # 2; 1; 1]] /\
   exists m,
     naive_matrix_multiply [[1; 2]; [3; 4]; [5; 6]]
       [[1; 0; 2; 1]; [0; 1 # 2; 1; 1]] = Ok m).
Proof.
  assert (Ha : rectangular [[1; 2]; [3; 4]; [5; 6]] 3 2)
    by (split; [reflexivity | repeat constructor]).
  assert (Hb : rectangular [[1; 0; 2; 1]; [0; 1 # 2; 1; 1]] 2 4)
    by (split; [reflexivity | repeat constructor]).
  split; [exact Ha|]. split; [exact Hb|].
  split; [lia|]. split; [lia|].
  apply (optimized_matrix_multiply_naive _ _ 3 2 4 Ha Hb); lia.
Defined.

(** C10. For non-empty rectangular matrices a (ra by ca) and b (rb by cb),
    naive_matrix_multiply(a, b) raises ValueError if and only if ca differs
    from rb; when they agree it returns a matrix of ra rows and cb columns. *)
Theorem naive_matrix_multiply_dimensions (a b : matrix) (ra ca rb cb : nat) :
  rectangular a ra ca -> rectangular b rb cb -> (0 < ra)%nat -> (0 < rb)%nat ->
  (naive_matrix_multiply a b = Raise ValueError <-> ca <> rb) /\
  (ca = rb ->
   exists m, naive_matrix_multiply a b = Ok m /\ rectangular m ra cb).
Proof.
  intros Ha Hb Hra Hrb.
  assert (Hcompat : ca = rb ->
            naive_matrix_multiply a b = Ok (product a b ra ca cb)).
  { intros ->. apply naive_matrix_multiply_product; assumption. }
  split; [split|].
  - intros Hraise Heq. rewrite (Hcompat Heq) in Hraise. discriminate.
  - intros Hne. unfold naive_matrix_multiply.
    rewrite (dims_rectangular a ra ca Ha Hra). cbn.
    rewrite (dims_rectangular b rb cb Hb Hrb). cbn.
    destruct (Z.eqb_spec (Z.of_nat ca) (Z.of_nat rb)) as [Heq|_]; [lia|].
    reflexivity.
  - intros Heq. eexists. split; [exact (Hcompat Heq)|].
    apply rectangular_tabulate.
Qed.

Lemma naive_matrix_multiply_dimensions_witness :
  rectangular [[1; 2]; [3; 4]; [5; 6]] 3 2 /\
  rectangular [[1; 0; 2; 1]; [0; 1 # 2; 1; 1]] 2 4 /\
  (0 < 3)%nat /\ (0 < 2)%nat /\
  ((naive_matrix_multiply [[1; 2]; [3; 4]; [5; 6]]
      [[1; 0; 2; 1]; [0; 1 # 2; 1; 1]] = Raise ValueError <-> 2%nat <> 2%nat) /\
   (2%nat = 2%nat ->
    exists m,
      naive_matrix_multiply [[1; 2]; [3; 4]; [5; 6]]
        [[1; 0; 2; 1]; [0; 1 # 2; 1; 1]] = Ok m /\
      rectangular m 3 4)).
Proof.
  assert (Ha : rectangular [[1; 2]; [3; 4]; [5; 6]] 3 2)
    by (split; [reflexivity | repeat constructor]).
  assert (Hb : rectangular [[1; 0; 2; 1]; [0; 1 # 2; 1; 1]] 2 4)
    by (split; [reflexivity | repeat constructor]).
  split; [exact Ha|]. split; [exact Hb|].
  split; [lia|]. split; [lia|].
  apply (naive_matrix_multiply_dimensions _ _ 3 2 2 4 Ha Hb); lia.
Defined.

Example naive_matrix_multiply_incompatible :
  naive_matrix_multiply [[1; 0; 2; 1]; [0; 1 # 2; 1; 1]] [[1; 2]; [3; 4]; [5; 6]]
  = Raise ValueError.
Proof. reflexivity. Qed.

End MatrixProofs.

(** ** scripts/compare_results.py *)

Section CompareProofs.
Import PyStr CompareResults CompareSpec.

Lemma compare_pair_entry (fs : filesystem) (dir : path)
    (py_name cpp_name display_name : string) (ps cs : stats)
    (comps : gmap string comparison) :
  parse_stats_file fs (stats_file dir py_name) = Ok ps ->
  parse_stats_file fs (stats_file dir cpp_name) = Ok cs ->
  compare_pair fs dir (py_name, cpp_name, display_name) comps =
  Ok match entry_of ps cs with
     | Some e => <[display_name := e]> comps
     | None => comps
     end.
Proof.
  intros Hp Hc. unfold compare_pair, entry_of. rewrite Hp. cbn. rewrite Hc. cbn.
  destruct (duration ps) as [dp|]; [|reflexivity].
  destruct (duration cs) as [dc|]; cbn.
  - destruct (Qeq_bool dp 0); [reflexivity|]. cbn.
    destruct (Qeq_bool dc 0); reflexivity.
  - now rewrite andb_false_r.
Qed.

Lemma compare_loop (fs : filesystem) (dir : path)
    (pairs : list (string * string * string)) (comps0 : gmap string comparison) :
  NoDup (pairs.*2) ->
  Forall (parses fs dir) pairs ->
  exists comps,
    for_each pairs (compare_pair fs dir) comps0 = Ok comps /\
    (forall d, d ∉ pairs.*2 -> comps !! d = comps0 !! d) /\
    forall py_name cpp_name display_name ps cs,
      (py_name, cpp_name, display_name) ∈ pairs ->
      parse_stats_file fs (stats_file dir py_name) = Ok ps ->
      parse_stats_file fs (stats_file dir cpp_name) = Ok cs ->
      comps !! display_name =
      match entry_of ps cs with
      | Some e => Some e
      | None => comps0 !! display_name
      end.
Proof.
  revert comps0. induction pairs as [|[[py cpp] disp] pairs IH];
    intros comps0 Hnodup Hparses.
  - exists comps0. split; [reflexivity|]. split; [reflexivity|].
    intros ? ? ? ? ? Hin. inversion Hin.
  - cbn in Hnodup. apply NoDup_cons in Hnodup as [Hfresh Hnodup].
    apply Forall_cons in Hparses as [[[ps Hps] [cs Hcs]] Hparses].
    cbn in Hps, Hcs. cbn [for_each].
    rewrite (compare_pair_entry fs dir py cpp disp ps cs comps0 Hps Hcs). cbn.
    set (comps1 := match entry_of ps cs with
                   | Some e => <[disp := e]> comps0
                   | None => comps0
                   end).
    assert (Hother : forall d, d <> disp -> comps1 !! d = comps0 !! d).
    { intros d Hd. unfold comps1. destruct (entry_of ps cs); [|reflexivity].
      now rewrite lookup_insert_ne. }
    assert (Hhere : comps1 !! disp =
                    match entry_of ps cs with
                    | Some e => Some e
                    | None => comps0 !! disp
                    end).
    { unfold comps1. destruct (entry_of ps cs); [|reflexivity].
      now rewrite lookup_insert_eq. }
    destruct (IH comps1 Hnodup Hparses) as (comps & Hrun & Hframe & Hentries).
    exists comps. split; [exact Hrun|]. split.
    + intros d Hd. cbn in Hd. apply not_elem_of_cons in Hd as [Hne Hd].
      rewrite (Hframe d Hd). now apply Hother.
    + intros py' cpp' disp' ps' cs' Hin Hps' Hcs'.
      apply elem_of_cons in Hin as [Heq|Hin].
      * injection Heq as -> -> ->.
        rewrite Hps in Hps'. rewrite Hcs in Hcs'.
        injection Hps' as <-. injection Hcs' as <-.
        rewrite (Hframe disp Hfresh). exact Hhere.
      * rewrite (Hentries py' cpp' disp' ps' cs' Hin Hps' Hcs').
        destruct (entry_of ps' cs'); [reflexivity|].
        apply Hother. intros ->. apply Hfresh.
        apply list_elem_of_fmap. now exists (py', cpp', disp).
Qed.

Lemma example_pairs_NoDup : NoDup (example_pairs.*2).
Proof. compute_done. Qed.

(** What [entry_of] says, spelled out. *)
Lemma entry_of_spec (ps cs : stats) (c : comparison) :
  entry_of ps cs = Some c <->
  exists dp dc,
    duration ps = Some dp /\ duration cs = Some dc /\
    ~ Qeq dp 0 /\ ~ Qeq dc 0 /\
    c = {| python := ps; cpp := cs; speedup := (dp / dc)%Q |}.
Proof.
  unfold entry_of. split.
  - destruct (duration ps) as [dp|]; [|discriminate].
    destruct (duration cs) as [dc|]; [|discriminate].
    destruct (Qeq_bool dp 0) eqn:Hp; [discriminate|].
    destruct (Qeq_bool dc 0) eqn:Hc; [discriminate|]. cbn.
    intros [= <-]. exists dp, dc. repeat split; try reflexivity.
    + intros Hz. apply Qeq_bool_iff in Hz. congruence.
    + intros Hz. apply Qeq_bool_iff in Hz. congruence.
  - intros (dp & dc & -> & -> & Hp & Hc & ->).
    destruct (Qeq_bool dp 0) eqn:Hpz;
      [apply Qeq_bool_iff in Hpz; contradiction|].
    destruct (Qeq_bool dc 0) eqn:Hcz;
      [apply Qeq_bool_iff in Hcz; contradiction|].
    reflexivity.
Qed.

(** When the statistics files of all the example pairs parse,
    compare_implementations returns, and the entry of each pair is the one
    [entry_of] describes: present exactly when both parsed durations are
    non-null and nonzero, with their quotient as the speedup.  (Durations are
    the exact values of the decimal texts.) *)
Lemma compare_implementations_entries (fs : filesystem) (results_dir : path) :
  Forall (parses fs results_dir) example_pairs ->
  exists comparisons,
    compare_implementations fs results_dir = Ok comparisons /\
    forall py_name cpp_name display_name py_stats cpp_stats,
      (py_name, cpp_name, display_name) ∈ example_pairs ->
      parse_stats_file fs (stats_file results_dir py_name) = Ok py_stats ->
      parse_stats_file fs (stats_file results_dir cpp_name) = Ok cpp_stats ->
      comparisons !! display_name = entry_of py_stats cpp_stats.
Proof.
  intros Hparses.
  destruct (compare_loop fs results_dir example_pairs ∅ example_pairs_NoDup Hparses)
    as (comps & Hrun & _ & Hentries).
  exists comps. split; [exact Hrun|].
  intros py cpp disp ps cs Hin Hps Hcs.
  rewrite (Hentries py cpp disp ps cs Hin Hps Hcs).
  destruct (entry_of ps cs); [reflexivity | apply lookup_empty].
Qed.

End CompareProofs.

(** *** The exceptions that can leave the parser *)

Section ParserExceptions.
Import PyStr CompareResults CompareSpec.

#[local] Open Scope string_scope.

Lemma getitem_raises {A : Type} (l : list A) (i : Z) (e : exn) :
  getitem l i = Raise e -> e = IndexError.
Proof.
  unfold getitem. destruct (norm_index (length l) i) as [n|]; [|congruence].
  destruct (l !! n); congruence.
Qed.

Lemma py_float_raises (s : string) (e : exn) :
  py_float s = Raise e -> e = ValueError.
Proof.
  unfold py_float.
  destruct (read_sign (strip s)) as [neg body].
  destruct (span is_digit body) as [int_part rest].
  destruct (match rest with
            | String "." rest' => span is_digit rest'
            | _ => (EmptyString, rest)
            end) as [frac_part rest'].
  destruct (is_empty int_part && is_empty frac_part); [congruence|].
  destruct (read_exponent rest'); congruence.
Qed.

Lemma py_int_raises (s : string) (e : exn) :
  py_int s = Raise e -> e = ValueError.
Proof.
  unfold py_int.
  destruct (read_sign (strip s)) as [neg body].
  destruct (span is_digit body) as [ds rest].
  destruct (is_empty ds || negb (is_empty rest)); [congruence|].
  destruct (max_str_digits <? Z.of_nat (String.length ds))%Z; congruence.
Qed.

Lemma for_each_raises {A S : Type} (P : exn -> Prop)
    (body : A -> S -> result S) (xs : list A) (s : S) (e : exn) :
  (forall x s e, body x s = Raise e -> P e) ->
  for_each xs body s = Raise e -> P e.
Proof.
  intros Hbody. revert s. induction xs as [|x xs IH]; intros s; cbn.
  - discriminate.
  - destruct (body x s) as [s'|e'] eqn:Hx; cbn.
    + apply IH.
    + intros [= <-]. exact (Hbody x s e' Hx).
Qed.

Lemma parse_function_line_raises (line : string) (fns : list (string * Q))
    (e : exn) :
  parse_function_line line fns = Raise e -> parser_exn e.
Proof.
  unfold parse_function_line.
  destruct (negb (is_empty (strip line)) && contains "%" line); [|discriminate].
  destruct (2 <=? length (split_ws line))%nat; [|discriminate].
  destruct (getitem (split_ws line) 0) as [p0|e0] eqn:Hget; cbn.
  - destruct (py_float (strip_class (Ascii.eqb "%") p0)) as [q|e1] eqn:Hf; cbn.
    + discriminate.
    + apply py_float_raises in Hf as ->. discriminate.
  - apply getitem_raises in Hget as ->. cbn. intros [= <-]. now right.
Qed.

Lemma parse_stats_file_raises (fs : filesystem) (filepath : path) (e : exn) :
  parse_stats_file fs filepath = Raise e -> parser_exn e.
Proof.
  unfold parse_stats_file. destruct (fs !! filepath) as [content|]; [|discriminate].
  destruct (re_search match_duration content) as [g1|];
    [destruct (py_float g1) as [d|e1] eqn:H1; cbn;
       [|apply py_float_raises in H1 as ->; intros [= <-]; now left]|cbn];
  (destruct (re_search (match_count "Total samples:") content) as [g2|];
    [destruct (py_int g2) as [n2|e2] eqn:H2; cbn;
       [|apply py_int_raises in H2 as ->; intros [= <-]; now left]|cbn]);
  (destruct (re_search (match_count "Context switches:") content) as [g3|];
    [destruct (py_int g3) as [n3|e3] eqn:H3; cbn;
       [|apply py_int_raises in H3 as ->; intros [= <-]; now left]|cbn]);
  (destruct (contains "Top Functions" content); [|discriminate]);
  (destruct (getitem (split "Top Functions" content) 1) as [after|e4] eqn:H4;
     cbn; [|apply getitem_raises in H4 as ->; intros [= <-]; now right]);
  (destruct (getitem (split (newline ++ newline) after) 0) as [sect|e5] eqn:H5;
     cbn; [|apply getitem_raises in H5 as ->; intros [= <-]; now right]);
  (destruct (for_each _ parse_function_line _) as [fns|e6] eqn:H6;
     cbn; [discriminate|]);
  intros [= <-];
  exact (for_each_raises parser_exn _ _ _ _ parse_function_line_raises H6).
Qed.

Lemma compare_pair_raises (fs : filesystem) (dir : path)
    (pair : string * string * string) (comps : gmap string comparison)
    (e : exn) :
  compare_pair fs dir pair comps = Raise e -> parser_exn e.
Proof.
  destruct pair as [[py cpp] disp]. unfold compare_pair.
  destruct (parse_stats_file fs (stats_file dir py)) as [ps|e1] eqn:Hp; cbn;
    [|intros [= <-]; exact (parse_stats_file_raises _ _ _ Hp)].
  destruct (parse_stats_file fs (stats_file dir cpp)) as [cs|e2] eqn:Hc; cbn;
    [|intros [= <-]; exact (parse_stats_file_raises _ _ _ Hc)].
  unfold truthy, truediv.
  destruct (duration ps) as [dp|]; [|discriminate].
  destruct (duration cs) as [dc|]; cbn; [|now rewrite andb_false_r].
  destruct (Qeq_bool dp 0); cbn; [discriminate|].
  destruct (Qeq_bool dc 0); discriminate.
Qed.

(** Whatever the files hold, no division error leaves
    [compare_implementations]: the only exceptions are the parser's. *)
Lemma compare_implementations_raises (fs : filesystem) (dir : path) (e : exn) :
  compare_implementations fs dir = Raise e ->
  parser_exn e /\ e <> ZeroDivisionError /\ e <> TypeError.
Proof.
  intros H.
  assert (He : parser_exn e).
  { exact (for_each_raises parser_exn _ _ _ _ (compare_pair_raises fs dir) H). }
  split; [exact He|]. destruct He as [-> | ->]; split; discriminate.
Qed.

End ParserExceptions.

Section ParseStatsProofs.
Import PyStr CompareResults CompareSpec Samples.

#[local] Open Scope string_scope.

(** A missing file leaves every field at its initial value. *)
Lemma parse_stats_file_missing (fs : filesystem) (filepath : path) :
  fs !! filepath = None -> parse_stats_file fs filepath = Ok initial_stats.
Proof. intros H. unfold parse_stats_file. now rewrite H. Qed.

(** X1. A field whose pattern finds nothing keeps its initial value, whenever
    the function returns; the fields os_runtime_events and nvtx_events are
    never written. *)
Lemma parse_stats_file_defaults (fs : filesystem) (filepath : path)
    (content : string) (st : stats) :
  fs !! filepath = Some content ->
  parse_stats_file fs filepath = Ok st ->
  (re_search match_duration content = None -> duration st = None) /\
  (re_search (match_count "Total samples:") content = None ->
   cpu_samples st = 0) /\
  (re_search (match_count "Context switches:") content = None ->
   context_switches st = 0) /\
  (contains "Top Functions" content = false -> top_functions st = []) /\
  os_runtime_events st = 0 /\ nvtx_events st = 0.
Proof.
  intros Hfile. unfold parse_stats_file. rewrite Hfile.
  destruct (re_search match_duration content) as [g1|];
    [destruct (py_float g1) as [d|e1]; cbn; [|discriminate]|cbn];
  (destruct (re_search (match_count "Total samples:") content) as [g2|];
    [destruct (py_int g2) as [n2|e2]; cbn; [|discriminate]|cbn]);
  (destruct (re_search (match_count "Context switches:") content) as [g3|];
    [destruct (py_int g3) as [n3|e3]; cbn; [|discriminate]|cbn]);
  (destruct (contains "Top Functions" content);
    [destruct (getitem (split "Top Functions" content) 1) as [after|];
       cbn; [|discriminate];
     destruct (getitem (split (newline ++ newline) after) 0) as [sect|];
       cbn; [|discriminate];
     destruct (for_each _ parse_function_line _) as [fns|];
       cbn; [|discriminate]
    |]);
  intros [= <-]; cbn; repeat split; intros; congruence.
Qed.

(** An error of [float] on the matched duration leaves the function. *)
Lemma parse_stats_file_duration_error (fs : filesystem) (filepath : path)
    (content g : string) (e : exn) :
  fs !! filepath = Some content ->
  re_search match_duration content = Some g ->
  py_float g = Raise e ->
  parse_stats_file fs filepath = Raise e.
Proof.
  intros Hfile Hmatch Hfloat. unfold parse_stats_file.
  rewrite Hfile, Hmatch, Hfloat. reflexivity.
Qed.

(** C1. The claim that parse_stats_file never raises fails on the code: for a
    file whose text is "Duration: 1.2.3 seconds" the duration pattern matches
    the group "1.2.3", float() rejects it, and the ValueError leaves the
    function. *)
Theorem parse_stats_file_malformed_duration :
  malformed_fs !! ["results"; "py_1_basic_cpu_stats.txt"] =
    Some "Duration: 1.2.3 seconds" /\
  re_search match_duration "Duration: 1.2.3 seconds" = Some "1.2.3" /\
  py_float "1.2.3" = Raise ValueError /\
  parse_stats_file malformed_fs ["results"; "py_1_basic_cpu_stats.txt"] =
    Raise ValueError.
Proof. repeat split; vm_compute; reflexivity. Qed.

Lemma sample_fs_parses : Forall (parses sample_fs ["results"]) example_pairs.
Proof.
  repeat constructor; eexists; vm_compute; reflexivity.
Qed.

Example compare_implementations_sample :
  exists comparisons,
    compare_implementations sample_fs ["results"] = Ok comparisons /\
    speedup <$> comparisons !! "Basic CPU Profiling" = Some (12.5 / 2.5)%Q /\
    comparisons !! "Matrix Operations" = None.
Proof.
  eexists. split; [vm_compute; reflexivity|]. split; vm_compute; reflexivity.
Qed.

(** C2. The claim fails on the code through the defect of C1: with
    well-formed statistics for the first pair (durations 12.5 and 2.5, both
    non-null and nonzero) and "Duration: 1.2.3 seconds" in the Python file
    of the second pair, the first turn of the loop stores the entry of the
    first pair, the ValueError of the second turn leaves
    compare_implementations, and no result holds the first pair. *)
Theorem compare_implementations_discards_pair :
  exists py_stats cpp_stats,
    parse_stats_file discarding_fs ["results"; "py_1_basic_cpu_stats.txt"] =
      Ok py_stats /\
    parse_stats_file discarding_fs ["results"; "cpp_1_basic_cpu_stats.txt"] =
      Ok cpp_stats /\
    duration py_stats = Some 12.5%Q /\
    duration cpp_stats = Some 2.5%Q /\
    compare_pair discarding_fs ["results"]
      ("py_1_basic_cpu", "cpp_1_basic_cpu", "Basic CPU Profiling") ∅ =
      Ok {[ "Basic CPU Profiling" :=
              {| python := py_stats; cpp := cpp_stats;
                 speedup := (12.5 / 2.5)%Q |} ]} /\
    parse_stats_file discarding_fs ["results"; "py_2_matrix_ops_stats.txt"] =
      Raise ValueError /\
    compare_implementations discarding_fs ["results"] = Raise ValueError.
Proof.
  eexists _, _.
  split; [vm_compute; reflexivity|].
  split; [vm_compute; reflexivity|].
  repeat split; vm_compute; reflexivity.
Qed.

End ParseStatsProofs.

(** ** scripts/generate_visual_report.py *)

Section VisualReportProofs.
Import PyStr VisualReport Samples.

#[local] Open Scope string_scope.

(** X27. When the nsys stats subprocess runs and exits with a non-zero
    status, extract_stats catches the CalledProcessError, prints the error
    message and returns the default dictionary: the name taken from the
    path, no duration, no top functions, zero counters. *)
Theorem extract_stats_subprocess_failure
    (run : list string -> run_outcome) (p : profile_path)
    (returncode : Z) (stdout : string) :
  run ["nsys"; "stats"; path_str p] = Exited returncode stdout ->
  returncode <> 0 ->
  extract_stats run p =
  ([ErrorExtractingStats p CalledProcessError],
   Ok {| name := stem p; duration := None; cpu_utilization := None;
         top_functions := []; context_switches := 0; samples := 0 |}).
Proof.
  intros Hrun Hrc. unfold extract_stats, subprocess_run_check. rewrite Hrun.
  destruct (Z.eqb_spec returncode 0) as [Heq|_]; [contradiction|].
  reflexivity.
Qed.

Lemma extract_stats_subprocess_failure_witness :
  failing_run ["nsys"; "stats"; path_str sample_profile] = Exited 1 "" /\
  1 <> 0 /\
  extract_stats failing_run sample_profile =
  ([ErrorExtractingStats sample_profile CalledProcessError],
   Ok {| name := stem sample_profile; duration := None;
         cpu_utilization := None; top_functions := [];
         context_switches := 0; samples := 0 |}).
Proof.
  split; [reflexivity|]. split; [lia|].
  apply (extract_stats_subprocess_failure failing_run sample_profile 1 "");
    [reflexivity | lia].
Defined.

(** C6. The claim fails on the code when the subprocess fails by not
    starting: with nsys not installed, subprocess.run raises
    FileNotFoundError, the handler of extract_stats names only
    CalledProcessError, and so for every profile path the exception leaves
    extract_stats with nothing printed and no dictionary returned. *)
Theorem extract_stats_nsys_missing (p : profile_path) :
  subprocess_run_check (missing_run ["nsys"; "stats"; path_str p]) =
    Raise FileNotFoundError /\
  extract_stats missing_run p = ([], Raise FileNotFoundError) /\
  extract_stats missing_run p <>
    ([ErrorExtractingStats p FileNotFoundError], Ok (initial_stats p)).
Proof. repeat split. discriminate. Qed.

(** X2. A command that cannot be started is not a CalledProcessError: the
    exception leaves extract_stats, and nothing is printed. *)
Lemma extract_stats_not_started
    (run : list string -> run_outcome) (p : profile_path) (e : exn) :
  run ["nsys"; "stats"; path_str p] = NotStarted e ->
  e <> CalledProcessError ->
  extract_stats run p = ([], Raise e).
Proof.
  intros Hrun He. unfold extract_stats, subprocess_run_check. rewrite Hrun.
  destruct e; try reflexivity. contradiction.
Qed.

Example extract_stats_success :
  extract_stats
    (fun _ => Exited 0
       "Duration: 3.5 s
Total samples: 100
Top Functions
 header
 12.5% main
 x% skipped

 7% outside")
    sample_profile =
  ([], Ok {| name := "py_1_basic_cpu"; duration := Some 3.5%Q;
             cpu_utilization := None; top_functions := [("main", 12.5%Q)];
             context_switches := 0; samples := 100 |}).
Proof. vm_compute. reflexivity. Qed.

(** The comparison table of [create_performance_matrix] never divides by a
    null or zero duration. *)
Lemma add_comparison_row_ok (item : string * langs) (acc : list matrix_row) :
  exists rows, add_comparison_row item acc = Ok rows.
Proof.
  destruct item as [test l]. unfold add_comparison_row.
  destruct (lang_python l) as [py|]; [|now eexists].
  destruct (lang_cpp l) as [cp|]; [|now eexists].
  unfold truthy, truediv.
  destruct (duration py) as [dp|]; [|now eexists].
  destruct (duration cp) as [dc|]; cbn; [|rewrite andb_false_r; now eexists].
  destruct (Qeq_bool dp 0); cbn; [now eexists|].
  destruct (Qeq_bool dc 0); cbn; now eexists.
Qed.

Lemma comparison_rows_ok (profile_types : list (string * langs)) :
  exists rows, comparison_rows profile_types = Ok rows.
Proof.
  unfold comparison_rows. generalize (@nil matrix_row) as acc.
  induction profile_types as [|item rest IH]; intros acc; cbn [for_each].
  - now eexists.
  - destruct (add_comparison_row_ok item acc) as [rows Hrows].
    rewrite Hrows. cbn. apply IH.
Qed.

End VisualReportProofs.

(** ** 4_nvtx_annotations.py *)

Section NvtxProofs.
Import Nvtx.

Context {Fn ndarray W : Type}.
Variables (fft half_real ifft_real : ndarray -> ndarray).

(** Used bare as a decorator, the stand-in returns the function itself. *)
Lemma decorate_bare_identity (f : Fn) : decorate_bare Fn f = Ok (OFunction f).
Proof. reflexivity. Qed.

(** Used with arguments, it returns a decorator that returns the function. *)
Lemma decorate_with_identity (message color : string) (f : Fn) :
  decorate_with Fn message color f = Ok (OFunction f).
Proof. reflexivity. Qed.

Lemma push_pop_range_noop (message color domain : obj Fn) (w : W) :
  (push_range Fn message color domain w).2 = w /\ (pop_range Fn w).2 = w.
Proof. split; reflexivity. Qed.

(** C5. The claim that the dummy annotate is a no-op in a with-statement
    fails on the code: what annotate returns for a message string is a plain
    function, outside the context manager protocol, so
    DataPipeline.transform_batch raises TypeError on every batch, while the
    body without the annotations returns the transformed batch. *)
Theorem transform_batch_dummy_raises (data : ndarray) :
  annotate Fn (OStr "FFT") (OStr "yellow") ONone = ODecorator /\
  transform_batch Fn ndarray fft half_real ifft_real data = Raise TypeError /\
  transform_batch_plain ndarray fft half_real ifft_real data =
    Ok (ifft_real (half_real (fft data))).
Proof. repeat split. Qed.

End NvtxProofs.

(** ** 5_io_bound_example.py *)

Section IOBoundProofs.
Import IOBound Samples.

Context {Env Args V : Type}.

(** C7. IOProfiler.measure returns exactly what func returns; afterwards
    results[name] is the elapsed time and every other entry is as func left
    it.  If func raises, the exception propagates and the state, results
    included, is the one func left: measure adds no entry. *)
Theorem measure_spec (name : string)
    (func : Args -> world Env -> result V * world Env) (args : Args)
    (w w1 : world Env) (r : result V) :
  func args w = (r, w1) ->
  match r with
  | Ok v =>
      exists w',
        measure Env Args V name func args w = (Ok v, w') /\
        results w' !! name = Some (now w1 - now w)%Q /\
        forall other, other <> name -> results w' !! other = results w1 !! other
  | Raise e => measure Env Args V name func args w = (Raise e, w1)
  end.
Proof.
  intros Hf. unfold measure. rewrite Hf. destruct r as [v|e]; [|reflexivity].
  eexists. split; [reflexivity|]. cbn. split.
  - apply lookup_insert_eq.
  - intros other Hne. now apply lookup_insert_ne.
Qed.

(** When func does not write the profiler's dictionary itself, the entries
    other than [name] are those from before the call. *)
Lemma measure_results (name : string)
    (func : Args -> world Env -> result V * world Env) (args : Args)
    (w : world Env) :
  results (func args w).2 = results w ->
  results (measure Env Args V name func args w).2 =
  match (func args w).1 with
  | Ok _ => <[name := (now (func args w).2 - now w)%Q]> (results w)
  | Raise _ => results w
  end.
Proof.
  intros Hframe. unfold measure.
  destruct (func args w) as [[v|e] w1]; cbn in *; now rewrite Hframe.
Qed.

End IOBoundProofs.

Section Witnesses.
Import CompareResults CompareSpec IOBound Samples.

#[local] Open Scope string_scope.

Lemma measure_spec_witness :
  slow_double 21 sample_world =
    (Ok 42%Z, mk_world tt (100 + 2)%Q {[ "Earlier" := 1%Q ]} []) /\
  exists w',
    measure unit Z Z "Doubling" slow_double 21 sample_world = (Ok 42%Z, w') /\
    results w' !! "Doubling" = Some (100 + 2 - 100)%Q /\
    forall other, other <> "Doubling" ->
      results w' !! other = ({[ "Earlier" := 1%Q ]} : gmap string Q) !! other.
Proof.
  split; [reflexivity|].
  exact (measure_spec "Doubling" slow_double 21 sample_world _ (Ok 42%Z)
           eq_refl).
Defined.

End Witnesses.

(** ** 1_basic_cpu_profiling.py: the sieve below 2 *)

Section SieveEdge.
Import BasicCpu.



End SieveEdge.

(** ** 2_matrix_operations.py: more on the products *)

Section MatrixMore.
Import MatrixOps MatrixSpec MatrixConv MatrixConvSpec.
#[local] Open Scope Q_scope.

(** X4. For non-empty rectangular matrices, optimized_matrix_multiply raises
    ValueError exactly when the inner dimensions differ, and otherwise
    returns a matrix of len(a) rows and len(b[0]) columns. *)
Theorem optimized_matrix_multiply_dimensions (a b : matrix) (ra ca rb cb : nat) :
  rectangular a ra ca -> rectangular b rb cb -> (0 < ra)%nat -> (0 < rb)%nat ->
  (optimized_matrix_multiply a b = Raise ValueError <-> ca <> rb) /\
  (ca = rb ->
   exists m, optimized_matrix_multiply a b = Ok m /\ rectangular m ra cb).
Proof.
  intros Ha Hb Hra Hrb.
  assert (Hcompat : ca = rb ->
            optimized_matrix_multiply a b = Ok (product a b ra ca cb)).
  { intros ->. apply optimized_matrix_multiply_product; assumption. }
  split; [split|].
  - intros Hraise Heq. rewrite (Hcompat Heq) in Hraise. discriminate.
  - intros Hne. unfold optimized_matrix_multiply.
    rewrite (dims_rectangular a ra ca Ha Hra). cbn.
    rewrite (dims_rectangular b rb cb Hb Hrb). cbn.
    destruct (Z.eqb_spec (Z.of_nat ca) (Z.of_nat rb)) as [Heq|_]; [lia|].
    reflexivity.
  - intros Heq. eexists. split; [exact (Hcompat Heq)|].
    apply rectangular_tabulate.
Qed.

Lemma optimized_matrix_multiply_dimensions_witness :
  rectangular [[1; 2]; [3; 4]] 2 2 /\ rectangular [[5; 6; 7]] 1 3 /\
  (0 < 2)%nat /\ (0 < 1)%nat /\
  ((optimized_matrix_multiply [[1; 2]; [3; 4]] [[5; 6; 7]] = Raise ValueError
    <-> 2%nat <> 1%nat) /\
   (2%nat = 1%nat ->
    exists m,
      optimized_matrix_multiply [[1; 2]; [3; 4]] [[5; 6; 7]] = Ok m /\
      rectangular m 2 3)).
Proof.
  assert (Ha : rectangular [[1; 2]; [3; 4]] 2 2)
    by (split; [reflexivity | repeat constructor]).
  assert (Hb : rectangular [[5; 6; 7]] 1 3)
    by (split; [reflexivity | repeat constructor]).
  split; [exact Ha|]. split; [exact Hb|]. split; [lia|]. split; [lia|].
  apply (optimized_matrix_multiply_dimensions _ _ 2 2 1 3 Ha Hb); lia.
Defined.

Lemma entry_identity (n i j : nat) :
  (i < n)%nat -> (j < n)%nat ->
  entry (identity n) i j = if decide (i = j) then 1 else 0.
Proof.
  intros Hi Hj. unfold entry, identity. now rewrite cell_tabulate by assumption.
Qed.

Lemma dot_upto_identity (a : matrix) (n i j k : nat) :
  (j < n)%nat -> (k <= n)%nat ->
  dot_upto a (identity n) i j k == if decide (j < k)%nat then entry a i j else 0.
Proof.
  intros Hj. induction k as [|k IH]; intros Hk; cbn [dot_upto].
  - reflexivity.
  - rewrite IH by lia. rewrite entry_identity by lia.
    destruct (decide (k = j)) as [->|Hne].
    + rewrite decide_False by lia. rewrite decide_True by lia. ring.
    + destruct (decide (j < k)%nat); destruct (decide (j < S k)%nat);
        try lia; ring.
Qed.

(** X5. Multiplying by the identity gives the matrix back: every entry of
    naive_matrix_multiply(a, I) equals the entry of a (as a number). *)
Theorem naive_matrix_multiply_identity (a : matrix) (ra n : nat) :
  rectangular a ra n -> (0 < ra)%nat -> (0 < n)%nat ->
  exists m,
    naive_matrix_multiply a (identity n) = Ok m /\
    rectangular m ra n /\
    forall i j, (i < ra)%nat -> (j < n)%nat -> entry m i j == entry a i j.
Proof.
  intros Ha Hra Hn.
  pose proof (rectangular_tabulate (fun i j => if decide (i = j) then 1 else 0) n n)
    as Hid.
  exists (product a (identity n) ra n n). split; [|split].
  - apply naive_matrix_multiply_product; assumption.
  - apply rectangular_tabulate.
  - intros i j Hi Hj. unfold entry at 1, product.
    rewrite cell_tabulate by assumption. cbn.
    rewrite dot_upto_identity by lia. now rewrite decide_True by lia.
Qed.

Lemma naive_matrix_multiply_identity_witness :
  rectangular [[1; 2]; [3; 4]; [5; 6]] 3 2 /\ (0 < 3)%nat /\ (0 < 2)%nat /\
  exists m,
    naive_matrix_multiply [[1; 2]; [3; 4]; [5; 6]] (identity 2) = Ok m /\
    rectangular m 3 2 /\
    forall i j, (i < 3)%nat -> (j < 2)%nat ->
      entry m i j == entry [[1; 2]; [3; 4]; [5; 6]] i j.
Proof.
  assert (Ha : rectangular [[1; 2]; [3; 4]; [5; 6]] 3 2)
    by (split; [reflexivity | repeat constructor]).
  split; [exact Ha|]. split; [lia|]. split; [lia|].
  apply (naive_matrix_multiply_identity _ 3 2 Ha); lia.
Defined.

End MatrixMore.

(** ** 2_matrix_operations.py: the convolution *)

Lemma py_range_to_nat (stop : Z) :
  py_range 0 stop 1 = py_range 0 (Z.of_nat (Z.to_nat stop)) 1.
Proof. unfold py_range. f_equal. rewrite !Z.div_1_r. lia. Qed.

Section ConvolutionProofs.
Import MatrixOps MatrixSpec MatrixConv MatrixConvSpec.
#[local] Open Scope Q_scope.

Variables (mat kernel : matrix) (mr mc kr kc : nat).
Hypothesis mat_rect : rectangular mat mr mc.
Hypothesis kernel_rect : rectangular kernel kr kc.

(** The output dimensions, cut off at zero. *)
Let r : nat := (mr + 1 - kr)%nat.
Let c : nat := (mc + 1 - kc)%nat.

Lemma conv_kernel_row (res : matrix) (i j ki : nat) (v : Q) :
  rectangular res r c -> (i < r)%nat -> (j < c)%nat -> (ki < kr)%nat ->
  cell res i j = Some v ->
  exists res',
    for_each (py_range 0 (Z.of_nat kc) 1)
      (fun kj res =>
         row ← getitem res (Z.of_nat i);
         old ← getitem row (Z.of_nat j);
         mrow ← getitem mat (Z.of_nat i + Z.of_nat ki)%Z;
         mv ← getitem mrow (Z.of_nat j + kj)%Z;
         krow ← getitem kernel (Z.of_nat ki);
         kv ← getitem krow kj;
         row' ← setitem row (Z.of_nat j) (old + mv * kv);
         setitem res (Z.of_nat i) row') res = Ok res' /\
    only_cell res r c i j (conv_row mat kernel i j ki v kc) res'.
Proof.
  intros Hres Hi Hj Hki Hv. subst r c.
  apply (for_range_inv _
           (fun kj res' =>
              only_cell res (mr + 1 - kr) (mc + 1 - kc) i j
                (conv_row mat kernel i j ki v kj) res')).
  - split; [exact Hres|]. intros i' j'.
    destruct (decide (i' = i /\ j' = j)) as [[-> ->]|_]; [exact Hv|reflexivity].
  - intros kj res1 Hkj [Hrect Hcells].
    destruct (getitem_row res1 _ _ i Hrect Hi) as (row & Hget & Hrow & Hlen).
    destruct (getitem_row mat mr mc (i + ki) mat_rect ltac:(lia))
      as (mrow & Hgetm & Hmrow & Hlenm).
    destruct (getitem_row kernel kr kc ki kernel_rect Hki)
      as (krow & Hgetk & Hkrow & Hlenk).
    assert (Hold : entry res1 i j = conv_row mat kernel i j ki v kj).
    { unfold entry. rewrite Hcells. now rewrite decide_True by tauto. }
    destruct (setcell_spec res1 _ _ i j
                (conv_row mat kernel i j ki v kj +
                 entry mat (i + ki) (j + kj) * entry kernel ki kj)
                Hrect Hi Hj) as (res2 & Hset & Hrect2 & Hc2).
    unfold setcell in Hset. rewrite Hget in Hset. cbn in Hset.
    rewrite Hget. cbn.
    rewrite (getitem_entry res1 row i j Hrow) by lia. cbn.
    replace (Z.of_nat i + Z.of_nat ki)%Z with (Z.of_nat (i + ki)) by lia.
    rewrite Hgetm. cbn.
    replace (Z.of_nat j + Z.of_nat kj)%Z with (Z.of_nat (j + kj)) by lia.
    rewrite (getitem_entry mat mrow (i + ki) (j + kj) Hmrow) by lia. cbn.
    rewrite Hgetk. cbn.
    rewrite (getitem_entry kernel krow ki kj Hkrow) by lia. cbn.
    rewrite Hold.
    exists res2. split; [exact Hset|]. split; [exact Hrect2|].
    intros i' j'. rewrite Hc2.
    destruct (decide (i' = i /\ j' = j)); [reflexivity|].
    rewrite Hcells. now rewrite decide_False by assumption.
Qed.

Lemma conv_cell (res : matrix) (i j : nat) :
  rectangular res r c -> (i < r)%nat -> (j < c)%nat ->
  cell res i j = Some 0 ->
  exists res',
    for_each (py_range 0 (Z.of_nat kr) 1)
      (fun ki res =>
         for_each (py_range 0 (Z.of_nat kc) 1)
           (fun kj res =>
              row ← getitem res (Z.of_nat i);
              old ← getitem row (Z.of_nat j);
              mrow ← getitem mat (Z.of_nat i + ki)%Z;
              mv ← getitem mrow (Z.of_nat j + kj)%Z;
              krow ← getitem kernel ki;
              kv ← getitem krow kj;
              row' ← setitem row (Z.of_nat j) (old + mv * kv);
              setitem res (Z.of_nat i) row') res) res = Ok res' /\
    rectangular res' r c /\
    forall i' j',
      cell res' i' j' =
      if decide (i' = i /\ j' = j) then Some (conv_window mat kernel kc i j kr)
      else cell res i' j'.
Proof.
  intros Hres Hi Hj H0.
  apply (for_range_inv _
           (fun ki res' =>
              only_cell res r c i j (conv_window mat kernel kc i j ki) res')).
  - split; [exact Hres|]. intros i' j'.
    destruct (decide (i' = i /\ j' = j)) as [[-> ->]|_]; [exact H0|reflexivity].
  - intros ki res1 Hki [Hrect Hcells].
    assert (Hv : cell res1 i j = Some (conv_window mat kernel kc i j ki)).
    { rewrite Hcells. now rewrite decide_True by tauto. }
    destruct (conv_kernel_row res1 i j ki _ Hrect Hi Hj Hki Hv)
      as (res2 & Hrun & Hrect2 & Hc2).
    exists res2. split; [exact Hrun|]. split; [exact Hrect2|].
    intros i' j'. rewrite Hc2.
    destruct (decide (i' = i /\ j' = j)); [reflexivity|].
    rewrite Hcells. now rewrite decide_False by assumption.
Qed.

Lemma matrix_convolution_window :
  (0 < mr)%nat -> (0 < kr)%nat ->
  matrix_convolution mat kernel =
  Ok (tabulate (fun i j => conv_window mat kernel kc i j kr) r c).
Proof.
  intros Hmr Hkr. unfold matrix_convolution.
  rewrite (dims_rectangular mat mr mc mat_rect Hmr). cbn.
  rewrite (dims_rectangular kernel kr kc kernel_rect Hkr). cbn.
  rewrite (py_range_to_nat (Z.of_nat mr - Z.of_nat kr + 1)).
  rewrite (py_range_to_nat (Z.of_nat mc - Z.of_nat kc + 1)).
  replace (Z.to_nat (Z.of_nat mr - Z.of_nat kr + 1)) with r by (subst r; lia).
  replace (Z.to_nat (Z.of_nat mc - Z.of_nat kc + 1)) with c by (subst c; lia).
  apply (fill_all r c (fun i j => conv_window mat kernel kc i j kr)
           (fun i j res =>
              for_each (py_range 0 (Z.of_nat kr) 1)
                (fun ki res =>
                   for_each (py_range 0 (Z.of_nat kc) 1)
                     (fun kj res =>
                        row ← getitem res i;
                        old ← getitem row j;
                        mrow ← getitem mat (i + ki)%Z;
                        mv ← getitem mrow (j + kj)%Z;
                        krow ← getitem kernel ki;
                        kv ← getitem krow kj;
                        row' ← setitem row j (old + mv * kv);
                        setitem res i row') res) res)).
  intros res i j Hres Hi Hj H0. exact (conv_cell res i j Hres Hi Hj H0).
Qed.

End ConvolutionProofs.

Section ConvolutionTheorems.
Import MatrixOps MatrixSpec MatrixConv MatrixConvSpec.
#[local] Open Scope Q_scope.

(** X6. For a non-empty rectangular matrix (mr by mc) and kernel (kr by kc),
    matrix_convolution never raises: it returns a rectangular matrix of
    max(0, mr-kr+1) rows and max(0, mc-kc+1) columns whose entry (i, j) is the
    sum of matrix[i+ki][j+kj] * kernel[ki][kj] over the kernel, added row by
    row from the left. *)
Theorem matrix_convolution_spec (mat kernel : matrix) (mr mc kr kc : nat) :
  rectangular mat mr mc -> rectangular kernel kr kc ->
  (0 < mr)%nat -> (0 < kr)%nat ->
  exists res,
    matrix_convolution mat kernel = Ok res /\
    rectangular res (mr + 1 - kr) (mc + 1 - kc) /\
    forall i j, (i < mr + 1 - kr)%nat -> (j < mc + 1 - kc)%nat ->
      cell res i j = Some (conv_window mat kernel kc i j kr).
Proof.
  intros Hm Hk Hmr Hkr. eexists. split; [|split].
  - apply (matrix_convolution_window mat kernel mr mc kr kc Hm Hk Hmr Hkr).
  - apply rectangular_tabulate.
  - intros i j Hi Hj.
    now apply (cell_tabulate (fun i j => conv_window mat kernel kc i j kr)).
Qed.

Lemma matrix_convolution_spec_witness :
  rectangular [[1; 2; 3]; [4; 5; 6]; [7; 8; 9]] 3 3 /\
  rectangular [[1; 0]; [0; -1]] 2 2 /\ (0 < 3)%nat /\ (0 < 2)%nat /\
  exists res,
    matrix_convolution [[1; 2; 3]; [4; 5; 6]; [7; 8; 9]] [[1; 0]; [0; -1]]
      = Ok res /\
    rectangular res (3 + 1 - 2) (3 + 1 - 2) /\
    forall i j, (i < 3 + 1 - 2)%nat -> (j < 3 + 1 - 2)%nat ->
      cell res i j =
      Some (conv_window [[1; 2; 3]; [4; 5; 6]; [7; 8; 9]] [[1; 0]; [0; -1]]
              2 i j 2).
Proof.
  assert (Hm : rectangular [[1; 2; 3]; [4; 5; 6]; [7; 8; 9]] 3 3)
    by (split; [reflexivity | repeat constructor]).
  assert (Hk : rectangular [[1; 0]; [0; -1]] 2 2)
    by (split; [reflexivity | repeat constructor]).
  split; [exact Hm|]. split; [exact Hk|]. split; [lia|]. split; [lia|].
  apply (matrix_convolution_spec _ _ 3 3 2 2 Hm Hk); lia.
Defined.

(** X7. A kernel with more rows than the matrix gives the empty list, and one
    that fits in rows but has more columns gives rows that are all empty;
    neither case raises. *)
Theorem matrix_convolution_large_kernel (mat kernel : matrix)
    (mr mc kr kc : nat) :
  rectangular mat mr mc -> rectangular kernel kr kc ->
  (0 < mr)%nat -> (0 < kr)%nat ->
  (mr < kr)%nat \/ (mc < kc)%nat ->
  matrix_convolution mat kernel = Ok (replicate (mr + 1 - kr) []).
Proof.
  intros Hm Hk Hmr Hkr Hlarge.
  rewrite (matrix_convolution_window mat kernel mr mc kr kc Hm Hk Hmr Hkr).
  f_equal. unfold tabulate.
  destruct (decide (mr < kr)%nat) as [Hrows|Hrows].
  - now replace (mr + 1 - kr)%nat with 0%nat by lia.
  - replace (mc + 1 - kc)%nat with 0%nat by lia. cbn.
    generalize (mr + 1 - kr)%nat as n. intros n.
    generalize 0%nat as start.
    induction n as [|n IH]; intros start; [reflexivity|].
    cbn. f_equal. apply IH.
Qed.

Lemma matrix_convolution_large_kernel_witness :
  rectangular [[1; 2]; [3; 4]] 2 2 /\ rectangular [[1; 1; 1]] 1 3 /\
  (0 < 2)%nat /\ (0 < 1)%nat /\ ((2 < 1)%nat \/ (2 < 3)%nat) /\
  matrix_convolution [[1; 2]; [3; 4]] [[1; 1; 1]] = Ok (replicate (2 + 1 - 1) []).
Proof.
  assert (Hm : rectangular [[1; 2]; [3; 4]] 2 2)
    by (split; [reflexivity | repeat constructor]).
  assert (Hk : rectangular [[1; 1; 1]] 1 3)
    by (split; [reflexivity | repeat constructor]).
  split; [exact Hm|]. split; [exact Hk|]. split; [lia|]. split; [lia|].
  split; [right; lia|].
  apply (matrix_convolution_large_kernel _ _ 2 2 1 3 Hm Hk); lia.
Defined.

(** X8. Convolution with a 1 by 1 kernel [[k]] keeps the dimensions and
    multiplies every entry by k. *)
Theorem matrix_convolution_scalar_kernel (mat : matrix) (mr mc : nat) (k : Q) :
  rectangular mat mr mc -> (0 < mr)%nat ->
  exists res,
    matrix_convolution mat [[k]] = Ok res /\
    rectangular res mr mc /\
    forall i j, (i < mr)%nat -> (j < mc)%nat ->
      entry res i j == entry mat i j * k.
Proof.
  intros Hm Hmr.
  assert (Hk : rectangular [[k]] 1 1) by (split; [reflexivity | repeat constructor]).
  exists (tabulate (fun i j => conv_window mat [[k]] 1 i j 1) mr mc).
  split; [|split].
  - rewrite (matrix_convolution_window mat [[k]] mr mc 1 1 Hm Hk Hmr) by lia.
    now replace (mr + 1 - 1)%nat with mr by lia;
      replace (mc + 1 - 1)%nat with mc by lia.
  - apply rectangular_tabulate.
  - intros i j Hi Hj. unfold entry at 1.
    rewrite (cell_tabulate (fun i j => conv_window mat [[k]] 1 i j 1))
      by assumption.
    cbn [default conv_window conv_row]. rewrite !Nat.add_0_r.
    change (entry [[k]] 0 0) with k. unfold id. ring.
Qed.

Lemma matrix_convolution_scalar_kernel_witness :
  rectangular [[1; 2]; [3; 4]] 2 2 /\ (0 < 2)%nat /\
  exists res,
    matrix_convolution [[1; 2]; [3; 4]] [[1 # 2]] = Ok res /\
    rectangular res 2 2 /\
    forall i j, (i < 2)%nat -> (j < 2)%nat ->
      entry res i j == entry [[1; 2]; [3; 4]] i j * (1 # 2).
Proof.
  assert (Hm : rectangular [[1; 2]; [3; 4]] 2 2)
    by (split; [reflexivity | repeat constructor]).
  split; [exact Hm|]. split; [lia|].
  apply (matrix_convolution_scalar_kernel _ 2 2 (1 # 2) Hm); lia.
Defined.

End ConvolutionTheorems.

(** ** 1_basic_cpu_profiling.py: string_operations *)

Section StringOperationsProofs.
Import BasicCpuStrings.

#[local] Open Scope string_scope.

Lemma range_from_app (start step : Z) (n m : nat) :
  range_from start step (n + m) =
  (range_from start step n ++ range_from (start + Z.of_nat n * step) step m)%list.
Proof.
  revert start. induction n as [|n IH]; intros start; cbn [range_from Nat.add].
  - cbn. f_equal. lia.
  - rewrite IH. cbn. do 3 f_equal. lia.
Qed.

Lemma length_range_from (start step : Z) (n : nat) :
  length (range_from start step n) = n.
Proof. revert start. induction n as [|n IH]; intros start; cbn; auto. Qed.

Lemma fold_left_append {A B : Type} (f : A -> B) (l : list A) (acc : list B) :
  fold_left (fun acc x => (acc ++ [f x])%list) l acc = (acc ++ (f <$> l))%list.
Proof.
  revert acc. induction l as [|x l IH]; intros acc; cbn.
  - now rewrite app_nil_r.
  - rewrite IH. now rewrite <- app_assoc.
Qed.

(** X9. string_operations concatenates only the first hundred strings, so for
    every size of at least 100 the result is the same, 15900. *)
Theorem string_operations_cap (size : Z) :
  100 <= size -> string_operations size = 15900.
Proof.
  intros Hsize. unfold string_operations.
  rewrite (fold_left_append
             (fun i => replace " " "_"
                         (lower (upper (py_repeat ("String number " ++ py_str_int i) 10))))).
  rewrite py_range_to_nat, py_range_0.
  replace (Z.to_nat size) with (100 + (Z.to_nat size - 100))%nat by lia.
  rewrite range_from_app, fmap_app. cbn [app].
  rewrite take_app_length' by now rewrite length_fmap, length_range_from.
  vm_compute. reflexivity.
Qed.

Lemma string_operations_cap_witness :
  100 <= 10000 /\ string_operations 10000 = 15900.
Proof. split; [lia | apply (string_operations_cap 10000); lia]. Defined.

End StringOperationsProofs.

(** ** scripts/generate_visual_report.py: the collected data *)

Section ReportDataProofs.
Import PyStr VisualReport VisualReportMore VisualReportSpec.

#[local] Open Scope string_scope.

Lemma add_comparison_row_rows (item : string * langs) (acc : list matrix_row) :
  Forall row_ok acc ->
  exists rows, add_comparison_row item acc = Ok rows /\ Forall row_ok rows.
Proof.
  intros Hacc. destruct item as [test l]. unfold add_comparison_row.
  destruct (lang_python l) as [py|]; [|now eexists].
  destruct (lang_cpp l) as [cp|]; [|now eexists].
  unfold truthy, truediv.
  destruct (duration py) as [dp|]; [|now eexists].
  destruct (duration cp) as [dc|]; cbn; [|rewrite andb_false_r; now eexists].
  destruct (Qeq_bool dp 0); cbn; [now eexists|].
  destruct (Qeq_bool dc 0) eqn:Hdc; cbn; [now eexists|].
  eexists. split; [reflexivity|].
  apply Forall_app. split; [exact Hacc|].
  constructor; [|constructor]. split; cbn; [|reflexivity].
  intros Hz. apply Qeq_bool_iff in Hz. congruence.
Qed.

(** X10. The comparison loop of create_performance_matrix never fails, whatever
    the grouped profiles: it returns rows whose C++ time is not zero and whose
    speedup is the Python time divided by the C++ time. *)
Theorem comparison_rows_well_formed (profile_types : list (string * langs)) :
  exists rows, comparison_rows profile_types = Ok rows /\ Forall row_ok rows.
Proof.
  unfold comparison_rows.
  assert (H : forall acc, Forall row_ok acc ->
            exists rows,
              for_each profile_types add_comparison_row acc = Ok rows /\
              Forall row_ok rows).
  { induction profile_types as [|item rest IH]; intros acc Hacc; cbn [for_each].
    - now exists acc.
    - destruct (add_comparison_row_rows item acc Hacc) as (rows & Hrows & Hok).
      rewrite Hrows. cbn. now apply IH. }
  apply H. constructor.
Qed.

Lemma bind_Ok {A B : Type} (c : result A) (k : A -> result B) (b : B) :
  c ≫= k = Ok b -> exists a, c = Ok a /\ k a = Ok b.
Proof. destruct c as [a|e]; cbn; [now exists a | discriminate]. Qed.

Lemma try_pass_name (c : result profile_stats) (st : profile_stats) :
  (forall st', c = Ok st' -> name st' = name st) ->
  name (try_pass c st) = name st.
Proof. intros H. destruct c as [st'|e]; cbn; [now apply H|reflexivity]. Qed.

Lemma parse_row_name (st : profile_stats) (row : string) :
  name (parse_row st row) = name st.
Proof.
  unfold parse_row. destruct (split_ws row) as [|p0 [|p1 parts]]; try reflexivity.
  destruct (contains "%" p0); [|reflexivity].
  apply try_pass_name. intros st' H.
  apply bind_Ok in H as (q & _ & [= <-]). reflexivity.
Qed.

Lemma fold_parse_row_name (rows : list string) (st : profile_stats) :
  name (fold_left parse_row rows st) = name st.
Proof.
  revert st. induction rows as [|row rows IH]; intros st; cbn; [reflexivity|].
  now rewrite IH, parse_row_name.
Qed.

Lemma parse_line_name (lines : list string) (st : profile_stats)
    (indexed : nat * string) :
  name (parse_line lines st indexed) = name st.
Proof.
  destruct indexed as [i line]. unfold parse_line.
  set (st1 := if contains "Duration:" line then _ else st).
  assert (H1 : name st1 = name st).
  { subst st1. destruct (contains "Duration:" line); [|reflexivity].
    apply try_pass_name. intros st' H.
    apply bind_Ok in H as (after & _ & H).
    apply bind_Ok in H as (token & _ & H).
    apply bind_Ok in H as (d & _ & [= <-]). reflexivity. }
  set (st2 := if contains "Top Functions" line || contains "CPU Functions" line
              then _ else st1).
  assert (H2 : name st2 = name st).
  { subst st2. destruct (_ || _); [|exact H1].
    now rewrite fold_parse_row_name. }
  destruct (contains "Total samples:" line); [|exact H2].
  rewrite try_pass_name; [exact H2|]. intros st' H.
  apply bind_Ok in H as (field & _ & H).
  apply bind_Ok in H as (n & _ & [= <-]). reflexivity.
Qed.

Lemma parse_output_name (stdout : string) (st : profile_stats) :
  name (parse_output stdout st) = name st.
Proof.
  unfold parse_output.
  generalize (imap (fun (i : nat) (line : string) => (i, line))
                (split (String "010" EmptyString) stdout)) as items.
  generalize (split (String "010" EmptyString) stdout) as lines.
  intros lines items. revert st.
  induction items as [|item items IH]; intros st; cbn; [reflexivity|].
  now rewrite IH, parse_line_name.
Qed.

Lemma extract_stats_exited (run : list string -> run_outcome) (p : profile_path)
    (returncode : Z) (stdout : string) :
  run ["nsys"; "stats"; path_str p] = Exited returncode stdout ->
  exists out st,
    extract_stats run p = (out, Ok st) /\ name st = stem p /\
    (duration st <> None -> returncode = 0).
Proof.
  intros Hrun. unfold extract_stats, subprocess_run_check. rewrite Hrun.
  destruct (Z.eqb_spec returncode 0) as [->|Hne].
  - eexists _, _. split; [reflexivity|]. split; [|reflexivity].
    apply parse_output_name.
  - eexists _, _. split; [reflexivity|]. split; [reflexivity|].
    cbn. congruence.
Qed.

Lemma analyze_profiles_loop (run : list string -> run_outcome)
    (profiles all : list profile_path) (log : list report_line)
    (acc : list profile_stats) :
  (forall p, p ∈ profiles ->
     exists returncode stdout,
       run ["nsys"; "stats"; path_str p] = Exited returncode stdout) ->
  profiles ⊆ all ->
  Forall (kept_profile run all) acc ->
  exists log' data,
    analyze_profiles run profiles log acc = (log', Ok data) /\
    Forall (kept_profile run all) data.
Proof.
  revert log acc. induction profiles as [|p rest IH]; intros log acc Hrun Hsub Hacc.
  - now exists log, acc.
  - destruct (Hrun p ltac:(left)) as (rc & stdout & Hp).
    destruct (extract_stats_exited run p rc stdout Hp)
      as (out & st & Hex & Hname & Hdur).
    cbn [analyze_profiles]. rewrite Hex.
    apply IH.
    + intros q Hq. apply Hrun. now right.
    + intros q Hq. apply Hsub. now right.
    + destruct (duration st) as [d|] eqn:Hd; [|exact Hacc].
      apply Forall_app. split; [exact Hacc|].
      constructor; [|constructor]. split; [congruence|].
      exists p, stdout. split; [apply Hsub; left|]. split; [exact Hname|].
      rewrite Hp. f_equal. apply Hdur. congruence.
Qed.

(** X11. When nsys can be started for every profile, the collecting loop of
    generate_report returns, and each profile it keeps has a duration and
    belongs to a path whose "nsys stats" exited with status 0: profiles whose
    command failed are left out of the report. *)
Theorem analyze_profiles_kept (run : list string -> run_outcome)
    (profiles : list profile_path) :
  (forall p, p ∈ profiles ->
     exists returncode stdout,
       run ["nsys"; "stats"; path_str p] = Exited returncode stdout) ->
  exists log data,
    analyze_profiles run profiles [] [] = (log, Ok data) /\
    Forall (kept_profile run profiles) data.
Proof.
  intros Hrun.
  apply (analyze_profiles_loop run profiles profiles [] [] Hrun); [done|constructor].
Qed.

Lemma analyze_profiles_kept_witness :
  (forall p, p ∈ [Samples.sample_profile] ->
     exists returncode stdout,
       Samples.failing_run ["nsys"; "stats"; path_str p] =
       Exited returncode stdout) /\
  exists log data,
    analyze_profiles Samples.failing_run [Samples.sample_profile] [] [] =
      (log, Ok data) /\
    Forall (kept_profile Samples.failing_run [Samples.sample_profile]) data.
Proof.
  assert (H : forall p, p ∈ [Samples.sample_profile] ->
            exists returncode stdout,
              Samples.failing_run ["nsys"; "stats"; path_str p] =
              Exited returncode stdout)
    by (intros p _; now exists 1, "").
  split; [exact H|].
  exact (analyze_profiles_kept Samples.failing_run [Samples.sample_profile] H).
Defined.

Lemma length_substring_le (n m : nat) (s : string) :
  (String.length (substring n m s) <= m)%nat.
Proof.
  revert n m. induction s as [|c s IH]; intros n m.
  - destruct n, m; cbn; lia.
  - destruct n as [|n]; cbn.
    + destruct m as [|m]; cbn; [lia|]. specialize (IH 0%nat m). lia.
    + apply IH.
Qed.

Lemma length_string_app (s t : string) :
  String.length (s ++ t) = (String.length s + String.length t)%nat.
Proof. induction s as [|c s IH]; simpl; [reflexivity | now rewrite IH]. Qed.

Lemma chart_label_length (fname : string) :
  (String.length (chart_label fname) <= 53)%nat.
Proof.
  unfold chart_label, str_take.
  destruct (Nat.ltb_spec 50 (String.length fname)) as [Hlong|Hshort].
  - rewrite length_string_app. pose proof (length_substring_le 0 50 fname).
    cbn. lia.
  - lia.
Qed.

Lemma length_slice_to {A : Type} (n : Z) (l : list A) :
  0 <= n -> (Z.of_nat (length (slice_to n l)) <= n)%Z.
Proof.
  intros Hn. unfold slice_to. destruct (Z.leb_spec 0 n); [|lia].
  rewrite length_take. lia.
Qed.

(** X12. The chart of hot functions never gets more than top_n bars (for a
    non-negative top_n), has one percentage per label, and no label is longer
    than 53 characters. *)
Theorem hot_functions_data_bounds (available : bool)
    (profile_data : profile_stats) (top_n : Z)
    (labels : list string) (percentages : list Q) :
  0 <= top_n ->
  hot_functions_data available profile_data top_n = Some (labels, percentages) ->
  length labels = length percentages /\
  (0 < Z.of_nat (length labels) <= top_n)%Z /\
  (length labels <= length (top_functions profile_data))%nat /\
  Forall (fun label => (String.length label <= 53)%nat) labels.
Proof.
  intros Hn. unfold hot_functions_data.
  destruct (negb available || bool_decide (top_functions profile_data = []));
    [discriminate|].
  destruct (bool_decide_reflect (slice_to top_n (top_functions profile_data) = []))
    as [|Hne]; [discriminate|].
  intros [= <- <-]. rewrite !length_fmap.
  pose proof (length_slice_to top_n (top_functions profile_data) Hn) as Hlen.
  split; [reflexivity|]. split; [|split].
  - split; [|exact Hlen].
    destruct (slice_to top_n (top_functions profile_data)); [contradiction|cbn; lia].
  - unfold slice_to. destruct (Z.leb_spec 0 top_n); [|lia].
    rewrite length_take. lia.
  - apply Forall_fmap, Forall_forall. intros x _. apply chart_label_length.
Qed.

Lemma hot_functions_data_bounds_witness :
  0 <= 1 /\
  hot_functions_data true
    {| name := "p"; duration := None; cpu_utilization := None;
       top_functions := [("main", 60%Q); ("helper", 40%Q)];
       context_switches := 0; samples := 0 |} 1 = Some (["main"], [60%Q]) /\
  (length ["main"] = length [60%Q] /\
   (0 < Z.of_nat (length ["main"]) <= 1)%Z /\
   (length ["main"] <= length [("main", 60%Q); ("helper", 40%Q)])%nat /\
   Forall (fun label => (String.length label <= 53)%nat) ["main"]).
Proof.
  split; [lia|]. split; [reflexivity|].
  apply (hot_functions_data_bounds true
           {| name := "p"; duration := None; cpu_utilization := None;
              top_functions := [("main", 60%Q); ("helper", 40%Q)];
              context_switches := 0; samples := 0 |} 1 ["main"] [60%Q]);
    [lia | reflexivity].
Defined.

End ReportDataProofs.

(** ** 4_nvtx_annotations.py: ranges and the cache *)

Section RangesProofs.
Import NvtxRanges NvtxRangesSpec.

#[local] Open Scope string_scope.

Lemma open_ranges_app (depth : nat) (evs1 evs2 : list event) :
  open_ranges depth (evs1 ++ evs2) =
  open_ranges depth evs1 ≫= fun d => open_ranges d evs2.
Proof.
  revert depth. induction evs1 as [|e evs1 IH]; intros depth; [reflexivity|].
  destruct e; cbn; [apply IH | | apply IH].
  destruct depth; [reflexivity | apply IH].
Qed.

Lemma neutral_nil : neutral [].
Proof. intros depth. reflexivity. Qed.

Lemma neutral_app (evs1 evs2 : list event) :
  neutral evs1 -> neutral evs2 -> neutral (evs1 ++ evs2).
Proof.
  intros H1 H2 depth. rewrite open_ranges_app, H1. cbn. apply H2.
Qed.

Lemma neutral_range (message color : string) (evs : list event) :
  neutral evs -> neutral (PushRange message color :: evs ++ [PopRange]).
Proof.
  intros H depth. cbn. rewrite open_ranges_app, H. reflexivity.
Qed.

Lemma neutral_print (name : string) (elapsed : Q) :
  neutral [PrintTiming name elapsed].
Proof. intros depth. reflexivity. Qed.

Context {Env Args V ndarray : Type}.

(** X13. The wrapper of profile_function passes the result or the exception of
    func through unchanged, and closes its range and prints the timing in
    both cases: if the events of func are balanced, so are those of the
    wrapper. *)
Theorem profile_function_balanced (name : option string)
    (color func_name : string)
    (func : Args -> world Env -> result V * world Env) (args : Args)
    (w w1 : world Env) (r : result V) (evs : list event) :
  func args (emit w (PushRange (name_or name func_name) color)) = (r, w1) ->
  events w1 =
    (events w ++ PushRange (name_or name func_name) color :: evs)%list ->
  neutral evs ->
  exists w' evs',
    profile_function Env Args V name color func_name func args w = (r, w') /\
    env w' = env w1 /\
    events w' = (events w ++ evs')%list /\
    last evs' =
      Some (PrintTiming (name_or name func_name) (now w1 - now w)%Q) /\
    neutral evs'.
Proof.
  intros Hf Hevs Hneutral. unfold profile_function. rewrite Hf.
  eexists _, (PushRange (name_or name func_name) color :: evs ++ [PopRange]
              ++ [PrintTiming (name_or name func_name) (now w1 - now w)%Q])%list.
  split; [reflexivity|]. split; [reflexivity|]. split; [|split].
  - cbn. rewrite Hevs. rewrite <- !app_assoc. reflexivity.
  - rewrite app_comm_cons, app_assoc. apply last_snoc.
  - rewrite app_comm_cons, app_assoc. apply neutral_app.
    + now apply neutral_range.
    + apply neutral_print.
Qed.

Lemma train_epochs_balanced (predict : ndarray -> ndarray -> ndarray)
    (descend : ndarray -> ndarray -> ndarray -> ndarray) (data : ndarray)
    (epochs : list Z) (st : ndarray * world Env) :
  exists evs,
    events (fold_left (train_epoch ndarray Env predict descend data) epochs st).2
    = (events st.2 ++ evs)%list /\
    neutral evs.
Proof.
  revert st. induction epochs as [|epoch epochs IH]; intros st; cbn [fold_left].
  - exists []. split; [now rewrite app_nil_r | apply neutral_nil].
  - destruct (IH (train_epoch ndarray Env predict descend data st epoch))
      as (evs & Hevs & Hneutral).
    destruct st as [weights w]. cbn in *.
    eexists. split.
    + rewrite Hevs. rewrite <- !app_assoc. cbn. reflexivity.
    + intros depth. cbn. apply Hneutral.
Qed.

(** X14. On data for which the numpy computations succeed, train_model
    returns the weights and leaves the NVTX ranges balanced: whatever the
    number of epochs, every range it pushes is popped, and no pop comes
    before its push. *)
Theorem train_model_balanced
    (init_weights : ndarray -> Env -> ndarray * Env)
    (predict : ndarray -> ndarray -> ndarray)
    (descend : ndarray -> ndarray -> ndarray -> ndarray)
    (data : ndarray) (epochs : Z) (w : world Env) :
  exists weights w' evs,
    train_model ndarray Env init_weights predict descend data epochs w =
      (Ok weights, w') /\
    events w' = (events w ++ evs)%list /\
    neutral evs.
Proof.
  unfold train_model, profile_function, train_model_body. cbn.
  destruct (init_weights data (env w)) as [weights0 e0].
  set (w0 := {| env := e0; now := now w;
                events := (events w ++ [PushRange "ModelTraining" "purple"])%list |}).
  destruct (train_epochs_balanced predict descend data (py_range 0 epochs 1)
              (weights0, w0)) as (evs & Hevs & Hneutral).
  destruct (fold_left _ _ _) as [weights w1] eqn:Hfold. cbn in Hevs.
  eexists weights, _, _. split; [reflexivity|]. cbn. split.
  - rewrite Hevs. rewrite <- !app_assoc. cbn. reflexivity.
  - intros depth. cbn. rewrite open_ranges_app, Hneutral. reflexivity.
Qed.

Variables (sleep : Env -> Env) (randn : Z -> Z -> Env -> ndarray * Env).

(** X15. DataPipeline.load_batch caches: once a batch has been loaded, loading
    it again returns the same array and changes neither the pipeline nor the
    environment (no sleep, no random draw); the other cache entries are the
    ones from before the first load. *)
Theorem load_batch_cached (self : pipeline ndarray) (batch_id : Z) (e : Env) :
  let '(data, self', e') := load_batch ndarray Env sleep randn self batch_id e in
  load_batch ndarray Env sleep randn self' batch_id e' = (data, self', e') /\
  data_cache self' !! batch_id = Some data /\
  forall other, other <> batch_id ->
    data_cache self' !! other = data_cache self !! other.
Proof.
  unfold load_batch.
  destruct (data_cache self !! batch_id) as [data|] eqn:Hhit.
  - rewrite Hhit. auto.
  - destruct (randn (batch_size self) 50 (sleep e)) as [data e'] eqn:Hdraw.
    cbn. rewrite lookup_insert_eq. split; [reflexivity|]. split; [reflexivity|].
    intros other Hne. now apply lookup_insert_ne.
Qed.

End RangesProofs.

(** ** 4_nvtx_annotations.py: the sorting benchmarks *)

Section SortingLemmas.
Import NvtxRanges NvtxRangesSpec NvtxSorting SortingSpec.

Lemma lookup_at_index (arr : list Q) (k : nat) :
  (k < length arr)%nat -> arr !! k = Some (at_index arr k).
Proof.
  intros Hk. unfold at_index.
  destruct (lookup_lt_is_Some_2 arr k Hk) as [x ->]. reflexivity.
Qed.

Lemma getitem_at_index (arr : list Q) (k : nat) :
  (k < length arr)%nat -> getitem arr (Z.of_nat k) = Ok (at_index arr k).
Proof.
  intros Hk. apply getitem_nonneg; [lia|].
  rewrite Nat2Z.id. now apply lookup_at_index.
Qed.

Lemma at_index_insert (arr : list Q) (i k : nat) (x : Q) :
  (i < length arr)%nat ->
  at_index (<[i := x]> arr) k = if decide (k = i) then x else at_index arr k.
Proof.
  intros Hi. unfold at_index. destruct (decide (k = i)) as [->|Hne].
  - now rewrite list_lookup_insert_eq.
  - now rewrite list_lookup_insert_ne by congruence.
Qed.

Lemma insert_head_perm (l : list Q) (j : nat) (x y : Q) :
  l !! j = Some y -> y :: <[j := x]> l ≡ₚ x :: l.
Proof.
  revert j. induction l as [|z l IH]; intros [|j] Hj; try discriminate.
  - injection Hj as ->. cbn. apply perm_swap.
  - cbn in *. rewrite (perm_swap z y), (IH j Hj). apply perm_swap.
Qed.

(** Exchanging two items gives a permutation. *)
Lemma exchange_perm (l : list Q) (i j : nat) (x y : Q) :
  l !! i = Some x -> l !! j = Some y -> <[j := x]> (<[i := y]> l) ≡ₚ l.
Proof.
  revert i j. induction l as [|z l IH]; intros [|i] [|j] Hi Hj;
    try discriminate; cbn in *.
  - now injection Hi as ->.
  - injection Hi as ->. now apply insert_head_perm.
  - injection Hj as ->. symmetry in Hi. symmetry.
    rewrite <- (insert_head_perm l i y x) by now symmetry.
    reflexivity.
  - now rewrite (IH i j Hi Hj).
Qed.

Lemma swap_spec (arr : list Q) (i j : nat) :
  (i < length arr)%nat -> (j < length arr)%nat ->
  exists arr',
    swap arr (Z.of_nat i) (Z.of_nat j) = Ok arr' /\
    arr' = <[j := at_index arr i]> (<[i := at_index arr j]> arr) /\
    arr' ≡ₚ arr /\
    length arr' = length arr.
Proof.
  intros Hi Hj. unfold swap.
  rewrite (getitem_at_index arr j Hj). cbn.
  rewrite (getitem_at_index arr i Hi). cbn.
  rewrite setitem_nonneg by lia. cbn.
  rewrite setitem_nonneg by (rewrite length_insert; lia).
  rewrite !Nat2Z.id.
  eexists. split; [reflexivity|]. split; [reflexivity|]. split.
  - apply exchange_perm; now apply lookup_at_index.
  - now rewrite !length_insert.
Qed.

(** A list whose items grow with the position is sorted. *)
Lemma sorted_of_at_index (arr : list Q) :
  (forall k l, (k <= l)%nat -> (l < length arr)%nat ->
     (at_index arr k <= at_index arr l)%Q) ->
  StronglySorted Qle arr.
Proof.
  induction arr as [|x arr IH]; intros H; constructor.
  - apply IH. intros k l Hkl Hl.
    apply (H (S k) (S l)); cbn; lia.
  - apply Forall_forall. intros y Hy.
    apply list_elem_of_lookup in Hy as [k Hk].
    assert (Hy : at_index (x :: arr) (S k) = y).
    { unfold at_index. change ((x :: arr) !! S k) with (arr !! k).
      now rewrite Hk. }
    rewrite <- Hy. apply (H 0%nat (S k)); [lia|].
    apply lookup_lt_Some in Hk. cbn. lia.
Qed.

End SortingLemmas.

Section BubbleSortProofs.
Import NvtxRanges NvtxRangesSpec NvtxSorting SortingSpec.

#[local] Open Scope string_scope.

Lemma pass_inv_length (arr0 arr : list Q) (m j : nat) :
  pass_inv arr0 m j arr -> length arr = length arr0.
Proof. intros [Hperm _]. now apply Permutation_length. Qed.

Lemma bubble_step_inv (arr0 arr : list Q) (m j : nat) :
  (j < m)%nat -> (m < length arr0)%nat ->
  pass_inv arr0 m j arr ->
  exists arr', bubble_step (Z.of_nat j) arr = Ok arr' /\ pass_inv arr0 m (S j) arr'.
Proof.
  intros Hj Hm Hinv. pose proof (pass_inv_length _ _ _ _ Hinv) as Hlen.
  destruct Hinv as (Hperm & Hmax & Hrest & Hbound).
  unfold bubble_step.
  rewrite (getitem_at_index arr j) by lia. cbn.
  replace (Z.of_nat j + 1)%Z with (Z.of_nat (S j)) by lia.
  rewrite (getitem_at_index arr (S j)) by lia. cbn.
  unfold gt. destruct (Qle_bool (at_index arr j) (at_index arr (S j))) eqn:Hcmp; cbn.
  - (* in order: nothing moves *)
    apply Qle_bool_iff in Hcmp.
    exists arr. split; [reflexivity|]. split; [exact Hperm|]. split; [|split].
    + intros k Hk. destruct (decide (k = S j)) as [->|Hne]; [apply Qle_refl|].
      eapply Qle_trans; [apply Hmax; lia | exact Hcmp].
    + intros k Hk. apply Hrest. lia.
    + exact Hbound.
  - (* out of order: the two items are exchanged *)
    assert (Hlt : (at_index arr (S j) < at_index arr j)%Q).
    { apply Qnot_le_lt. intros Hle. apply Qle_bool_iff in Hle. congruence. }
    destruct (swap_spec arr j (S j) ltac:(lia) ltac:(lia))
      as (arr' & Hswap & Harr' & Hperm' & Hlen').
    exists arr'. split; [exact Hswap|].
    assert (Hat : forall k,
              at_index arr' k =
              if decide (k = S j) then at_index arr j
              else if decide (k = j) then at_index arr (S j)
              else at_index arr k).
    { intros k. rewrite Harr'.
      rewrite at_index_insert by (rewrite length_insert; lia).
      destruct (decide (k = S j)); [reflexivity|].
      now rewrite at_index_insert by lia. }
    split; [now rewrite Hperm'|]. split; [|split].
    + intros k Hk. rewrite !Hat. rewrite (decide_True (P := S j = S j)) by reflexivity.
      destruct (decide (k = S j)); [apply Qle_refl|].
      destruct (decide (k = j)); [now apply Qlt_le_weak|].
      apply Hmax. lia.
    + intros k Hk. rewrite Harr'.
      rewrite !list_lookup_insert_ne by lia. apply Hrest. lia.
    + intros b Hb k Hk. rewrite Hat.
      destruct (decide (k = S j)); [apply (Hbound b Hb); lia|].
      destruct (decide (k = j)); apply (Hbound b Hb); lia.
Qed.

Lemma bubble_pass (arr : list Q) (m : nat) :
  (m < length arr)%nat ->
  exists arr',
    for_each (py_range 0 (Z.of_nat m) 1) bubble_step arr = Ok arr' /\
    pass_inv arr m m arr'.
Proof.
  intros Hm.
  apply (for_range_inv bubble_step (fun j arr' => pass_inv arr m j arr')).
  - split; [reflexivity|]. split; [|split].
    + intros k Hk. replace k with 0%nat by lia. apply Qle_refl.
    + reflexivity.
    + auto.
  - intros j arr1 Hj Hinv. now apply bubble_step_inv.
Qed.

Lemma passes_inv_step (arr0 arr arr' : list Q) (n i : nat) :
  length arr0 = n -> (i < n)%nat ->
  passes_inv arr0 n i arr ->
  pass_inv arr (n - i - 1) (n - i - 1) arr' ->
  passes_inv arr0 n (S i) arr'.
Proof.
  intros Hn Hi [Hperm Hsorted] (Hperm' & Hmax & Hrest & Hbound).
  split; [now rewrite Hperm'|].
  intros k l Hkl Hl.
  destruct (decide (l = n - i - 1)%nat) as [->|Hne]; [now apply Hmax|].
  assert (Hl' : at_index arr' l = at_index arr l).
  { unfold at_index. rewrite Hrest by lia. reflexivity. }
  rewrite Hl'.
  destruct (decide (k <= n - i - 1)%nat) as [Hk|Hk].
  - apply Hbound; [|exact Hk]. intros k' Hk'. apply Hsorted; lia.
  - assert (Hk' : at_index arr' k = at_index arr k).
    { unfold at_index. rewrite Hrest by lia. reflexivity. }
    rewrite Hk'. apply Hsorted; lia.
Qed.

(** X16. bubble_sort returns a sorted permutation of its argument, for every
    array, and leaves the NVTX progress ranges balanced. *)
Theorem bubble_sort_sorted (arr : list Q) (evs : list event) :
  exists arr' extra,
    bubble_sort arr evs = Ok (arr', (evs ++ extra)%list) /\
    arr' ≡ₚ arr /\
    StronglySorted Qle arr' /\
    neutral extra.
Proof.
  unfold bubble_sort. set (n := length arr).
  destruct (for_range_inv
              (fun i '(arr, evs) =>
                 let evs :=
                   if (i mod 1000 =? 0)%Z
                   then (evs ++ [PushRange ("BubbleSort_Progress_" ++
                                            BasicCpuStrings.py_str_int (i / 1000))
                                   "yellow"])%list
                   else evs in
                 arr ← for_each (py_range 0 (Z.of_nat n - i - 1) 1) bubble_step arr;
                 let evs :=
                   if (i mod 1000 =? 0)%Z then (evs ++ [PopRange])%list else evs in
                 Ok (arr, evs))
              (fun i st =>
                 passes_inv arr n i st.1 /\
                 exists extra, st.2 = (evs ++ extra)%list /\ neutral extra)
              n (arr, evs))
    as ([arr' evs'] & Hrun & [Hperm Hsorted] & extra & Hevs & Hneutral).
  - split.
    + split; [reflexivity|]. intros k l _ Hl. lia.
    + exists []. split; [now rewrite app_nil_r | apply neutral_nil].
  - intros i [arr1 evs1] Hi [Hinv (extra & Hevs & Hneutral)]. cbn in Hinv, Hevs.
    assert (Hlen1 : length arr1 = n).
    { destruct Hinv as [Hp _]. now apply Permutation_length in Hp. }
    destruct (bubble_pass arr1 (n - i - 1) ltac:(lia)) as (arr2 & Hpass & Hinv2).
    replace (Z.of_nat n - Z.of_nat i - 1)%Z with (Z.of_nat (n - i - 1)) by lia.
    cbn zeta. rewrite Hpass. cbn.
    eexists. split; [reflexivity|]. cbn. split.
    + eapply passes_inv_step; eauto.
    + subst evs1. destruct (Z.of_nat i mod 1000 =? 0)%Z.
      * eexists. split; [rewrite <- !app_assoc; reflexivity|].
        apply neutral_app; [exact Hneutral|].
        apply (neutral_range _ _ []). apply neutral_nil.
      * now exists extra.
  - cbn in *. exists arr', extra. subst evs'.
    split; [exact Hrun|]. split; [exact Hperm|]. split; [|exact Hneutral].
    apply sorted_of_at_index. intros k l Hkl Hl.
    apply Permutation_length in Hperm.
    apply Hsorted; [exact Hkl|]. subst n. lia.
Qed.

End BubbleSortProofs.

Section QuickSortProofs.
Import NvtxSorting SortingSpec.

Lemma py_range_1 (start stop : Z) :
  py_range start stop 1 = range_from start 1 (Z.to_nat (stop - start)).
Proof. unfold py_range. f_equal. rewrite Z.div_1_r. lia. Qed.

Lemma rearranged_refl (arr : list Q) (low high : Z) : rearranged arr low high arr.
Proof. split; [reflexivity|]. split; auto. Qed.

Lemma rearranged_length (arr arr' : list Q) (low high : Z) :
  rearranged arr low high arr' -> length arr' = length arr.
Proof. intros [Hperm _]. now apply Permutation_length. Qed.

Lemma at_index_outside (arr arr' : list Q) (low high : Z) (k : nat) :
  rearranged arr low high arr' ->
  (Z.of_nat k < low \/ high < Z.of_nat k)%Z ->
  at_index arr' k = at_index arr k.
Proof. intros (_ & Hout & _) Hk. unfold at_index. now rewrite Hout. Qed.

(** The exchange of two positions of the segment. *)
Lemma swap_segment (arr : list Q) (low high i j : nat) :
  (low <= i <= high)%nat -> (low <= j <= high)%nat -> (high < length arr)%nat ->
  exists arr',
    swap arr (Z.of_nat i) (Z.of_nat j) = Ok arr' /\
    arr' ≡ₚ arr /\
    (forall k, at_index arr' k =
               if decide (k = j) then at_index arr i
               else if decide (k = i) then at_index arr j
               else at_index arr k) /\
    (forall k, k <> i -> k <> j -> arr' !! k = arr !! k) /\
    (forall P : Q -> Prop,
       segment P arr (Z.of_nat low) (Z.of_nat high) ->
       segment P arr' (Z.of_nat low) (Z.of_nat high)).
Proof.
  intros Hi Hj Hhigh.
  destruct (swap_spec arr i j ltac:(lia) ltac:(lia))
    as (arr' & Hswap & Harr' & Hperm & Hlen).
  assert (Hat : forall k, at_index arr' k =
                          if decide (k = j) then at_index arr i
                          else if decide (k = i) then at_index arr j
                          else at_index arr k).
  { intros k. rewrite Harr'.
    rewrite at_index_insert by (rewrite length_insert; lia).
    destruct (decide (k = j)); [reflexivity|].
    now rewrite at_index_insert by lia. }
  exists arr'. split; [exact Hswap|]. split; [exact Hperm|].
  split; [exact Hat|]. split.
  - intros k Hki Hkj. rewrite Harr'. now rewrite !list_lookup_insert_ne by congruence.
  - intros P HP k Hk. rewrite Hat.
    destruct (decide (k = j)); [apply HP; lia|].
    destruct (decide (k = i)); apply HP; lia.
Qed.

Lemma partition_step_inv (arr0 : list Q) (pivot : Q) (low high j : nat)
    (st : list Q * Z) :
  (low <= j < high)%nat -> (high < length arr0)%nat ->
  partition_inv arr0 pivot low high j st ->
  exists st',
    partition_step pivot (Z.of_nat j) st = Ok st' /\
    partition_inv arr0 pivot low high (S j) st'.
Proof.
  intros Hj Hhigh (p & Hi & Hp & Hperm & Hsmall & Hlarge & Hrest & Hseg).
  destruct st as [arr i]. cbn in *. subst i.
  assert (Hlen : length arr = length arr0) by now apply Permutation_length.
  rewrite (getitem_at_index arr j) by lia. cbn.
  unfold lt. destruct (Qle_bool pivot (at_index arr j)) eqn:Hcmp; cbn.
  - (* not smaller than the pivot: stays where it is *)
    apply Qle_bool_iff in Hcmp.
    eexists. split; [reflexivity|]. exists p. cbn.
    split; [reflexivity|]. split; [lia|]. split; [exact Hperm|].
    split; [exact Hsmall|]. split; [|split].
    + intros k Hk. destruct (decide (k = j)) as [->|Hne]; [exact Hcmp|].
      apply Hlarge. lia.
    + intros k Hk. apply Hrest. lia.
    + exact Hseg.
  - (* smaller: exchanged with the first of the larger items *)
    assert (Hlt : (at_index arr j < pivot)%Q).
    { apply Qnot_le_lt. intros Hle. apply Qle_bool_iff in Hle. congruence. }
    replace (Z.of_nat p - 1 + 1)%Z with (Z.of_nat p) by lia.
    destruct (swap_segment arr low high p j ltac:(lia) ltac:(lia) ltac:(lia))
      as (arr' & Hswap & Hperm' & Hat & Hsame & Hseg').
    rewrite Hswap. cbn.
    eexists. split; [reflexivity|]. exists (S p). cbn.
    split; [lia|]. split; [lia|]. split; [now rewrite Hperm'|].
    split; [|split; [|split]].
    + intros k Hk. rewrite Hat.
      destruct (decide (k = j)) as [->|Hkj].
      * assert (p = j) as -> by lia. exact Hlt.
      * destruct (decide (k = p)); [exact Hlt|]. apply Hsmall. lia.
    + intros k Hk. rewrite Hat.
      destruct (decide (k = j)) as [->|Hkj]; [apply Hlarge; lia|].
      rewrite decide_False by lia. apply Hlarge. lia.
    + intros k Hk. rewrite Hsame by lia. apply Hrest. lia.
    + intros P HP. apply Hseg'. now apply Hseg.
Qed.

Lemma partition_spec (arr : list Q) (low high : nat) :
  (low <= high)%nat -> (high < length arr)%nat ->
  exists arr' p,
    partition arr (Z.of_nat low) (Z.of_nat high) = Ok (arr', Z.of_nat p) /\
    partitioned arr low high p arr'.
Proof.
  intros Hlow Hhigh. unfold partition.
  rewrite (getitem_at_index arr high Hhigh). cbn.
  set (pivot := at_index arr high).
  rewrite py_range_1.
  replace (Z.to_nat (Z.of_nat high - Z.of_nat low)) with (high - low)%nat by lia.
  destruct (for_each_range_from_inv (partition_step pivot)
              (fun j st => partition_inv arr pivot low high j st)
              (high - low) low (arr, (Z.of_nat low - 1)%Z))
    as ([arr1 i] & Hrun & p & Hi & Hp & Hperm & Hsmall & Hlarge & Hrest & Hseg).
  - exists low. cbn. split; [reflexivity|]. split; [lia|].
    split; [reflexivity|]. split; [intros; lia|]. split; [intros; lia|].
    split; auto.
  - intros j st Hj Hinv. apply partition_step_inv; [lia|exact Hhigh|exact Hinv].
  - rewrite Hrun. cbn in *. subst i.
    replace (low + (high - low))%nat with high in * by lia.
    assert (Hlen : length arr1 = length arr) by now apply Permutation_length.
    replace (Z.of_nat p - 1 + 1)%Z with (Z.of_nat p) by lia.
    destruct (swap_segment arr1 low high p high ltac:(lia) ltac:(lia) ltac:(lia))
      as (arr2 & Hswap & Hperm2 & Hat & Hsame & Hseg2).
    rewrite Hswap. cbn.
    assert (Hpivot : at_index arr1 high = pivot).
    { unfold at_index. rewrite Hrest by lia. reflexivity. }
    exists arr2, p. split; [reflexivity|].
    assert (Hatp : at_index arr2 p = pivot).
    { rewrite Hat. destruct (decide (p = high)) as [->|Hne]; [exact Hpivot|].
      now rewrite decide_True by reflexivity. }
    split; [lia|]. split; [split; [|split]|split; [exact Hatp|split]].
    + now rewrite Hperm2.
    + intros k Hk. rewrite Hsame by lia. apply Hrest. lia.
    + intros P HP. apply Hseg2. now apply Hseg.
    + intros k Hk. rewrite Hatp, Hat.
      rewrite decide_False by lia. rewrite decide_False by lia.
      apply Hsmall. lia.
    + intros k Hk. rewrite Hatp, Hat.
      destruct (decide (k = high)) as [->|Hkh]; [apply Hlarge; lia|].
      rewrite decide_False by lia. apply Hlarge. lia.
Qed.

Lemma quick_sort_rec_spec (depth : nat) :
  forall (arr : list Q) (low high : Z),
    (0 <= low)%Z -> (high < Z.of_nat (length arr))%Z ->
    (Z.to_nat (high + 1 - low) < depth)%nat ->
    exists arr',
      quick_sort_rec depth arr low high = Ok arr' /\
      rearranged arr low high arr' /\
      ascending arr' low high.
Proof.
  induction depth as [|d IH]; intros arr low high Hlow Hhigh Hdepth; [lia|].
  cbn [quick_sort_rec].
  destruct (Z.ltb_spec low high) as [Hlt|Hge].
  2:{ exists arr. split; [reflexivity|]. split; [apply rearranged_refl|].
      intros k l Hk Hkl Hl. assert (k = l) as -> by lia. apply Qle_refl. }
  set (lo := Z.to_nat low). set (hi := Z.to_nat high).
  replace low with (Z.of_nat lo) in * by (subst lo; lia).
  replace high with (Z.of_nat hi) in * by (subst hi; lia).
  destruct (partition_spec arr lo hi ltac:(lia) ltac:(lia))
    as (arr1 & p & Hpart & Hp & Hre1 & _ & Hsmall & Hlarge).
  rewrite Hpart. cbn.
  pose proof (rearranged_length _ _ _ _ Hre1) as Hlen1.
  destruct (IH arr1 (Z.of_nat lo) (Z.of_nat p - 1)%Z
              ltac:(lia) ltac:(lia) ltac:(lia))
    as (arr2 & Hleft & Hre2 & Hasc2).
  rewrite Hleft. cbn.
  pose proof (rearranged_length _ _ _ _ Hre2) as Hlen2.
  destruct (IH arr2 (Z.of_nat p + 1)%Z (Z.of_nat hi)
              ltac:(lia) ltac:(lia) ltac:(lia))
    as (arr3 & Hright & Hre3 & Hasc3).
  exists arr3. split; [exact Hright|].
  (* the pivot and the two sides, followed through the three steps *)
  set (pv := at_index arr1 p).
  assert (Hp2 : at_index arr2 p = pv)
    by (apply (at_index_outside _ _ _ _ _ Hre2); lia).
  assert (Hp3 : at_index arr3 p = pv)
    by (rewrite (at_index_outside _ _ _ _ _ Hre3) by lia; exact Hp2).
  assert (Hleft2 : segment (fun x => (x < pv)%Q) arr2 (Z.of_nat lo) (Z.of_nat p - 1)).
  { destruct Hre2 as (_ & _ & Hseg). apply Hseg.
    intros k Hk. apply Hsmall. lia. }
  assert (Hright2 : segment (fun x => (pv <= x)%Q) arr2 (Z.of_nat p + 1) (Z.of_nat hi)).
  { intros k Hk. rewrite (at_index_outside _ _ _ _ _ Hre2) by lia.
    apply Hlarge. lia. }
  assert (Hright3 : segment (fun x => (pv <= x)%Q) arr3 (Z.of_nat p + 1) (Z.of_nat hi)).
  { destruct Hre3 as (_ & _ & Hseg). now apply Hseg. }
  assert (Hleft3 : forall k : nat, (Z.of_nat k < Z.of_nat p + 1)%Z ->
                     at_index arr3 k = at_index arr2 k).
  { intros k Hk. apply (at_index_outside _ _ _ _ _ Hre3). lia. }
  split; [split; [|split]|].
  - destruct Hre1 as [H1 _], Hre2 as [H2 _], Hre3 as [H3 _].
    now rewrite H3, H2, H1.
  - intros k Hk.
    destruct Hre1 as (_ & H1 & _), Hre2 as (_ & H2 & _), Hre3 as (_ & H3 & _).
    rewrite H3 by lia. rewrite H2 by lia. apply H1. lia.
  - intros P HP k Hk.
    destruct Hre1 as (_ & _ & H1). specialize (H1 P HP).
    assert (HP2 : segment P arr2 (Z.of_nat lo) (Z.of_nat hi)).
    { intros k' Hk'.
      destruct (decide (Z.of_nat k' <= Z.of_nat p - 1)%Z) as [Hin|Hout].
      - destruct Hre2 as (_ & _ & H2). apply (H2 P); [|lia].
        intros k'' Hk''. apply H1. lia.
      - rewrite (at_index_outside _ _ _ _ _ Hre2) by lia. apply H1. lia. }
    destruct (decide (Z.of_nat p + 1 <= Z.of_nat k)%Z) as [Hin|Hout].
    + destruct Hre3 as (_ & _ & H3). apply (H3 P); [|lia].
      intros k' Hk'. apply HP2. lia.
    + rewrite Hleft3 by lia. apply HP2. lia.
  - intros k l Hk Hkl Hl.
    destruct (decide (l < p)%nat) as [Hlp|Hlp].
    + rewrite !Hleft3 by lia. apply Hasc2; lia.
    + destruct (decide (p < k)%nat) as [Hpk|Hpk]; [apply Hasc3; lia|].
      (* k <= p <= l *)
      apply Qle_trans with pv.
      * destruct (decide (k = p)) as [->|Hne]; [rewrite Hp3; apply Qle_refl|].
        rewrite Hleft3 by lia. apply Qlt_le_weak. apply Hleft2. lia.
      * destruct (decide (l = p)) as [->|Hne]; [rewrite Hp3; apply Qle_refl|].
        apply Hright3. lia.
Qed.

(** X17. quick_sort returns a sorted permutation of its argument whenever the
    recursion limit leaves room for more nested calls than the array is
    long: the nesting of _quick_sort never exceeds that. *)
Theorem quick_sort_sorted (depth : nat) (arr : list Q) :
  (length arr < depth)%nat ->
  exists arr',
    quick_sort depth arr = Ok arr' /\ arr' ≡ₚ arr /\ StronglySorted Qle arr'.
Proof.
  intros Hdepth. unfold quick_sort.
  destruct (quick_sort_rec_spec depth arr 0
              (Z.of_nat (length arr) - 1) ltac:(lia) ltac:(lia) ltac:(lia))
    as (arr' & Hrun & Hre & Hasc).
  exists arr'. split; [exact Hrun|]. split; [apply Hre|].
  apply sorted_of_at_index. intros k l Hkl Hl.
  rewrite (rearranged_length _ _ _ _ Hre) in Hl.
  apply Hasc; lia.
Qed.

Lemma quick_sort_sorted_witness :
  (length [3; 1; 4; 2]%Q < 5)%nat /\
  exists arr',
    quick_sort 5 [3; 1; 4; 2]%Q = Ok arr' /\
    arr' ≡ₚ [3; 1; 4; 2]%Q /\ StronglySorted Qle arr'.
Proof.
  split; [cbn; lia|].
  apply (quick_sort_sorted 5 [3; 1; 4; 2]%Q). cbn. lia.
Defined.

(** X18. partition puts the pivot (the last item of the segment) at the
    position it returns, with the smaller items of the segment before it and
    the others after it; nothing outside the segment moves. *)
Theorem partition_partitions (arr : list Q) (low high : nat) :
  (low <= high)%nat -> (high < length arr)%nat ->
  exists arr' p,
    partition arr (Z.of_nat low) (Z.of_nat high) = Ok (arr', Z.of_nat p) /\
    (low <= p <= high)%nat /\
    arr' ≡ₚ arr /\
    at_index arr' p = at_index arr high /\
    (forall k, (low <= k < p)%nat -> (at_index arr' k < at_index arr' p)%Q) /\
    (forall k, (p < k <= high)%nat -> (at_index arr' p <= at_index arr' k)%Q) /\
    (forall k, (k < low \/ high < k)%nat -> arr' !! k = arr !! k).
Proof.
  intros Hlow Hhigh.
  destruct (partition_spec arr low high Hlow Hhigh)
    as (arr' & p & Hrun & Hp & (Hperm & Hout & Hseg) & Hpivot & Hsmall & Hlarge).
  exists arr', p. split; [exact Hrun|]. split; [exact Hp|]. split; [exact Hperm|].
  split; [exact Hpivot|]. split; [exact Hsmall|]. split; [exact Hlarge|].
  intros k Hk. apply Hout. lia.
Qed.

Lemma partition_partitions_witness :
  (0 <= 3)%nat /\ (3 < length [3; 1; 4; 2]%Q)%nat /\
  exists arr' p,
    partition [3; 1; 4; 2]%Q (Z.of_nat 0) (Z.of_nat 3) = Ok (arr', Z.of_nat p) /\
    (0 <= p <= 3)%nat /\
    arr' ≡ₚ [3; 1; 4; 2]%Q /\
    at_index arr' p = at_index [3; 1; 4; 2]%Q 3 /\
    (forall k, (0 <= k < p)%nat -> (at_index arr' k < at_index arr' p)%Q) /\
    (forall k, (p < k <= 3)%nat -> (at_index arr' p <= at_index arr' k)%Q) /\
    (forall k, (k < 0 \/ 3 < k)%nat -> arr' !! k = [3; 1; 4; 2]%Q !! k).
Proof.
  split; [lia|]. split; [cbn; lia|].
  apply (partition_partitions [3; 1; 4; 2]%Q 0 3); [lia | cbn; lia].
Defined.

End QuickSortProofs.

(** ** scripts/compare_results.py: when the parser fails *)

Section ParserTotality.
Import PyStr PyStrSpec CompareResults CompareSpec.

#[local] Open Scope string_scope.

Lemma span_all_chars (p : ascii -> bool) (s g rest : string) :
  span p s = (g, rest) -> all_chars p g.
Proof.
  revert g rest. induction s as [|c s IH]; intros g rest; cbn.
  - now intros [= <- <-].
  - destruct (p c) eqn:Hc.
    + destruct (span p s) as [run rest'] eqn:Hs. intros [= <- <-].
      split; [exact Hc | eapply IH; reflexivity].
    + now intros [= <- <-].
Qed.

Lemma span_all (p : ascii -> bool) (s : string) :
  all_chars p s -> span p s = (s, EmptyString).
Proof.
  induction s as [|c s IH]; cbn; [reflexivity|].
  intros [Hc Hs]. now rewrite Hc, IH.
Qed.

Lemma rev_append_rev_append (s a b : string) :
  rev_append (rev_append s a) b = rev_append a (s ++ b).
Proof.
  revert a b. induction s as [|c s IH]; intros a b; cbn; [reflexivity|].
  rewrite IH. reflexivity.
Qed.

Lemma string_app_empty (s : string) : s ++ EmptyString = s.
Proof.
  induction s as [|c s IH]; [reflexivity|].
  change (String c (s ++ EmptyString) = String c s). now rewrite IH.
Qed.

Lemma rev_rev (s : string) : rev (rev s) = s.
Proof.
  unfold rev. rewrite rev_append_rev_append.
  change (rev_append EmptyString (s ++ EmptyString)) with (s ++ EmptyString).
  apply string_app_empty.
Qed.

Lemma all_chars_rev_append (p : ascii -> bool) (s acc : string) :
  all_chars p s -> all_chars p acc -> all_chars p (rev_append s acc).
Proof.
  revert acc. induction s as [|c s IH]; intros acc Hs Hacc; cbn; [exact Hacc|].
  destruct Hs as [Hc Hs]. apply IH; [exact Hs|]. now split.
Qed.

Lemma drop_while_none (p q : ascii -> bool) (s : string) :
  (forall c, q c = true -> p c = false) ->
  all_chars q s -> drop_while p s = s.
Proof.
  intros Hpq. destruct s as [|c s]; cbn; [reflexivity|].
  intros [Hc _]. now rewrite (Hpq c Hc).
Qed.

Lemma digit_not_space (c : ascii) : is_digit c = true -> is_space c = false.
Proof.
  destruct c as [[] [] [] [] [] [] [] []]; cbn; try discriminate; reflexivity.
Qed.

Lemma strip_digits (s : string) : all_chars is_digit s -> strip s = s.
Proof.
  intros Hs. unfold strip, strip_class.
  rewrite (drop_while_none is_space is_digit s digit_not_space Hs).
  rewrite (drop_while_none is_space is_digit (rev s) digit_not_space).
  - apply rev_rev.
  - apply all_chars_rev_append; [exact Hs | exact I].
Qed.

Lemma read_sign_digit (c : ascii) (s : string) :
  is_digit c = true -> read_sign (String c s) = (false, String c s).
Proof.
  destruct c as [[] [] [] [] [] [] [] []]; cbn; try discriminate; reflexivity.
Qed.

(** On a non-empty string of digits, [int] fails only on the digit limit. *)
Lemma py_int_digits (g : string) :
  is_empty g = false -> all_chars is_digit g ->
  py_int g =
  if (max_str_digits <? Z.of_nat (String.length g))%Z then Raise ValueError
  else Ok (digits_value 0 g).
Proof.
  intros Hne Hg. unfold py_int. rewrite (strip_digits g Hg).
  destruct g as [|c g]; [discriminate|].
  rewrite (read_sign_digit c g) by apply Hg.
  rewrite (span_all is_digit _ Hg). reflexivity.
Qed.

Lemma re_search_Some (match_at : string -> option string) (s g : string) :
  re_search match_at s = Some g ->
  exists s', match_at s' = Some g.
Proof.
  induction s as [|c s IH]; cbn.
  - destruct (match_at EmptyString) eqn:H; [|discriminate].
    intros [= <-]. now exists EmptyString.
  - destruct (match_at (String c s)) eqn:H.
    + intros [= <-]. now exists (String c s).
    + exact IH.
Qed.

Lemma option_bind_Some {A B : Type} (c : option A) (k : A -> option B) (b : B) :
  c ≫= k = Some b -> exists a, c = Some a /\ k a = Some b.
Proof. destruct c as [a|]; cbn; [now exists a | discriminate]. Qed.

Lemma match_count_digits (label s g : string) :
  match_count label s = Some g -> is_empty g = false /\ all_chars is_digit g.
Proof.
  unfold match_count. intros H.
  apply option_bind_Some in H as (rest & _ & H).
  destruct (span is_digit (drop_while is_space rest)) as [g' rest'] eqn:Hspan.
  destruct (is_empty g') eqn:Hg; [discriminate|].
  injection H as <-. split; [exact Hg|].
  exact (span_all_chars _ _ _ _ Hspan).
Qed.

Lemma count_group_int (label content g : string) :
  re_search (match_count label) content = Some g ->
  py_int g =
  if (max_str_digits <? Z.of_nat (String.length g))%Z then Raise ValueError
  else Ok (digits_value 0 g).
Proof.
  intros H. apply re_search_Some in H as [s' H].
  apply match_count_digits in H as [Hne Hg]. now apply py_int_digits.
Qed.

Lemma split_go_first (sep : string) (skip : nat) (cur s : string) :
  exists first rest, split_go sep skip cur s = first :: rest.
Proof.
  revert skip cur. induction s as [|c s IH]; intros skip cur; cbn.
  - now eexists _, _.
  - destruct skip as [|k]; [|apply IH].
    destruct (strip_prefix sep (String c s)); [now eexists _, _ | apply IH].
Qed.

Lemma split_go_second (sep : string) (cur s : string) :
  is_empty sep = false ->
  contains sep s = true ->
  exists first second rest, split_go sep 0 cur s = first :: second :: rest.
Proof.
  intros Hsep. revert cur. induction s as [|c s IH]; intros cur; cbn.
  - destruct sep; [discriminate|]. cbn. discriminate.
  - destruct (strip_prefix sep (String c s)) eqn:H.
    + intros _.
      destruct (split_go_first sep (String.length sep - 1) EmptyString s)
        as (second & rest & ->).
      now eexists _, _, _.
    + apply IH.
Qed.

Lemma getitem_0 {A : Type} (x : A) (l : list A) : getitem (x :: l) 0 = Ok x.
Proof. apply getitem_nonneg; [lia|reflexivity]. Qed.

Lemma getitem_1 {A : Type} (x y : A) (l : list A) :
  getitem (x :: y :: l) 1 = Ok y.
Proof. apply getitem_nonneg; [lia|reflexivity]. Qed.

Lemma split_item_0 (sep s : string) :
  exists first, getitem (split sep s) 0 = Ok first.
Proof.
  unfold split. destruct (split_go_first sep 0 EmptyString s) as (first & rest & ->).
  exists first. apply getitem_0.
Qed.

Lemma split_item_1 (sep s : string) :
  is_empty sep = false -> contains sep s = true ->
  exists second, getitem (split sep s) 1 = Ok second.
Proof.
  intros Hsep Hin. unfold split.
  destruct (split_go_second sep EmptyString s Hsep Hin)
    as (first & second & rest & ->).
  exists second. apply getitem_1.
Qed.

Lemma parse_function_line_ok (line : string) (fns : list (string * Q)) :
  exists fns', parse_function_line line fns = Ok fns'.
Proof.
  unfold parse_function_line.
  destruct (negb (is_empty (strip line)) && contains "%" line); [|now eexists].
  destruct (split_ws line) as [|p0 [|p1 parts]] eqn:Hparts; cbn;
    try now eexists.
  rewrite getitem_0. cbn.
  destruct (py_float (strip_class (Ascii.eqb "%") p0)) as [q|e] eqn:Hf; cbn.
  - now eexists.
  - apply py_float_raises in Hf as ->. now eexists.
Qed.

Lemma function_lines_ok (lines : list string) (fns : list (string * Q)) :
  exists fns', for_each lines parse_function_line fns = Ok fns'.
Proof.
  revert fns. induction lines as [|line lines IH]; intros fns; cbn.
  - now eexists.
  - destruct (parse_function_line_ok line fns) as [fns1 ->]. cbn. apply IH.
Qed.

Lemma result_bind_Ok {A B : Type} (a : A) (k : A -> result B) :
  Ok a ≫= k = k a.
Proof. reflexivity. Qed.

Lemma result_bind_Ok_inv {A B : Type} (c : result A) (k : A -> result B)
    (b : B) :
  c ≫= k = Ok b -> exists a, c = Ok a /\ k a = Ok b.
Proof. destruct c as [a|e]; cbn; intros H; [now exists a | discriminate]. Qed.

Lemma result_bind_Raise {A B : Type} (c : result A) (k : A -> result B)
    (e : exn) :
  c ≫= k = Raise e -> c = Raise e \/ exists a, c = Ok a /\ k a = Raise e.
Proof.
  destruct c as [a|e']; cbn; intros H; [right; now exists a | left; congruence].
Qed.

(** A counter field raises exactly when its group is longer than [int]
    converts. *)
Lemma count_field_cases (label content : string) (st : stats)
    (set : stats -> Z -> stats) :
  match re_search (match_count label) content with
  | Some g =>
      if (max_str_digits <? Z.of_nat (String.length g))%Z
      then (n ← py_int g; Ok (set st n)) = Raise ValueError
      else exists st', (n ← py_int g; Ok (set st n)) = Ok st'
  | None => True
  end.
Proof.
  destruct (re_search (match_count label) content) as [g|] eqn:H; [|exact I].
  rewrite (count_group_int _ _ _ H).
  destruct (max_str_digits <? Z.of_nat (String.length g))%Z; [reflexivity|].
  now eexists.
Qed.

Lemma top_functions_ok (content : string) (st : stats) :
  exists st',
    (if contains "Top Functions" content then
       after ← getitem (split "Top Functions" content) 1;
       func_section ← getitem (split (newline ++ newline) after) 0;
       fns ← for_each (drop 2 (split newline func_section))
               parse_function_line (top_functions st);
       Ok (set_top_functions st fns)
     else Ok st) = Ok st'.
Proof.
  destruct (contains "Top Functions" content) eqn:Htop; [|now eexists].
  destruct (split_item_1 "Top Functions" content eq_refl Htop) as [after Hafter].
  rewrite Hafter, result_bind_Ok.
  destruct (split_item_0 (newline ++ newline) after) as [sect Hsect].
  rewrite Hsect, result_bind_Ok.
  destruct (function_lines_ok (drop 2 (split newline sect)) (top_functions st))
    as [fns Hfns].
  rewrite Hfns, result_bind_Ok. now eexists.
Qed.

Lemma count_field_raise (label content : string) (st : stats)
    (set : stats -> Z -> stats) (e : exn) :
  match re_search (match_count label) content with
  | Some g => n ← py_int g; Ok (set st n)
  | None => Ok st
  end = Raise e ->
  e = ValueError /\
  exists g,
    re_search (match_count label) content = Some g /\
    (max_str_digits < Z.of_nat (String.length g))%Z.
Proof.
  pose proof (count_field_cases label content st set) as Hcases.
  destruct (re_search (match_count label) content) as [g|]; [|discriminate].
  destruct (Z.ltb_spec max_str_digits (Z.of_nat (String.length g))) as [Hlong|_].
  - rewrite Hcases. intros [= <-]. split; [reflexivity|]. now exists g.
  - destruct Hcases as [st' ->]. discriminate.
Qed.

Lemma parse_stats_file_raise_cause (fs : filesystem) (filepath : path)
    (e : exn) :
  parse_stats_file fs filepath = Raise e ->
  e = ValueError /\
  exists content,
    fs !! filepath = Some content /\
    ((exists g, re_search match_duration content = Some g /\
                py_float g = Raise ValueError) \/
     (exists g, re_search (match_count "Total samples:") content = Some g /\
                (max_str_digits < Z.of_nat (String.length g))%Z) \/
     (exists g, re_search (match_count "Context switches:") content = Some g /\
                (max_str_digits < Z.of_nat (String.length g))%Z)).
Proof.
  unfold parse_stats_file.
  destruct (fs !! filepath) as [content|]; [|discriminate].
  intros H. apply result_bind_Raise in H as [H | (st1 & _ & H)].
  - destruct (re_search match_duration content) as [g|] eqn:Hd; [|discriminate].
    apply result_bind_Raise in H as [H | (d & _ & H)]; [|discriminate].
    pose proof (py_float_raises g e H) as ->.
    split; [reflexivity|]. exists content. split; [reflexivity|].
    left. now exists g.
  - apply result_bind_Raise in H as [H | (st2 & _ & H)].
    { apply count_field_raise in H as [-> Hg].
      split; [reflexivity|]. exists content. split; [reflexivity|].
      right. now left. }
    apply result_bind_Raise in H as [H | (st3 & _ & H)].
    { apply count_field_raise in H as [-> Hg].
      split; [reflexivity|]. exists content. split; [reflexivity|].
      right. now right. }
    destruct (top_functions_ok content st3) as [st' Hok]. congruence.
Qed.

Lemma count_fields_return (content : string) (st1 st : stats) :
  (st ← match re_search (match_count "Total samples:") content with
        | Some g => n ← py_int g; Ok (set_cpu_samples st1 n)
        | None => Ok st1
        end;
   st ← match re_search (match_count "Context switches:") content with
        | Some g => n ← py_int g; Ok (set_context_switches st n)
        | None => Ok st
        end;
   if contains "Top Functions" content then
     after ← getitem (split "Top Functions" content) 1;
     func_section ← getitem (split (newline ++ newline) after) 0;
     fns ← for_each (drop 2 (split newline func_section))
             parse_function_line (top_functions st);
     Ok (set_top_functions st fns)
   else Ok st) = Ok st ->
  (forall g, re_search (match_count "Total samples:") content = Some g ->
     (Z.of_nat (String.length g) <= max_str_digits)%Z) /\
  (forall g, re_search (match_count "Context switches:") content = Some g ->
     (Z.of_nat (String.length g) <= max_str_digits)%Z).
Proof.
  intros H.
  apply result_bind_Ok_inv in H as (st2 & H2 & H).
  apply result_bind_Ok_inv in H as (st3 & H3 & _).
  split.
  - intros g Hg.
    pose proof (count_field_cases "Total samples:" content st1 set_cpu_samples)
      as Hcases.
    rewrite Hg in Hcases, H2.
    destruct (Z.ltb_spec max_str_digits (Z.of_nat (String.length g)));
      [congruence | lia].
  - intros g Hg.
    pose proof (count_field_cases "Context switches:" content st2
                  set_context_switches) as Hcases.
    rewrite Hg in Hcases, H3.
    destruct (Z.ltb_spec max_str_digits (Z.of_nat (String.length g)));
      [congruence | lia].
Qed.

(** What a normal return says about the three converted fields. *)
Lemma parse_stats_file_returns (fs : filesystem) (filepath : path)
    (content : string) (st : stats) :
  fs !! filepath = Some content ->
  parse_stats_file fs filepath = Ok st ->
  (forall g, re_search match_duration content = Some g ->
     exists d, py_float g = Ok d) /\
  (forall g, re_search (match_count "Total samples:") content = Some g ->
     (Z.of_nat (String.length g) <= max_str_digits)%Z) /\
  (forall g, re_search (match_count "Context switches:") content = Some g ->
     (Z.of_nat (String.length g) <= max_str_digits)%Z).
Proof.
  intros Hfile. unfold parse_stats_file. rewrite Hfile.
  destruct (re_search match_duration content) as [g1|].
  - destruct (py_float g1) as [d|e1] eqn:Hf; [|discriminate].
    rewrite result_bind_Ok.
    intros H. split; [intros g [= <-]; now exists d|].
    exact (count_fields_return content _ st H).
  - rewrite result_bind_Ok.
    intros H. split; [discriminate|].
    exact (count_fields_return content _ st H).
Qed.

(** X19. parse_stats_file raises only a ValueError, and in exactly three
    situations, all on a file that exists: the duration pattern matches text
    that float() rejects, or the group of digits after "Total samples:" or
    after "Context switches:" is longer than the 4300 digits int() converts.
    The function list can never make it raise. *)
Theorem parse_stats_file_raises_iff (fs : filesystem) (filepath : path)
    (e : exn) :
  parse_stats_file fs filepath = Raise e <->
  e = ValueError /\
  exists content,
    fs !! filepath = Some content /\
    ((exists g, re_search match_duration content = Some g /\
                py_float g = Raise ValueError) \/
     (exists g, re_search (match_count "Total samples:") content = Some g /\
                (max_str_digits < Z.of_nat (String.length g))%Z) \/
     (exists g, re_search (match_count "Context switches:") content = Some g /\
                (max_str_digits < Z.of_nat (String.length g))%Z)).
Proof.
  split; [apply parse_stats_file_raise_cause|].
  intros (-> & content & Hfile & Hcases).
  destruct (parse_stats_file fs filepath) as [st|e] eqn:Hparse.
  - exfalso.
    destruct (parse_stats_file_returns fs filepath content st Hfile Hparse)
      as (Hd & Hs & Hc).
    destruct Hcases as [(g & Hg & Hf) | [(g & Hg & Hlong) | (g & Hg & Hlong)]].
    + destruct (Hd g Hg) as [d Hok]. congruence.
    + specialize (Hs g Hg). lia.
    + specialize (Hc g Hg). lia.
  - now apply parse_stats_file_raise_cause in Hparse as [-> _].
Qed.

(** A count of 4301 digits is more than int() converts; one of 4300 digits
    is converted. *)
Example parse_stats_file_digit_limit :
  parse_stats_file
    {[ ["results"; "py_1_basic_cpu_stats.txt"] :=
         "Total samples: " ++ BasicCpuStrings.py_repeat "9" 4301 ]}
    ["results"; "py_1_basic_cpu_stats.txt"] = Raise ValueError /\
  exists st,
    parse_stats_file
      {[ ["results"; "py_1_basic_cpu_stats.txt"] :=
           "Total samples: " ++ BasicCpuStrings.py_repeat "9" 4300 ]}
      ["results"; "py_1_basic_cpu_stats.txt"] = Ok st.
Proof.
  split; [vm_compute; reflexivity|].
  eexists. vm_compute. reflexivity.
Qed.

Lemma for_each_raises_at {A S : Type} (body : A -> S -> result S)
    (xs : list A) (s : S) (e : exn) :
  for_each xs body s = Raise e ->
  exists x s', x ∈ xs /\ body x s' = Raise e.
Proof.
  revert s. induction xs as [|x xs IH]; intros s; cbn.
  - discriminate.
  - destruct (body x s) as [s'|e'] eqn:Hx; cbn.
    + intros H. destruct (IH s' H) as (y & s'' & Hin & Hy).
      exists y, s''. split; [now right | exact Hy].
    + intros [= <-]. exists x, s. split; [now left | exact Hx].
Qed.

Lemma compare_pair_raise_cause (fs : filesystem) (dir : path)
    (py cpp disp : string) (comps : gmap string comparison) (e : exn) :
  compare_pair fs dir (py, cpp, disp) comps = Raise e ->
  parse_stats_file fs (stats_file dir py) = Raise e \/
  parse_stats_file fs (stats_file dir cpp) = Raise e.
Proof.
  unfold compare_pair.
  destruct (parse_stats_file fs (stats_file dir py)) as [ps|e1] eqn:Hp; cbn;
    [|intros [= <-]; now left].
  destruct (parse_stats_file fs (stats_file dir cpp)) as [cs|e2] eqn:Hc; cbn;
    [|intros [= <-]; now right].
  unfold truthy, truediv.
  destruct (duration ps) as [dp|]; [|discriminate].
  destruct (duration cs) as [dc|]; cbn; [|now rewrite andb_false_r].
  destruct (Qeq_bool dp 0); cbn; [discriminate|].
  destruct (Qeq_bool dc 0); discriminate.
Qed.

(** X20. compare_implementations raises only a ValueError, and only because
    parse_stats_file raised it on the statistics file of one of the example
    pairs: the division of the durations never fails. *)
Theorem compare_implementations_raises_cause (fs : filesystem) (dir : path)
    (e : exn) :
  compare_implementations fs dir = Raise e ->
  e = ValueError /\
  exists py_name cpp_name display_name,
    (py_name, cpp_name, display_name) ∈ example_pairs /\
    (parse_stats_file fs (stats_file dir py_name) = Raise ValueError \/
     parse_stats_file fs (stats_file dir cpp_name) = Raise ValueError).
Proof.
  intros H. unfold compare_implementations in H.
  apply for_each_raises_at in H as ([[py cpp] disp] & comps & Hin & Hpair).
  apply compare_pair_raise_cause in Hpair.
  assert (He : e = ValueError).
  { destruct Hpair as [Hp | Hp];
      apply parse_stats_file_raise_cause in Hp as [He _]; exact He. }
  subst e. split; [reflexivity|]. now exists py, cpp, disp.
Qed.

End ParserTotality.

Lemma compare_implementations_raises_cause_witness :
  CompareResults.compare_implementations Samples.malformed_fs ["results"%string]
    = Raise ValueError /\
  exists py_name cpp_name display_name,
    (py_name, cpp_name, display_name) ∈ CompareResults.example_pairs /\
    (CompareResults.parse_stats_file Samples.malformed_fs
       (CompareResults.stats_file ["results"%string] py_name)
       = Raise ValueError \/
     CompareResults.parse_stats_file Samples.malformed_fs
       (CompareResults.stats_file ["results"%string] cpp_name)
       = Raise ValueError).
Proof.
  split; [vm_compute; reflexivity|].
  apply (compare_implementations_raises_cause Samples.malformed_fs
           ["results"%string] ValueError).
  vm_compute. reflexivity.
Defined.

(** ** 5_io_bound_example.py: the copies *)

Section CopyProofs.
Import IOBound IOCopy.

#[local] Open Scope string_scope.

Lemma copy_chunks_all (n : nat) (src dst : list byte) :
  (0 < n)%nat -> copy_chunks n src dst = (dst ++ src)%list.
Proof.
  intros Hn. funelim (copy_chunks n src dst).
  - destruct n; [lia|]. destruct src; [|discriminate].
    now rewrite app_nil_r.
  - rewrite H by exact Hn. rewrite <- Hchunk, <- app_assoc.
    now rewrite take_drop.
Qed.

Lemma buffer_size_pos : (0 < buffer_size)%nat.
Proof. unfold buffer_size. lia. Qed.

Lemma optimized_copy_missing (temp_dir : list string) (fs : binary_files) :
  fs !! (temp_dir ++ ["source.dat"])%list = None ->
  optimized_copy temp_dir fs = Raise FileNotFoundError.
Proof. intros H. unfold optimized_copy. now rewrite H. Qed.

Lemma optimized_copy_present (temp_dir : list string) (fs : binary_files)
    (content : list byte) :
  fs !! (temp_dir ++ ["source.dat"])%list = Some content ->
  optimized_copy temp_dir fs =
  Ok (<[(temp_dir ++ ["dest_opt.dat"])%list := content]> fs).
Proof.
  intros H. unfold optimized_copy. rewrite H.
  rewrite (copy_chunks_all buffer_size content [] buffer_size_pos).
  now rewrite insert_insert_eq.
Qed.

(** X21. optimized_copy either fails because source.dat is missing, with
    FileNotFoundError and no file touched, or makes dest_opt.dat an exact
    copy of source.dat, whatever the length of the source, and changes no
    other file. *)
Theorem optimized_copy_exact (temp_dir : list string) (fs : binary_files) :
  optimized_copy temp_dir fs =
  match fs !! (temp_dir ++ ["source.dat"])%list with
  | Some content => Ok (<[(temp_dir ++ ["dest_opt.dat"])%list := content]> fs)
  | None => Raise FileNotFoundError
  end.
Proof.
  destruct (fs !! (temp_dir ++ ["source.dat"])%list) as [content|] eqn:Hsrc.
  - now apply optimized_copy_present.
  - now apply optimized_copy_missing.
Qed.

Lemma source_not_dest (temp_dir : list string) (name : string) :
  name <> "source.dat" ->
  (temp_dir ++ ["source.dat"])%list <> (temp_dir ++ [name])%list.
Proof. intros Hne Heq. apply app_inv_head in Heq. congruence. Qed.

(** X22. After unoptimized_copy, the optimized copy and the system copy both
    succeed, and the three destination files hold the same bytes as the
    source: the chunked, the byte-by-byte and the system copy agree. *)
Theorem copies_agree (temp_dir : list string) (fs : binary_files) :
  exists fs1 fs2 fs3 content,
    unoptimized_copy temp_dir fs = Ok fs1 /\
    optimized_copy temp_dir fs1 = Ok fs2 /\
    system_copy temp_dir fs2 = Ok fs3 /\
    content = replicate test_size "x"%byte /\
    fs3 !! (temp_dir ++ ["source.dat"])%list = Some content /\
    fs3 !! (temp_dir ++ ["dest_unopt.dat"])%list = Some content /\
    fs3 !! (temp_dir ++ ["dest_opt.dat"])%list = Some content /\
    fs3 !! (temp_dir ++ ["dest_system.dat"])%list = Some content.
Proof.
  set (content := replicate test_size "x"%byte).
  set (src := (temp_dir ++ ["source.dat"])%list).
  set (d1 := (temp_dir ++ ["dest_unopt.dat"])%list).
  set (d2 := (temp_dir ++ ["dest_opt.dat"])%list).
  set (d3 := (temp_dir ++ ["dest_system.dat"])%list).
  assert (H1 : src <> d1) by (apply source_not_dest; discriminate).
  assert (H2 : src <> d2) by (apply source_not_dest; discriminate).
  assert (H3 : src <> d3) by (apply source_not_dest; discriminate).
  assert (H12 : d1 <> d2)
    by (intros Heq; apply app_inv_head in Heq; discriminate).
  assert (H13 : d1 <> d3)
    by (intros Heq; apply app_inv_head in Heq; discriminate).
  assert (H23 : d2 <> d3)
    by (intros Heq; apply app_inv_head in Heq; discriminate).
  exists (<[d1 := content]> (<[src := content]> fs)).
  exists (<[d2 := content]> (<[d1 := content]> (<[src := content]> fs))).
  exists (<[d3 := content]>
            (<[d2 := content]> (<[d1 := content]> (<[src := content]> fs)))).
  exists content.
  split; [|split; [|split; [|split; [reflexivity|]]]].
  - unfold unoptimized_copy. fold src d1 content.
    rewrite lookup_insert_eq.
    rewrite (copy_chunks_all 1 content []) by lia.
    now rewrite insert_insert_eq.
  - unfold optimized_copy. fold src d2.
    rewrite lookup_insert_ne by congruence.
    rewrite lookup_insert_eq.
    rewrite (copy_chunks_all buffer_size content [] buffer_size_pos).
    now rewrite insert_insert_eq.
  - unfold system_copy. fold src d3.
    rewrite lookup_insert_ne by congruence.
    rewrite lookup_insert_ne by congruence.
    now rewrite lookup_insert_eq.
  - repeat split.
    + rewrite !lookup_insert_ne by congruence. apply lookup_insert_eq.
    + rewrite !lookup_insert_ne by congruence. apply lookup_insert_eq.
    + rewrite lookup_insert_ne by congruence. apply lookup_insert_eq.
    + apply lookup_insert_eq.
Qed.

(** X23. When source.dat is not in the temporary directory,
    io_optimization_comparison raises FileNotFoundError from the first
    measured copy: no timing is recorded or printed and no file is written. *)
Theorem io_optimization_comparison_missing_source (cost : binary_files -> Q)
    (temp_dir : list string) (w : world binary_files) :
  env w !! (temp_dir ++ ["source.dat"])%list = None ->
  exists w',
    io_optimization_comparison cost temp_dir w = (Raise FileNotFoundError, w') /\
    env w' = env w /\ results w' = results w /\ output w' = output w.
Proof.
  intros Hsrc. unfold io_optimization_comparison, measure, timed.
  rewrite optimized_copy_missing by exact Hsrc.
  eexists; split; [reflexivity|]. now cbn.
Qed.

(** X24. When source.dat is in the temporary directory,
    io_optimization_comparison returns, dest_opt.dat and dest_system.dat
    hold the bytes of source.dat, and both timings are recorded. *)
Theorem io_optimization_comparison_copies (cost : binary_files -> Q)
    (temp_dir : list string) (w : world binary_files) (content : list byte) :
  env w !! (temp_dir ++ ["source.dat"])%list = Some content ->
  exists w',
    io_optimization_comparison cost temp_dir w = (Ok tt, w') /\
    env w' !! (temp_dir ++ ["source.dat"])%list = Some content /\
    env w' !! (temp_dir ++ ["dest_opt.dat"])%list = Some content /\
    env w' !! (temp_dir ++ ["dest_system.dat"])%list = Some content /\
    is_Some (results w' !! "Optimized copy (1MB buffer)") /\
    is_Some (results w' !! "System copy (shutil)") /\
    length (output w') = S (S (length (output w))).
Proof.
  intros Hsrc.
  set (src := (temp_dir ++ ["source.dat"])%list) in *.
  set (d2 := (temp_dir ++ ["dest_opt.dat"])%list).
  set (d3 := (temp_dir ++ ["dest_system.dat"])%list).
  assert (H2 : src <> d2) by (apply source_not_dest; discriminate).
  assert (H3 : src <> d3) by (apply source_not_dest; discriminate).
  assert (H23 : d2 <> d3)
    by (intros Heq; apply app_inv_head in Heq; discriminate).
  unfold io_optimization_comparison, measure, timed.
  rewrite (optimized_copy_present _ _ _ Hsrc). cbn.
  unfold system_copy. fold src d2 d3.
  rewrite lookup_insert_ne by congruence. rewrite Hsrc. cbn.
  eexists; split; [reflexivity|]. cbn.
  repeat split.
  - rewrite !lookup_insert_ne by congruence. exact Hsrc.
  - rewrite lookup_insert_ne by congruence. apply lookup_insert_eq.
  - apply lookup_insert_eq.
  - rewrite lookup_insert_ne by discriminate. rewrite lookup_insert_eq. eauto.
  - rewrite lookup_insert_eq. eauto.
  - rewrite !length_app. cbn. lia.
Qed.

End CopyProofs.

(** ** 1_basic_cpu_profiling.py: the matrix benchmark *)

Section IntMatrixProofs.
Import BasicCpuMatrix IntMatrixSpec.

Lemma lookup_range_from (start step : Z) (n k : nat) :
  (k < n)%nat -> range_from start step n !! k = Some (start + Z.of_nat k * step).
Proof.
  revert start k. induction n as [|n IH]; intros start k Hk; [lia|].
  destruct k as [|k]; cbn [range_from].
  - cbn. f_equal. lia.
  - cbn [lookup list_lookup]. rewrite IH by lia. f_equal. lia.
Qed.

Lemma square_index_matrix (f : Z -> Z -> Z) (n : nat) :
  square (index_matrix f (Z.of_nat n)) n.
Proof.
  unfold index_matrix. rewrite py_range_0. split.
  - now rewrite length_fmap, length_range_from.
  - apply Forall_fmap, Forall_forall. intros i _. cbn.
    now rewrite length_fmap, length_range_from.
Qed.

Lemma cell_index_matrix (f : Z -> Z -> Z) (n i j : nat) :
  (i < n)%nat -> (j < n)%nat ->
  cell (index_matrix f (Z.of_nat n)) i j = Some (f (Z.of_nat i) (Z.of_nat j)).
Proof.
  intros Hi Hj. unfold cell, index_matrix. rewrite py_range_0.
  rewrite list_lookup_fmap, lookup_range_from by exact Hi. cbn.
  rewrite list_lookup_fmap, lookup_range_from by exact Hj. cbn.
  do 2 f_equal; lia.
Qed.

Lemma square_row (m : list (list Z)) (n i : nat) :
  square m n -> (i < n)%nat ->
  exists row, m !! i = Some row /\ length row = n.
Proof.
  intros [Hlen Hrows] Hi.
  destruct (lookup_lt_is_Some_2 m i ltac:(lia)) as [row Hrow].
  exists row. split; [exact Hrow|].
  rewrite Forall_forall in Hrows. apply Hrows.
  eapply list_elem_of_lookup_2, Hrow.
Qed.

Lemma getitem_cell (m : list (list Z)) (n i j : nat) :
  square m n -> (i < n)%nat -> (j < n)%nat ->
  exists row v,
    m !! i = Some row /\ length row = n /\
    getitem m (Z.of_nat i) = Ok row /\
    getitem row (Z.of_nat j) = Ok v /\
    cell m i j = Some v.
Proof.
  intros Hm Hi Hj. destruct (square_row m n i Hm Hi) as (row & Hrow & Hlen).
  destruct (lookup_lt_is_Some_2 row j ltac:(lia)) as [v Hv].
  exists row, v. split; [exact Hrow|]. split; [exact Hlen|].
  split; [|split].
  - apply getitem_nonneg; [lia|]. now rewrite Nat2Z.id.
  - apply getitem_nonneg; [lia|]. now rewrite Nat2Z.id.
  - unfold cell. rewrite Hrow. exact Hv.
Qed.

Lemma store_cell (m : list (list Z)) (row : list Z) (n i j : nat) (v : Z) :
  square m n -> (i < n)%nat -> (j < n)%nat -> m !! i = Some row ->
  length row = n ->
  square (<[i := <[j := v]> row]> m) n /\
  forall i' j',
    cell (<[i := <[j := v]> row]> m) i' j' =
    if decide (i' = i /\ j' = j) then Some v else cell m i' j'.
Proof.
  intros [Hlen Hrows] Hi Hj Hrow Hrowlen. split; [split|].
  - now rewrite length_insert.
  - apply Forall_insert; [exact Hrows|]. now rewrite length_insert.
  - intros i' j'. unfold cell.
    destruct (decide (i' = i)) as [->|Hne].
    + rewrite list_lookup_insert_eq by lia. cbn. rewrite Hrow. cbn.
      destruct (decide (j' = j)) as [->|Hnej].
      * rewrite list_lookup_insert_eq by lia. now rewrite decide_True.
      * rewrite list_lookup_insert_ne by congruence.
        rewrite decide_False by tauto. reflexivity.
    + rewrite list_lookup_insert_ne by congruence.
      rewrite decide_False by tauto. reflexivity.
Qed.

(** The loop over [k] turns a zero at [(i, j)] into the entry of the
    product, and touches nothing else. *)
Lemma accumulate_cell (n i j : nat) (c : list (list Z)) :
  square c n -> (i < n)%nat -> (j < n)%nat -> cell c i j = Some 0 ->
  exists c',
    for_each (py_range 0 (Z.of_nat n) 1)
      (fun k c =>
         row ← getitem c (Z.of_nat i);
         old ← getitem row (Z.of_nat j);
         arow ← getitem (index_matrix (fun i j => i * j) (Z.of_nat n)) (Z.of_nat i);
         av ← getitem arow k;
         brow ← getitem (index_matrix (fun i j => i + j) (Z.of_nat n)) k;
         bv ← getitem brow (Z.of_nat j);
         row' ← setitem row (Z.of_nat j) (old + av * bv);
         setitem c (Z.of_nat i) row')
      c = Ok c' /\
    square c' n /\
    forall i' j',
      cell c' i' j' =
      if decide (i' = i /\ j' = j) then Some (product_entry n i j)
      else cell c i' j'.
Proof.
  intros Hc Hi Hj H0.
  set (body := fun k c => _).
  destruct (for_range_inv body
              (fun k c' =>
                 square c' n /\
                 forall i' j',
                   cell c' i' j' =
                   if decide (i' = i /\ j' = j)
                   then Some (product_entry k i j) else cell c i' j')
              n c) as (c' & Hrun & Hinv).
  - split; [exact Hc|]. intros i' j'.
    destruct (decide (i' = i /\ j' = j)) as [[-> ->]|]; [exact H0|reflexivity].
  - intros k c1 Hk [Hc1 Hcells]. subst body. cbn beta.
    destruct (getitem_cell c1 n i j Hc1 Hi Hj)
      as (row & old & Hrow & Hlen & Hgrow & Hgold & Hcell).
    rewrite Hcells, decide_True in Hcell by tauto. injection Hcell as <-.
    destruct (getitem_cell _ n i k (square_index_matrix (fun i j => i * j) n) Hi Hk)
      as (arow & av & _ & _ & Hga & Hgav & Hav).
    rewrite cell_index_matrix in Hav by assumption. injection Hav as <-.
    destruct (getitem_cell _ n k j (square_index_matrix (fun i j => i + j) n) Hk Hj)
      as (brow & bv & _ & _ & Hgb & Hgbv & Hbv).
    rewrite cell_index_matrix in Hbv by assumption. injection Hbv as <-.
    rewrite Hgrow. cbn. rewrite Hgold. cbn. rewrite Hga. cbn. rewrite Hgav. cbn.
    rewrite Hgb. cbn. rewrite Hgbv. cbn.
    rewrite setitem_nonneg by lia. cbn.
    rewrite setitem_nonneg by (destruct Hc1; lia).
    rewrite !Nat2Z.id.
    eexists. split; [reflexivity|].
    destruct (store_cell c1 row n i j
                (product_entry k i j +
                 Z.of_nat i * Z.of_nat k * (Z.of_nat k + Z.of_nat j))
                Hc1 Hi Hj Hrow Hlen) as [Hsq Hnew].
    split; [exact Hsq|]. intros i' j'. rewrite Hnew.
    destruct (decide (i' = i /\ j' = j)); [reflexivity|].
    rewrite Hcells. now rewrite decide_False.
  - exists c'. split; [exact Hrun|]. exact Hinv.
Qed.

Lemma fill_int_row (n i : nat) (c : list (list Z)) :
  (i < n)%nat -> filled n (product_entry n) i 0 c ->
  exists c',
    for_each (py_range 0 (Z.of_nat n) 1)
      (fun j c =>
         for_each (py_range 0 (Z.of_nat n) 1)
           (fun k c =>
              row ← getitem c (Z.of_nat i);
              old ← getitem row j;
              arow ← getitem (index_matrix (fun i j => i * j) (Z.of_nat n)) (Z.of_nat i);
              av ← getitem arow k;
              brow ← getitem (index_matrix (fun i j => i + j) (Z.of_nat n)) k;
              bv ← getitem brow j;
              row' ← setitem row j (old + av * bv);
              setitem c (Z.of_nat i) row')
           c)
      c = Ok c' /\
    filled n (product_entry n) (S i) 0 c'.
Proof.
  intros Hi H0.
  set (body := fun j c => _).
  destruct (for_range_inv body (fun j c => filled n (product_entry n) i j c)
              n c H0) as (c' & Hrun & [Hsq Hcells]).
  - intros j c1 Hj [Hsq Hcells]. subst body. cbn beta.
    destruct (accumulate_cell n i j c1 Hsq Hi Hj) as (c2 & Hb & Hsq2 & Hc2).
    { rewrite Hcells by assumption. now rewrite decide_False by lia. }
    exists c2. split; [exact Hb|]. split; [exact Hsq2|].
    intros i' j' Hi' Hj'. rewrite Hc2.
    destruct (decide (i' = i /\ j' = j)) as [[-> ->]|Hne].
    + now rewrite decide_True by lia.
    + rewrite Hcells by assumption. f_equal.
      destruct (decide (i' < i \/ i' = i /\ j' < j)%nat);
        destruct (decide (i' < i \/ i' = i /\ j' < S j)%nat);
        try reflexivity; exfalso; lia.
  - exists c'. split; [exact Hrun|]. split; [exact Hsq|].
    intros i' j' Hi' Hj'. rewrite Hcells by assumption. f_equal.
    destruct (decide (i' < i \/ i' = i /\ j' < n)%nat);
      destruct (decide (i' < S i \/ i' = S i /\ j' < 0)%nat);
      try reflexivity; exfalso; lia.
Qed.

Lemma product_entry_closed (n i j : nat) :
  6 * product_entry n i j =
  Z.of_nat i * Z.of_nat n * (Z.of_nat n - 1) *
  (2 * Z.of_nat n - 1 + 3 * Z.of_nat j).
Proof.
  unfold product_entry. induction n as [|n IH]; [cbn; ring|].
  cbn [sum_upto]. rewrite Z.mul_add_distr_l, IH, Nat2Z.inj_succ.
  unfold Z.succ. ring.
Qed.

Lemma matrix_multiply_naive_to_nat (size : Z) :
  matrix_multiply_naive size = matrix_multiply_naive (Z.of_nat (Z.to_nat size)).
Proof.
  unfold matrix_multiply_naive, index_matrix.
  now rewrite <- (py_range_to_nat size).
Qed.

(** X25. matrix_multiply_naive(size) returns, for every size, a square matrix
    of side max(size, 0) whose entry (i, j) is the sum over k of
    (i * k) * (k + j), that is i * n * (n - 1) * (2n - 1 + 3j) / 6 for
    n = size. *)
Theorem matrix_multiply_naive_entries (size : Z) :
  exists c,
    matrix_multiply_naive size = Ok c /\
    square c (Z.to_nat size) /\
    forall i j, (i < Z.to_nat size)%nat -> (j < Z.to_nat size)%nat ->
      exists v,
        cell c i j = Some v /\
        v = product_entry (Z.to_nat size) i j /\
        6 * v =
        Z.of_nat i * Z.of_nat (Z.to_nat size) * (Z.of_nat (Z.to_nat size) - 1) *
        (2 * Z.of_nat (Z.to_nat size) - 1 + 3 * Z.of_nat j).
Proof.
  rewrite matrix_multiply_naive_to_nat.
  set (n := Z.to_nat size). unfold matrix_multiply_naive.
  set (body := fun i c => _).
  destruct (for_range_inv body (fun i c => filled n (product_entry n) i 0 c) n
              (index_matrix (fun _ _ => 0) (Z.of_nat n)))
    as (c & Hrun & [Hsq Hcells]).
  - split; [apply square_index_matrix|].
    intros i' j' Hi' Hj'. rewrite cell_index_matrix by assumption.
    now rewrite decide_False by lia.
  - intros i c1 Hi Hfilled. subst body. cbn beta.
    exact (fill_int_row n i c1 Hi Hfilled).
  - exists c. split; [exact Hrun|]. split; [exact Hsq|].
    intros i j Hi Hj. exists (product_entry n i j).
    split; [|split; [reflexivity | apply product_entry_closed]].
    rewrite Hcells by assumption. now rewrite decide_True by lia.
Qed.

End IntMatrixProofs.

(** ** 4_nvtx_annotations.py: the pipeline with the stand-in for nvtx *)

Section PipelineProofs.
Import Nvtx NvtxRanges NvtxPipeline.

Context {Fn ndarray Env : Type}.
Variables (sleep : Env -> Env) (randn : Z -> Z -> Env -> ndarray * Env).
Variables (fft half_real ifft_real : ndarray -> ndarray).

(** X26. With the stand-in for nvtx, process_batches cannot process a batch:
    for a positive number of batches it loads batch 0 and then raises the
    TypeError of transform_batch, leaving that batch in the cache; for any
    other number it returns the empty list and touches nothing. *)
Theorem process_batches_dummy (self : pipeline ndarray) (num_batches : Z)
    (e : Env) :
  process_batches Fn ndarray Env sleep randn fft half_real ifft_real
    self num_batches e =
  if 0 <? num_batches then
    let '(_, self', e') := load_batch ndarray Env sleep randn self 0 e in
    (Raise TypeError, self', e')
  else (Ok [], self, e).
Proof.
  unfold process_batches, py_range.
  replace ((num_batches - 0 + 1 - 1) / 1) with num_batches
    by (rewrite Z.div_1_r; lia).
  destruct (Z.ltb_spec 0 num_batches) as [Hpos|Hneg].
  - destruct (Z.to_nat num_batches) as [|n] eqn:Hn; [lia|].
    cbn [range_from process_loop push_range].
    destruct (load_batch ndarray Env sleep randn self 0 e) as [[data self'] e'].
    reflexivity.
  - replace (Z.to_nat num_batches) with 0%nat by lia. reflexivity.
Qed.

End PipelineProofs.

Section MoreWitnesses.
Import CompareResults VisualReport Samples NvtxRanges NvtxRangesSpec IOCopy.

#[local] Open Scope string_scope.

Lemma profile_function_balanced_witness :
  exists w' evs',
    profile_function unit unit Z None "blue" "work"
      (fun _ w => (Raise ValueError, w)) tt (NvtxRanges.mk_world tt 0%Q [])
      = (Raise ValueError, w') /\
    NvtxRanges.env w' = tt /\
    events w' = ([] ++ evs')%list /\
    last evs' = Some (PrintTiming "work" (0 - 0)%Q) /\
    neutral evs'.
Proof.
  apply (profile_function_balanced None "blue" "work"
           (fun _ w => (Raise ValueError, w)) tt
           (NvtxRanges.mk_world tt 0%Q [])
           (NvtxRanges.mk_world tt 0%Q [PushRange "work" "blue"])
           (Raise ValueError) []).
  - reflexivity.
  - reflexivity.
  - intros depth. reflexivity.
Defined.

Lemma extract_stats_not_started_witness :
  extract_stats missing_run sample_profile = ([], Raise FileNotFoundError).
Proof.
  apply (extract_stats_not_started missing_run sample_profile FileNotFoundError).
  - reflexivity.
  - discriminate.
Defined.

Lemma parse_stats_file_defaults_witness :
  (re_search match_duration "Duration: 2.5 seconds" = None ->
   CompareResults.duration (CompareResults.mk_stats (Some 2.5%Q) 0 0 [] 0 0)
   = None) /\
  (re_search (match_count "Total samples:") "Duration: 2.5 seconds" = None ->
   cpu_samples (CompareResults.mk_stats (Some 2.5%Q) 0 0 [] 0 0) = 0) /\
  (re_search (match_count "Context switches:") "Duration: 2.5 seconds" = None ->
   CompareResults.context_switches
     (CompareResults.mk_stats (Some 2.5%Q) 0 0 [] 0 0) = 0) /\
  (PyStr.contains "Top Functions" "Duration: 2.5 seconds" = false ->
   CompareResults.top_functions
     (CompareResults.mk_stats (Some 2.5%Q) 0 0 [] 0 0) = []) /\
  os_runtime_events (CompareResults.mk_stats (Some 2.5%Q) 0 0 [] 0 0) = 0 /\
  nvtx_events (CompareResults.mk_stats (Some 2.5%Q) 0 0 [] 0 0) = 0.
Proof.
  apply (parse_stats_file_defaults sample_fs
           ["results"; "cpp_1_basic_cpu_stats.txt"]
           "Duration: 2.5 seconds"
           (CompareResults.mk_stats (Some 2.5%Q) 0 0 [] 0 0)).
  - vm_compute. reflexivity.
  - vm_compute. reflexivity.
Defined.

Lemma io_optimization_comparison_missing_source_witness :
  exists w',
    io_optimization_comparison (fun _ => 1%Q) ["tmp"]
      (IOBound.mk_world ∅ 0%Q ∅ [])
      = (Raise FileNotFoundError, w') /\
    IOBound.env w' = ∅ /\ IOBound.results w' = ∅ /\ IOBound.output w' = [].
Proof.
  apply (io_optimization_comparison_missing_source (fun _ => 1%Q) ["tmp"]
           (IOBound.mk_world ∅ 0%Q ∅ [])).
  reflexivity.
Defined.

Lemma io_optimization_comparison_copies_witness :
  exists w',
    io_optimization_comparison (fun _ => 1%Q) ["tmp"]
      (IOBound.mk_world {[ ["tmp"; "source.dat"] := ["a"; "b"]%byte ]} 0%Q ∅ [])
      = (Ok tt, w') /\
    IOBound.env w' !! ["tmp"; "source.dat"] = Some ["a"; "b"]%byte /\
    IOBound.env w' !! ["tmp"; "dest_opt.dat"] = Some ["a"; "b"]%byte /\
    IOBound.env w' !! ["tmp"; "dest_system.dat"] = Some ["a"; "b"]%byte /\
    is_Some (IOBound.results w' !! "Optimized copy (1MB buffer)") /\
    is_Some (IOBound.results w' !! "System copy (shutil)") /\
    length (IOBound.output w') = 2%nat.
Proof.
  apply (io_optimization_comparison_copies (fun _ => 1%Q) ["tmp"]
           (IOBound.mk_world {[ ["tmp"; "source.dat"] := ["a"; "b"]%byte ]}
              0%Q ∅ [])
           ["a"; "b"]%byte).
  apply lookup_singleton_eq.
Defined.

End MoreWitnesses.
